(** * ws-load: the load-generation and measurement engine

    A shallow embedding of the Go sources of the WebSocket load tester
    ([loadtest.go], the percentile helper of the utilities file and
    [addEntry] of the history file) together with the properties of the
    written specification that concern them.

    Conventions.
    - Go's [int], [int64] and [time.Duration] are 64-bit two's-complement
      integers: they are values of [Z], and every arithmetic result goes
      through [wrap64].
    - A Go [string] is a sequence of bytes: [String.string].
    - An [error] is [nil] or carries the text returned by [Error()]:
      [option string].
    - A Go map is a [gmap]; a slice is a [list].
    - A run-time panic is the [None] of an [option]. *)

From Stdlib Require Import ZArith Lia List Bool Ascii String DecimalString.
From Stdlib Require Import Sorting.Sorted Sorting.Permutation.
From Stdlib Require Import Floats Uint63.
From stdpp Require Import base option list gmap strings.

Import ListNotations.
Local Open Scope string_scope.
Local Open Scope Z_scope.

(* ===================================================================== *)
(** ** Machine integers *)
(* ===================================================================== *)

Module GoInt.

Definition maxInt64 : Z := 9223372036854775807.
Definition minInt64 : Z := -9223372036854775808.

(** Two's-complement wrap-around of a 64-bit signed integer. *)
Definition wrap64 (z : Z) : Z :=
  (z + 9223372036854775808) mod 18446744073709551616 - 9223372036854775808.

Definition add (x y : Z) : Z := wrap64 (x + y).
Definition mul (x y : Z) : Z := wrap64 (x * y).
(** Go's [/] on integers truncates toward zero. *)
Definition div (x y : Z) : Z := wrap64 (Z.quot x y).
(** [x++] *)
Definition incr (x : Z) : Z := add x 1.

Definition inRange (z : Z) : Prop := minInt64 <= z <= maxInt64.

End GoInt.

(* ===================================================================== *)
(** ** The [strings] package *)
(* ===================================================================== *)

Module Import GoStrings.

(** [utf8.RuneSelf = 0x80]: bytes below it are single-byte runes. *)
Definition isASCIIByte (c : ascii) : bool := (nat_of_ascii c <? 128)%nat.

Definition isUpperByte (c : ascii) : bool :=
  ((65 <=? nat_of_ascii c) && (nat_of_ascii c <=? 90))%nat.

(** [c += 'a' - 'A'] on the bytes ['A'..'Z']. *)
Definition lowerByte (c : ascii) : ascii :=
  if isUpperByte c then ascii_of_nat (nat_of_ascii c + 32) else c.

Fixpoint isASCII (s : string) : bool :=
  match s with
  | EmptyString => true
  | String c s' => isASCIIByte c && isASCII s'
  end.

Fixpoint mapBytes (f : ascii -> ascii) (s : string) : string :=
  match s with
  | EmptyString => EmptyString
  | String c s' => String (f c) (mapBytes f s')
  end.

(** [strings.ToLower]: an ASCII-only string is lowered byte by byte;
    any other string goes through [strings.Map(unicode.ToLower, s)],
    which needs the Unicode tables of the Go runtime and is the
    parameter [unicodeMap]. *)
Definition ToLower (unicodeMap : string -> string) (s : string) : string :=
  if isASCII s then mapBytes lowerByte s else unicodeMap s.

Fixpoint HasPrefix (s prefix : string) {struct prefix} : bool :=
  match prefix with
  | EmptyString => true
  | String c p' =>
      match s with
      | EmptyString => false
      | String d s' => Ascii.eqb d c && HasPrefix s' p'
      end
  end.

(** [strings.Contains]: [substr] occurs in [s] as a run of bytes. *)
Fixpoint Contains (s substr : string) : bool :=
  HasPrefix s substr ||
  match s with
  | EmptyString => false
  | String _ s' => Contains s' substr
  end.

(** Case-insensitive variants on ASCII letters, used to state what the
    classifier's matching means on the original message. *)
Fixpoint HasPrefixFold (s prefix : string) {struct prefix} : bool :=
  match prefix with
  | EmptyString => true
  | String c p' =>
      match s with
      | EmptyString => false
      | String d s' => Ascii.eqb (lowerByte d) (lowerByte c) && HasPrefixFold s' p'
      end
  end.

Fixpoint ContainsFold (s substr : string) : bool :=
  HasPrefixFold s substr ||
  match s with
  | EmptyString => false
  | String _ s' => ContainsFold s' substr
  end.

End GoStrings.

(** An [error] value: [nil], or a value whose [Error()] is the text. *)
Definition error : Type := option string.

(* ===================================================================== *)
(** ** Error categories ([loadtest.go], lines 16-170) *)
(* ===================================================================== *)

Definition ErrorCategoryTimeout : string := "timeout".
Definition ErrorCategoryConnectionRefused : string := "connection_refused".
Definition ErrorCategoryUnexpectedResponse : string := "unexpected_response".
Definition ErrorCategoryInvalidData : string := "invalid_data".
Definition ErrorCategoryAuthFailure : string := "authentication_failure".
Definition ErrorCategoryNetworkError : string := "network_error".
Definition ErrorCategoryProtocolError : string := "protocol_error".
Definition ErrorCategoryResourceExhaustion : string := "resource_exhaustion".
Definition ErrorCategoryUnknown : string := "unknown".

Record ErrorCategoryInfo : Type := mkErrorCategoryInfo {
  Count : Z;
  Description : string;
  Examples : list string
}.

Definition initializeErrorCategories : gmap string ErrorCategoryInfo :=
  <[ErrorCategoryUnknown :=
      mkErrorCategoryInfo 0 "Uncategorized or unknown errors" []]>
  (<[ErrorCategoryResourceExhaustion :=
      mkErrorCategoryInfo 0 "Resource exhaustion (too many connections, memory, etc.)" []]>
  (<[ErrorCategoryProtocolError :=
      mkErrorCategoryInfo 0 "WebSocket protocol violations or errors" []]>
  (<[ErrorCategoryNetworkError :=
      mkErrorCategoryInfo 0 "Network-related errors (DNS, routing, etc.)" []]>
  (<[ErrorCategoryAuthFailure :=
      mkErrorCategoryInfo 0 "Authentication or authorization failures" []]>
  (<[ErrorCategoryInvalidData :=
      mkErrorCategoryInfo 0 "Invalid or malformed data received" []]>
  (<[ErrorCategoryUnexpectedResponse :=
      mkErrorCategoryInfo 0 "Unexpected HTTP responses or WebSocket upgrade failures" []]>
  (<[ErrorCategoryConnectionRefused :=
      mkErrorCategoryInfo 0 "Connection attempts rejected by the server" []]>
  (<[ErrorCategoryTimeout :=
      mkErrorCategoryInfo 0 "Requests that timed out (handshake, read, write timeouts)" []]>
   ∅)))))))).

(* ===================================================================== *)
(** ** Numbers of the [time] package and [float64] conversions *)
(* ===================================================================== *)

Module GoTime.

(** [time.Duration] is an [int64] count of nanoseconds. *)
Definition Millisecond : Z := 1000000.
Definition Second : Z := 1000000000.

(** [float64(x)] for an [int64] [x]. *)
Definition float64_of_int64 (x : Z) : float :=
  if x =? GoInt.minInt64 then (-9223372036854775808)%float
  else if x <? 0 then PrimFloat.opp (PrimFloat.of_uint63 (Uint63.of_Z (- x)))
  else PrimFloat.of_uint63 (Uint63.of_Z x).

(** [Duration.Seconds]: [float64(d / Second) + float64(d % Second) / 1e9]. *)
Definition Seconds (d : Z) : float :=
  PrimFloat.add (float64_of_int64 (Z.quot d Second))
                (PrimFloat.div (float64_of_int64 (Z.rem d Second)) 1e9%float).

(** [Time.Sub]: the difference of two clock readings, saturated to the
    range of a [Duration]. *)
Definition Sub (t u : Z) : Z :=
  Z.max GoInt.minInt64 (Z.min GoInt.maxInt64 (t - u)).

End GoTime.

(* ===================================================================== *)
(** ** The [sort] package, on a slice of durations *)
(* ===================================================================== *)

Module GoSort.

Fixpoint insert (x : Z) (l : list Z) : list Z :=
  match l with
  | [] => [x]
  | y :: l' => if x <? y then x :: l else y :: insert x l'
  end.

(** [sort.Slice(s, func(i, j int) bool { return s[i] < s[j] })]: the
    slice rearranged in ascending order.  The order on [int64] is
    total, so the outcome does not depend on the sorting algorithm
    (lemma [Slice_unique] below). *)
Fixpoint Slice (s : list Z) : list Z :=
  match s with
  | [] => []
  | x :: s' => insert x (Slice s')
  end.

End GoSort.

(** Slice indexing [s[i]] with an [int] index: out of range panics. *)
Definition index (s : list Z) (i : Z) : option Z :=
  if (0 <=? i) && (i <? Z.of_nat (length s)) then nth_error s (Z.to_nat i) else None.

(* ===================================================================== *)
(** ** Percentiles (utilities file, [calculatePercentile]) *)
(* ===================================================================== *)

(** The function sorts the slice of its caller in place; the value it
    returns is what is modelled here. *)
Definition calculatePercentile (latencies : list Z) (percentile : Z) : option Z :=
  if (Z.of_nat (length latencies) =? 0) then Some 0
  else
    let latencies := GoSort.Slice latencies in
    let index0 := GoInt.div (GoInt.mul percentile (Z.of_nat (length latencies))) 100 in
    let index1 := if index0 >=? Z.of_nat (length latencies)
                  then Z.of_nat (length latencies) - 1 else index0 in
    index latencies index1.

(* ===================================================================== *)
(** ** The aggregate ([loadtest.go], [TestResults] and [NewLoadTest]) *)
(* ===================================================================== *)

Record TestOptions : Type := mkTestOptions {
  URL : string;
  Duration : string;
  Connections : Z;
  Message : string;
  Loop : Z
}.

Record TestResults : Type := mkTestResults {
  TotalRequests : Z;
  SuccessfulReqs : Z;
  FailedReqs : Z;
  TotalLatency : Z;
  Latencies : list Z;
  PeakResponseTime : Z;
  StartTime : Z;
  EndTime : Z;
  BytesSent : Z;
  BytesReceived : Z;
  ErrorCounts : gmap string Z;
  StatusCodeCount : gmap Z Z;
  ErrorCategories : gmap string ErrorCategoryInfo
}.

(** The [results] field built by [NewLoadTest]: every field not named in
    the composite literal has its zero value. *)
Definition NewLoadTest_results : TestResults :=
  {| TotalRequests := 0; SuccessfulReqs := 0; FailedReqs := 0;
     TotalLatency := 0; Latencies := []; PeakResponseTime := 0;
     StartTime := 0; EndTime := 0; BytesSent := 0; BytesReceived := 0;
     ErrorCounts := ∅; StatusCodeCount := ∅;
     ErrorCategories := initializeErrorCategories |}.

(** Field assignments [lt.results.F = v]. *)
Definition set_TotalRequests (v : Z) (r : TestResults) : TestResults :=
  mkTestResults v (SuccessfulReqs r) (FailedReqs r) (TotalLatency r) (Latencies r)
    (PeakResponseTime r) (StartTime r) (EndTime r) (BytesSent r) (BytesReceived r)
    (ErrorCounts r) (StatusCodeCount r) (ErrorCategories r).
Definition set_SuccessfulReqs (v : Z) (r : TestResults) : TestResults :=
  mkTestResults (TotalRequests r) v (FailedReqs r) (TotalLatency r) (Latencies r)
    (PeakResponseTime r) (StartTime r) (EndTime r) (BytesSent r) (BytesReceived r)
    (ErrorCounts r) (StatusCodeCount r) (ErrorCategories r).
Definition set_FailedReqs (v : Z) (r : TestResults) : TestResults :=
  mkTestResults (TotalRequests r) (SuccessfulReqs r) v (TotalLatency r) (Latencies r)
    (PeakResponseTime r) (StartTime r) (EndTime r) (BytesSent r) (BytesReceived r)
    (ErrorCounts r) (StatusCodeCount r) (ErrorCategories r).
Definition set_TotalLatency (v : Z) (r : TestResults) : TestResults :=
  mkTestResults (TotalRequests r) (SuccessfulReqs r) (FailedReqs r) v (Latencies r)
    (PeakResponseTime r) (StartTime r) (EndTime r) (BytesSent r) (BytesReceived r)
    (ErrorCounts r) (StatusCodeCount r) (ErrorCategories r).
Definition set_Latencies (v : list Z) (r : TestResults) : TestResults :=
  mkTestResults (TotalRequests r) (SuccessfulReqs r) (FailedReqs r) (TotalLatency r) v
    (PeakResponseTime r) (StartTime r) (EndTime r) (BytesSent r) (BytesReceived r)
    (ErrorCounts r) (StatusCodeCount r) (ErrorCategories r).
Definition set_PeakResponseTime (v : Z) (r : TestResults) : TestResults :=
  mkTestResults (TotalRequests r) (SuccessfulReqs r) (FailedReqs r) (TotalLatency r)
    (Latencies r) v (StartTime r) (EndTime r) (BytesSent r) (BytesReceived r)
    (ErrorCounts r) (StatusCodeCount r) (ErrorCategories r).
Definition set_StartTime (v : Z) (r : TestResults) : TestResults :=
  mkTestResults (TotalRequests r) (SuccessfulReqs r) (FailedReqs r) (TotalLatency r)
    (Latencies r) (PeakResponseTime r) v (EndTime r) (BytesSent r) (BytesReceived r)
    (ErrorCounts r) (StatusCodeCount r) (ErrorCategories r).
Definition set_EndTime (v : Z) (r : TestResults) : TestResults :=
  mkTestResults (TotalRequests r) (SuccessfulReqs r) (FailedReqs r) (TotalLatency r)
    (Latencies r) (PeakResponseTime r) (StartTime r) v (BytesSent r) (BytesReceived r)
    (ErrorCounts r) (StatusCodeCount r) (ErrorCategories r).
Definition set_BytesSent (v : Z) (r : TestResults) : TestResults :=
  mkTestResults (TotalRequests r) (SuccessfulReqs r) (FailedReqs r) (TotalLatency r)
    (Latencies r) (PeakResponseTime r) (StartTime r) (EndTime r) v (BytesReceived r)
    (ErrorCounts r) (StatusCodeCount r) (ErrorCategories r).
Definition set_BytesReceived (v : Z) (r : TestResults) : TestResults :=
  mkTestResults (TotalRequests r) (SuccessfulReqs r) (FailedReqs r) (TotalLatency r)
    (Latencies r) (PeakResponseTime r) (StartTime r) (EndTime r) (BytesSent r) v
    (ErrorCounts r) (StatusCodeCount r) (ErrorCategories r).
Definition set_ErrorCounts (v : gmap string Z) (r : TestResults) : TestResults :=
  mkTestResults (TotalRequests r) (SuccessfulReqs r) (FailedReqs r) (TotalLatency r)
    (Latencies r) (PeakResponseTime r) (StartTime r) (EndTime r) (BytesSent r)
    (BytesReceived r) v (StatusCodeCount r) (ErrorCategories r).
Definition set_ErrorCategories (v : gmap string ErrorCategoryInfo) (r : TestResults)
    : TestResults :=
  mkTestResults (TotalRequests r) (SuccessfulReqs r) (FailedReqs r) (TotalLatency r)
    (Latencies r) (PeakResponseTime r) (StartTime r) (EndTime r) (BytesSent r)
    (BytesReceived r) (ErrorCounts r) (StatusCodeCount r) v.

(* ===================================================================== *)
(** ** The final report ([printResults]) and the history entry ([addEntry]) *)
(* ===================================================================== *)

(** The values [printResults] computes and hands to [fmt.Printf]. *)
Record Report : Type := mkReport {
  rDuration : Z;
  rTotalRequests : Z;
  rSuccessful : Z;
  rSuccessRate : float;      (* printed with [%.1f%%] *)
  rFailed : Z;
  rFailedRate : float;
  rRequestsPerSec : float;
  rAvgLatency : Z;
  rP50Latency : Z;
  rPeakResponseTime : Z;
  rThroughput : float
}.

Definition printResults (r : TestResults) : Report :=
  let duration := GoTime.Sub (EndTime r) (StartTime r) in
  let totalRequests := TotalRequests r in
  let successfulReqs := SuccessfulReqs r in
  let failedReqs := FailedReqs r in
  let avgLatency :=
    if successfulReqs >? 0 then GoInt.div (TotalLatency r) successfulReqs else 0 in
  let p50Latency :=
    if (0 <? length (Latencies r))%nat
    then nth (length (Latencies r) / 2)%nat (Latencies r) 0
    else 0 in
  let rps := PrimFloat.div (GoTime.float64_of_int64 totalRequests) (GoTime.Seconds duration) in
  let throughput :=
    PrimFloat.div (GoTime.float64_of_int64 (GoInt.add (BytesSent r) (BytesReceived r)))
                  (GoTime.Seconds duration) in
  {| rDuration := duration;
     rTotalRequests := totalRequests;
     rSuccessful := successfulReqs;
     rSuccessRate :=
       PrimFloat.mul (PrimFloat.div (GoTime.float64_of_int64 successfulReqs)
                                    (GoTime.float64_of_int64 totalRequests)) 100%float;
     rFailed := failedReqs;
     rFailedRate :=
       PrimFloat.mul (PrimFloat.div (GoTime.float64_of_int64 failedReqs)
                                    (GoTime.float64_of_int64 totalRequests)) 100%float;
     rRequestsPerSec := rps;
     rAvgLatency := avgLatency;
     rP50Latency := p50Latency;
     rPeakResponseTime := PeakResponseTime r;
     rThroughput := throughput |}.

Record TestHistoryEntry : Type := mkTestHistoryEntry {
  ID : Z;
  Timestamp : Z;
  hURL : string;
  hDuration : string;
  ActualDuration : float;
  hConnections : Z;
  hMessage : string;
  LoopCount : Z;
  hTotalRequests : Z;
  hSuccessfulReqs : Z;
  hFailedReqs : Z;
  SuccessRate : float;
  AvgLatency : float;
  P50Latency : float;
  RequestsPerSec : float;
  Throughput : float;
  hBytesSent : Z;
  hBytesReceived : Z;
  hErrorCounts : gmap string Z
}.

(** The sample [addEntry] selects for its P50: it sorts a copy of the
    samples and takes [sortedLatencies[len(sortedLatencies)/2]]. *)
Definition addEntry_p50_sample (r : TestResults) : Z :=
  let sortedLatencies := GoSort.Slice (Latencies r) in
  nth (length sortedLatencies / 2)%nat sortedLatencies 0.

(** [addEntry], up to the write of the history file: the entries after
    the append. *)
Definition addEntry (Entries : list TestHistoryEntry) (opts : TestOptions)
    (r : TestResults) : list TestHistoryEntry :=
  let duration := GoTime.Sub (EndTime r) (StartTime r) in
  let totalRequests := TotalRequests r in
  let successfulReqs := SuccessfulReqs r in
  let failedReqs := FailedReqs r in
  let avgLatency :=
    if successfulReqs >? 0
    then PrimFloat.div (PrimFloat.div (GoTime.float64_of_int64 (TotalLatency r))
                                      (GoTime.float64_of_int64 successfulReqs)) 1e6%float
    else 0%float in
  let p50Latency :=
    if (0 <? length (Latencies r))%nat
    then PrimFloat.div (GoTime.float64_of_int64 (addEntry_p50_sample r)) 1e6%float
    else 0%float in
  let rps := PrimFloat.div (GoTime.float64_of_int64 totalRequests) (GoTime.Seconds duration) in
  let throughput :=
    PrimFloat.div (GoTime.float64_of_int64 (GoInt.add (BytesSent r) (BytesReceived r)))
                  (GoTime.Seconds duration) in
  let successRate :=
    PrimFloat.mul (PrimFloat.div (GoTime.float64_of_int64 successfulReqs)
                                 (GoTime.float64_of_int64 totalRequests)) 100%float in
  let newID :=
    match last Entries with
    | Some e => GoInt.add (ID e) 1
    | None => 1
    end in
  Entries ++
  [ {| ID := newID; Timestamp := StartTime r; hURL := URL opts;
       hDuration := Duration opts; ActualDuration := GoTime.Seconds duration;
       hConnections := Connections opts; hMessage := Message opts;
       LoopCount := Loop opts; hTotalRequests := totalRequests;
       hSuccessfulReqs := successfulReqs; hFailedReqs := failedReqs;
       SuccessRate := successRate; AvgLatency := avgLatency;
       P50Latency := p50Latency; RequestsPerSec := rps;
       Throughput := throughput; hBytesSent := BytesSent r;
       hBytesReceived := BytesReceived r; hErrorCounts := ErrorCounts r |} ].

(** The index the specification selects: [floor(p * n / 100)], clamped
    to [n - 1]. *)
Definition percentileIndex (p : Z) (n : nat) : nat :=
  Z.to_nat (Z.min (p * Z.of_nat n / 100) (Z.of_nat n - 1)).

(** The samples 3, 1, 2 ms, in recording order. *)
Definition unsorted_run : TestResults :=
  set_Latencies [3 * GoTime.Millisecond; 1 * GoTime.Millisecond; 2 * GoTime.Millisecond]
    (set_SuccessfulReqs 3 (set_TotalRequests 3 NewLoadTest_results)).

(* ===================================================================== *)
(** ** Stand-ins for the Go runtime, to run the model on concrete inputs *)
(* ===================================================================== *)

Definition digit (c : ascii) : option Z :=
  let n := nat_of_ascii c in
  if ((48 <=? n) && (n <=? 57))%nat then Some (Z.of_nat (n - 48)) else None.

Fixpoint leadingInt (s : string) (acc : Z) (seen : bool) : option (Z * string) :=
  match s with
  | String c s' =>
      match digit c with
      | Some d => leadingInt s' (10 * acc + d) true
      | None => if seen then Some (acc, s) else None
      end
  | EmptyString => if seen then Some (acc, s) else None
  end.

(** The fragment of [time.ParseDuration] for whole seconds, [<digits>s]:
    every other string is rejected. *)
Definition parseSeconds (s : string) : Z + string :=
  match leadingInt s 0 false with
  | Some (n, unit) =>
      if String.eqb unit "s" && (n * GoTime.Second <=? GoInt.maxInt64)
      then inl (n * GoTime.Second)
      else inr ("time: invalid duration " ++ s)
  | None => inr ("time: invalid duration " ++ s)
  end.

(** A rune map that leaves every string as it is. *)
Definition keepRunes (s : string) : string := s.

(* ===================================================================== *)
(** ** The engine: classifier, aggregator, workers and orchestrator *)
(* ===================================================================== *)

Section Engine.

(** [strings.Map(unicode.ToLower, _)] of the Go runtime. *)
Variable unicodeMap : string -> string.

Definition categorizeError (err : error) : string :=
  match err with
  | None => ErrorCategoryUnknown
  | Some msg =>
    let errMsg := ToLower unicodeMap msg in
    (* Timeout errors *)
    if Contains errMsg "timeout" ||
       Contains errMsg "deadline exceeded" ||
       Contains errMsg "handshake timeout"
    then ErrorCategoryTimeout
    (* Connection refused errors *)
    else if Contains errMsg "connection refused" ||
       Contains errMsg "connect: connection refused" ||
       Contains errMsg "connectex: no connection could be made" ||
       Contains errMsg "no connection could be made because the target machine actively refused"
    then ErrorCategoryConnectionRefused
    (* Network errors *)
    else if Contains errMsg "no such host" ||
       Contains errMsg "network unreachable" ||
       Contains errMsg "no route to host" ||
       Contains errMsg "dns"
    then ErrorCategoryNetworkError
    (* Authentication/Authorization errors *)
    else if Contains errMsg "unauthorized" ||
       Contains errMsg "forbidden" ||
       Contains errMsg "authentication" ||
       Contains errMsg "401" ||
       Contains errMsg "403"
    then ErrorCategoryAuthFailure
    (* Protocol errors *)
    else if Contains errMsg "bad handshake" ||
       Contains errMsg "handshake error" ||
       Contains errMsg "handshake" ||
       Contains errMsg "websocket" ||
       Contains errMsg "upgrade" ||
       Contains errMsg "protocol"
    then ErrorCategoryProtocolError
    (* Resource exhaustion *)
    else if Contains errMsg "too many" ||
       Contains errMsg "resource temporarily unavailable" ||
       Contains errMsg "out of memory" ||
       Contains errMsg "no buffer space available"
    then ErrorCategoryResourceExhaustion
    (* Unexpected response errors *)
    else if Contains errMsg "unexpected" ||
       Contains errMsg "invalid response" ||
       Contains errMsg "bad response"
    then ErrorCategoryUnexpectedResponse
    (* Invalid data errors *)
    else if Contains errMsg "invalid" ||
       Contains errMsg "malformed" ||
       Contains errMsg "parse"
    then ErrorCategoryInvalidData
    else ErrorCategoryUnknown
  end.

(** The classifier as the specification words it: rules tried in a fixed
    priority order, the first rule with a pattern occurring in the
    lowered message wins, and [unknown] when none does.  The patterns
    of each rule are those of the source. *)
Definition priorityRules : list (string * list string) :=
  [ (ErrorCategoryTimeout,
      ["timeout"; "deadline exceeded"; "handshake timeout"]);
    (ErrorCategoryConnectionRefused,
      ["connection refused"; "connect: connection refused";
       "connectex: no connection could be made";
       "no connection could be made because the target machine actively refused"]);
    (ErrorCategoryNetworkError,
      ["no such host"; "network unreachable"; "no route to host"; "dns"]);
    (ErrorCategoryAuthFailure,
      ["unauthorized"; "forbidden"; "authentication"; "401"; "403"]);
    (ErrorCategoryProtocolError,
      ["bad handshake"; "handshake error"; "handshake"; "websocket"; "upgrade";
       "protocol"]);
    (ErrorCategoryResourceExhaustion,
      ["too many"; "resource temporarily unavailable"; "out of memory";
       "no buffer space available"]);
    (ErrorCategoryUnexpectedResponse,
      ["unexpected"; "invalid response"; "bad response"]);
    (ErrorCategoryInvalidData,
      ["invalid"; "malformed"; "parse"]) ].

Fixpoint firstMatch (occurs : string -> bool) (rules : list (string * list string))
    : string :=
  match rules with
  | [] => ErrorCategoryUnknown
  | (category, patterns) :: rules' =>
      if existsb occurs patterns then category else firstMatch occurs rules'
  end.

(** The nine categories, in the priority order of the specification. *)
Definition nineCategories : list string :=
  [ ErrorCategoryTimeout; ErrorCategoryConnectionRefused; ErrorCategoryNetworkError;
    ErrorCategoryAuthFailure; ErrorCategoryProtocolError;
    ErrorCategoryResourceExhaustion; ErrorCategoryUnexpectedResponse;
    ErrorCategoryInvalidData; ErrorCategoryUnknown ].

(* --------------------------------------------------------------------- *)
(** *** Critical sections of the aggregate *)
(* --------------------------------------------------------------------- *)

(** One statement executed while [results.mu] is held; a statement that
    panics yields [None]. *)
Definition Stmt : Type := TestResults -> option TestResults.

Fixpoint runBody (body : list Stmt) (r : TestResults) : option TestResults :=
  match body with
  | [] => Some r
  | st :: body' =>
      match st r with
      | Some r' => runBody body' r'
      | None => None
      end
  end.

(** [sendMessage], lines 372-382: between [mu.Lock()] and [mu.Unlock()]. *)
Definition sendMessage_body (latency : Z) (message : string) : list Stmt :=
  [ (* lt.results.TotalRequests++ *)
    (fun r => Some (set_TotalRequests (GoInt.incr (TotalRequests r)) r));
    (* lt.results.SuccessfulReqs++ *)
    (fun r => Some (set_SuccessfulReqs (GoInt.incr (SuccessfulReqs r)) r));
    (* lt.results.TotalLatency += latency *)
    (fun r => Some (set_TotalLatency (GoInt.add (TotalLatency r) latency) r));
    (* lt.results.Latencies = append(lt.results.Latencies, latency) *)
    (fun r => Some (set_Latencies (Latencies r ++ [latency]) r));
    (* if latency > lt.results.PeakResponseTime { ... = latency } *)
    (fun r => Some (if latency >? PeakResponseTime r
                    then set_PeakResponseTime latency r else r));
    (* lt.results.BytesSent += int64(len(lt.opts.Message)) *)
    (fun r => Some (set_BytesSent
                      (GoInt.add (BytesSent r) (Z.of_nat (String.length message))) r)) ].

(** [recordError], lines 390-405: between [mu.Lock()] and the deferred
    [mu.Unlock()].  [err.Error()] on a nil [err] panics. *)
Definition recordError_body (errorType : string) (err : error) : list Stmt :=
  [ (* lt.results.TotalRequests++ *)
    (fun r => Some (set_TotalRequests (GoInt.incr (TotalRequests r)) r));
    (* lt.results.FailedReqs++ *)
    (fun r => Some (set_FailedReqs (GoInt.incr (FailedReqs r)) r));
    (* lt.results.ErrorCounts[errorType]++ *)
    (fun r => Some (set_ErrorCounts
                      (<[errorType := GoInt.incr (default 0 (ErrorCounts r !! errorType))]>
                         (ErrorCounts r)) r));
    (* category := categorizeError(err); if categoryInfo, exists := ...; exists { ... } *)
    (fun r =>
       let category := categorizeError err in
       match ErrorCategories r !! category with
       | Some categoryInfo =>
           let count := GoInt.incr (Count categoryInfo) in
           if (length (Examples categoryInfo) <? 3)%nat then
             match err with
             | Some msg =>
                 Some (set_ErrorCategories
                         (<[category := mkErrorCategoryInfo count (Description categoryInfo)
                                          (Examples categoryInfo ++ [msg])]>
                            (ErrorCategories r)) r)
             | None => None
             end
           else
             Some (set_ErrorCategories
                     (<[category := mkErrorCategoryInfo count (Description categoryInfo)
                                      (Examples categoryInfo)]>
                        (ErrorCategories r)) r)
       | None => Some r
       end) ].

(** [OnMessage], lines 229-231. *)
Definition OnMessage_body (dataLen : Z) : list Stmt :=
  [ (fun r => Some (set_BytesReceived (GoInt.add (BytesReceived r) dataLen) r)) ].

(** The operations as seen by a caller: the whole critical section. *)
Definition recordError (errorType : string) (err : error) (r : TestResults)
    : option TestResults :=
  runBody (recordError_body errorType err) r.

Definition OnMessage (dataLen : Z) (r : TestResults) : option TestResults :=
  runBody (OnMessage_body dataLen) r.

(** [fmt.Sprintf] with the verb [%d]. *)
Definition itoa (z : Z) : string := NilZero.string_of_int (Z.to_int z).

(** [sendMessage], given what [client.WriteMessage] returned and the
    elapsed time measured by [time.Since(startTime)]. *)
Definition sendMessage (message : string) (connID msgID : Z) (err : error)
    (latency : Z) (r : TestResults) : option TestResults :=
  match err with
  | Some _ => recordError ("send_failed_" ++ itoa connID ++ "_" ++ itoa msgID) err r
  | None => runBody (sendMessage_body latency message) r
  end.

(* --------------------------------------------------------------------- *)
(** *** The mutex: which states of the aggregate can be observed *)
(* --------------------------------------------------------------------- *)

(** The three writers of the aggregate. *)
Inductive CriticalOp : Type :=
| OpSendOK (latency : Z) (message : string)
| OpRecordError (errorType : string) (err : error)
| OpOnMessage (dataLen : Z).

Definition body_of (op : CriticalOp) : list Stmt :=
  match op with
  | OpSendOK latency message => sendMessage_body latency message
  | OpRecordError errorType err => recordError_body errorType err
  | OpOnMessage dataLen => OnMessage_body dataLen
  end.

Definition is_success (op : CriticalOp) : bool :=
  match op with OpSendOK _ _ => true | _ => false end.
Definition is_failure (op : CriticalOp) : bool :=
  match op with OpRecordError _ _ => true | _ => false end.
Definition is_recording (op : CriticalOp) : bool := is_success op || is_failure op.

(** The goroutine inside the critical section: who, doing what, and the
    statements it still has to execute before it unlocks. *)
Record Holder : Type := mkHolder {
  h_goroutine : nat;
  h_op : CriticalOp;
  h_rest : list Stmt
}.

(** [shared] is the aggregate as stored in memory; [holder] is the state
    of [results.mu]; [completed] logs the operations whose critical
    section has been left, oldest first. *)
Record MuState : Type := mkMuState {
  shared : TestResults;
  holder : option Holder;
  completed : list CriticalOp
}.

Inductive MuAction : Type :=
| MuLock (g : nat) (op : CriticalOp)   (* g enters: mu.Lock() returns *)
| MuExec (g : nat)                     (* g executes its next statement *)
| MuUnlock (g : nat).                  (* g leaves: mu.Unlock() *)

(** One step of the interleaving; [None] when the action is not enabled
    (the lock is taken, or [g] is not the holder) or the statement
    panics. *)
Definition mu_step (a : MuAction) (s : MuState) : option MuState :=
  match a, holder s with
  | MuLock g op, None =>
      Some (mkMuState (shared s) (Some (mkHolder g op (body_of op))) (completed s))
  | MuExec g, Some h =>
      if (g =? h_goroutine h)%nat then
        match h_rest h with
        | st :: rest =>
            match st (shared s) with
            | Some r' => Some (mkMuState r' (Some (mkHolder g (h_op h) rest)) (completed s))
            | None => None
            end
        | [] => None
        end
      else None
  | MuUnlock g, Some h =>
      if (g =? h_goroutine h)%nat then
        match h_rest h with
        | [] => Some (mkMuState (shared s) None (completed s ++ [h_op h]))
        | _ :: _ => None
        end
      else None
  | _, _ => None
  end.

Fixpoint mu_run (acts : list MuAction) (s : MuState) : option MuState :=
  match acts with
  | [] => Some s
  | a :: acts' =>
      match mu_step a s with
      | Some s' => mu_run acts' s'
      | None => None
      end
  end.

Definition mu_init : MuState := mkMuState NewLoadTest_results None [].

(** A reader ([mu.RLock()]) gets in only while no writer holds the lock. *)
Definition observable (s : MuState) : Prop := holder s = None.

Definition count_ops (p : CriticalOp -> bool) (ops : list CriticalOp) : Z :=
  Z.of_nat (length (filter (fun op => p op = true) ops)).

(** A sequence of [recordError] calls, each with a non-nil error given by
    its message (both call sites pass the [err] they have just found to
    be non-nil). *)
Fixpoint recordErrors (calls : list (string * string)) (r : TestResults)
    : option TestResults :=
  match calls with
  | [] => Some r
  | (errorType, msg) :: calls' =>
      match recordError errorType (Some msg) r with
      | Some r' => recordErrors calls' r'
      | None => None
      end
  end.

(** The messages of the calls that the classifier puts in [category],
    in call order. *)
Definition messages_in (category : string) (calls : list (string * string))
    : list string :=
  map snd (filter (fun c => categorizeError (Some (snd c)) = category) calls).

(* --------------------------------------------------------------------- *)
(** *** Workers ([runConnection]) under a scheduler *)
(* --------------------------------------------------------------------- *)

(** Where the goroutine of one connection stands in [runConnection]. *)
Inductive WorkerPC : Type :=
| PCAcquire                (* at [pool <- struct{}{}] *)
| PCNewClient              (* slot held; in [gws.NewClient] *)
| PCLoop (i : Z)           (* at the head of the [for], counter [i] *)
| PCSend (i : Z)           (* in [sendMessage(client, connID, i)] *)
| PCWriteClose             (* past the loop; at [client.WriteClose] *)
| PCRelease                (* returning; the deferred [<-pool] *)
| PCReturned.

Inductive Event : Type :=
| EvAcquire (connID : Z)
| EvNewClient (connID : Z) (err : error)
| EvCtxDone (connID i : Z)            (* the [select] took [<-lt.ctx.Done()] *)
| EvWriteMessage (connID i : Z)       (* a send begins *)
| EvSendReturned (connID i : Z) (err : error)
| EvWriteClose (connID code : Z) (reason : string)
| EvRelease (connID : Z)
| EvCancel.

(** What the library call made by a step returned: its error, and for a
    send the elapsed time read by [time.Since]. *)
Record IOResult : Type := mkIOResult {
  io_err : error;
  io_latency : Z
}.

(** The state shared by the goroutines of one run. *)
Record Sys : Type := mkSys {
  results : TestResults;
  ctxDone : bool;            (* [lt.ctx] has been cancelled *)
  pool : Z;                  (* [len(connectionPool)] *)
  workers : list WorkerPC;   (* the goroutine of connection [i] at index [i] *)
  trace : list Event
}.

Inductive Action : Type :=
| ACancel                              (* [lt.cancel()] *)
| AStep (connID : nat) (io : IOResult) (* connection [connID] moves on *)
| AOnMessage (dataLen : Z).            (* the handler [OnMessage] runs *)

(** The outcome of one move of [runConnection]: the new position, the
    aggregate, the pool and the events of the move. *)
Definition runConnection_step (opts : TestOptions) (connID : Z) (io : IOResult)
    (done : bool) (pc : WorkerPC) (r : TestResults) (tokens : Z)
    : option (WorkerPC * TestResults * Z * list Event) :=
  match pc with
  | PCAcquire =>
      (* [pool <- struct{}{}] blocks while the channel is full *)
      if tokens <? Connections opts
      then Some (PCNewClient, r, tokens + 1, [EvAcquire connID])
      else Some (PCAcquire, r, tokens, [])
  | PCNewClient =>
      match io_err io with
      | Some _ =>
          match recordError ("client_creation_failed_" ++ itoa connID) (io_err io) r with
          | Some r' => Some (PCRelease, r', tokens, [EvNewClient connID (io_err io)])
          | None => None
          end
      | None => Some (PCLoop 0, r, tokens, [EvNewClient connID None])
      end
  | PCLoop i =>
      if i <? Loop opts then
        if done
        then Some (PCRelease, r, tokens, [EvCtxDone connID i])
        else Some (PCSend i, r, tokens, [EvWriteMessage connID i])
      else Some (PCWriteClose, r, tokens, [])
  | PCSend i =>
      match sendMessage (Message opts) connID i (io_err io) (io_latency io) r with
      | Some r' => Some (PCLoop (GoInt.incr i), r', tokens, [EvSendReturned connID i (io_err io)])
      | None => None
      end
  | PCWriteClose =>
      Some (PCRelease, r, tokens, [EvWriteClose connID 1000 "test completed"])
  | PCRelease =>
      Some (PCReturned, r, tokens - 1, [EvRelease connID])
  | PCReturned => Some (PCReturned, r, tokens, [])
  end.

(** One action of the schedule; [None] is a panic. *)
Definition step (opts : TestOptions) (a : Action) (s : Sys) : option Sys :=
  match a with
  | ACancel => Some (mkSys (results s) true (pool s) (workers s) (trace s ++ [EvCancel]))
  | AStep connID io =>
      match workers s !! connID with
      | Some pc =>
          match runConnection_step opts (Z.of_nat connID) io (ctxDone s) pc
                  (results s) (pool s) with
          | Some (pc', r', tokens', evs) =>
              Some (mkSys r' (ctxDone s) tokens' (<[connID := pc']> (workers s))
                      (trace s ++ evs))
          | None => None
          end
      | None => Some s
      end
  | AOnMessage dataLen =>
      match OnMessage dataLen (results s) with
      | Some r' => Some (mkSys r' (ctxDone s) (pool s) (workers s) (trace s))
      | None => None
      end
  end.

Fixpoint exec (opts : TestOptions) (acts : list Action) (s : Sys) : option Sys :=
  match acts with
  | [] => Some s
  | a :: acts' =>
      match step opts a s with
      | Some s' => exec opts acts' s'
      | None => None
      end
  end.

Definition is_WriteMessage (e : Event) : bool :=
  match e with EvWriteMessage _ _ => true | _ => false end.

Definition is_returned (pc : WorkerPC) : bool :=
  match pc with PCReturned => true | _ => false end.

(** The goroutine holds a token of the pool. *)
Definition holds_slot (pc : WorkerPC) : bool :=
  match pc with PCAcquire | PCReturned => false | _ => true end.

(* --------------------------------------------------------------------- *)
(** *** The orchestrator ([Run]) *)
(* --------------------------------------------------------------------- *)

(** [time.ParseDuration] of the Go runtime: the duration in nanoseconds,
    or the text of the error. *)
Variable ParseDuration : string -> Z + string.

Record LoadTest : Type := mkLoadTest {
  opts : TestOptions;
  lt_results : TestResults;
  lt_ctxDone : bool;
  verbose : bool
}.

(** [NewLoadTest]: an empty aggregate, a context not yet cancelled. *)
Definition NewLoadTest (o : TestOptions) : LoadTest :=
  mkLoadTest o NewLoadTest_results false false.

Inductive Launch : Type :=
| GoCollectMetrics
| GoRunConnection (connID : nat).

Inductive RunReturn : Type :=
| ReturnError (err : string)  (* [return fmt.Errorf(...)] *)
| ReturnNil                   (* [return nil] *)
| RunPanics                   (* a panic unwinds [Run] *)
| RunWaits.                   (* still in the [select] or in [wg.Wait()] *)

Record RunResult : Type := mkRunResult {
  ret : RunReturn;
  after : LoadTest;
  launched : list Launch;
  events : list Event;
  report : option Report
}.

(** [Run] under the clock readings [now0], [now1] and the schedule
    [sched] of everything that happens between the launch of the
    goroutines and the return of [wg.Wait()].  The parsed duration sets
    the range of the progress bar and the timer whose expiry is the
    [ACancel] of the schedule. *)
Definition Run (lt : LoadTest) (now0 now1 : Z) (sched : list Action) : RunResult :=
  match ParseDuration (Duration (opts lt)) with
  | inr err =>
      mkRunResult (ReturnError ("invalid duration format: " ++ err)) lt [] [] None
  | inl duration =>
      (* lt.results.StartTime = time.Now() *)
      let r0 := set_StartTime now0 (lt_results lt) in
      (* make(chan struct{}, n) panics on a negative n *)
      if Connections (opts lt) <? 0 then
        mkRunResult RunPanics (mkLoadTest (opts lt) r0 (lt_ctxDone lt) (verbose lt))
          [GoCollectMetrics] [] None
      else
        let n := Z.to_nat (Connections (opts lt)) in
        let go := GoCollectMetrics :: map GoRunConnection (seq 0 n) in
        match exec (opts lt) sched (mkSys r0 (lt_ctxDone lt) 0 (repeat PCAcquire n) []) with
        | None =>
            mkRunResult RunPanics (mkLoadTest (opts lt) r0 (lt_ctxDone lt) (verbose lt))
              go [] None
        | Some s =>
            if ctxDone s && forallb is_returned (workers s) then
              (* lt.results.EndTime = time.Now(); lt.printResults() *)
              let r1 := set_EndTime now1 (results s) in
              mkRunResult ReturnNil (mkLoadTest (opts lt) r1 true (verbose lt))
                go (trace s) (Some (printResults r1))
            else
              mkRunResult RunWaits
                (mkLoadTest (opts lt) (results s) (ctxDone s) (verbose lt))
                go (trace s) None
        end
  end.

(** Every goroutine of [sched]'s run gets [fuel] moves, after the
    cancellation: a schedule under which every worker returns. *)
Definition drain (n fuel : nat) (io : IOResult) : list Action :=
  ACancel :: flat_map (fun connID => repeat (AStep connID io) fuel) (seq 0 n).

(* --------------------------------------------------------------------- *)
(** *** Invariants and concrete runs used by the properties *)
(* --------------------------------------------------------------------- *)

(** The counters of [r] are those of [r0] advanced by the operations
    [ops], in 64-bit arithmetic. *)
Definition Counters (r0 : TestResults) (ops : list CriticalOp) (r : TestResults) : Prop :=
  TotalRequests r = GoInt.wrap64 (TotalRequests r0 + count_ops is_recording ops)
  /\ SuccessfulReqs r = GoInt.wrap64 (SuccessfulReqs r0 + count_ops is_success ops)
  /\ FailedReqs r = GoInt.wrap64 (FailedReqs r0 + count_ops is_failure ops).

(** The invariant of the interleaving: with the lock free the counters
    are those of the completed operations; with the lock held they will
    be once the holder has run its remaining statements. *)
Definition MuInv (r0 : TestResults) (s : MuState) : Prop :=
  match holder s with
  | None => Counters r0 (completed s) (shared s)
  | Some h =>
      forall r', runBody (h_rest h) (shared s) = Some r' ->
                 Counters r0 (completed s ++ [h_op h]) r'
  end.

(** Every category of the map holds the first three messages of the
    calls made so far that belong to it, and the nine categories are
    present. *)
Definition ExamplesInv (done : list (string * string))
    (cats : gmap string ErrorCategoryInfo) : Prop :=
  (forall c, In c nineCategories -> is_Some (cats !! c))
  /\ (forall c info, cats !! c = Some info ->
        Examples info = take 3 (messages_in c done)).

Definition b2z (b : bool) : Z := if b then 1 else 0.

(** The number of goroutines holding a token. *)
Fixpoint slots (ws : list WorkerPC) : Z :=
  match ws with
  | [] => 0
  | pc :: ws' => b2z (holds_slot pc) + slots ws'
  end.

(** The channel holds one token per goroutine between its acquire and
    its release, and there are no more goroutines than tokens. *)
Definition PoolInv (o : TestOptions) (s : Sys) : Prop :=
  pool s = slots (workers s) /\ Z.of_nat (length (workers s)) <= Connections o.

(** The moves a goroutine has left once the context is cancelled. *)
Definition rank (pc : WorkerPC) : nat :=
  match pc with
  | PCAcquire => 5
  | PCNewClient => 4
  | PCSend _ => 4
  | PCLoop _ => 3
  | PCWriteClose => 2
  | PCRelease => 1
  | PCReturned => 0
  end.

Definition io_ok (latency : Z) : IOResult := mkIOResult None latency.

Definition io_fail (msg : string) : IOResult := mkIOResult (Some msg) 0.

(** One connection, three repeats. *)
Definition one_connection : TestOptions :=
  mkTestOptions "ws://localhost:8080/ws" "10s" 1 "Hello, WebSocket!" 3.

(** The connection opens, sends once, and the timer fires before its
    second iteration. *)
Definition cancelled_schedule : list Action :=
  [ AStep 0 (io_ok 0); AStep 0 (io_ok 0); AStep 0 (io_ok 0); AStep 0 (io_ok 5);
    ACancel; AStep 0 (io_ok 0); AStep 0 (io_ok 0) ].

(** The connection runs its three repeats before the timer fires. *)
Definition completed_schedule : list Action :=
  [ AStep 0 (io_ok 0); AStep 0 (io_ok 0);
    AStep 0 (io_ok 0); AStep 0 (io_ok 5);
    AStep 0 (io_ok 0); AStep 0 (io_ok 6);
    AStep 0 (io_ok 0); AStep 0 (io_ok 7);
    AStep 0 (io_ok 0); AStep 0 (io_ok 0); AStep 0 (io_ok 0); ACancel ].

(** Two goroutines, a success and a failure, one after the other under
    the lock. *)
Definition two_recordings : list MuAction :=
  [ MuLock 0 (OpSendOK 5 "hi");
    MuExec 0; MuExec 0; MuExec 0; MuExec 0; MuExec 0; MuExec 0; MuUnlock 0;
    MuLock 1 (OpRecordError "send_failed_1_0" (Some "write tcp: i/o timeout"));
    MuExec 1; MuExec 1; MuExec 1; MuExec 1; MuUnlock 1 ].

(** Four timeouts and one refusal: the fourth timeout is not kept. *)
Definition five_failures : list (string * string) :=
  [ ("send_failed_0_0", "read tcp: i/o timeout");
    ("send_failed_0_1", "context deadline exceeded");
    ("client_creation_failed_1", "dial tcp 127.0.0.1:8080: connect: connection refused");
    ("send_failed_0_2", "handshake timeout");
    ("send_failed_0_3", "write tcp: i/o timeout") ].

(** Two connections; the first is inside its first send when the timer
    fires, the second has not yet reached its loop. *)
Definition two_connections : TestOptions :=
  mkTestOptions "ws://localhost:8080/ws" "10s" 2 "Hello, WebSocket!" 2.

Definition at_cancellation : Sys :=
  mkSys NewLoadTest_results true 2 [PCSend 0; PCNewClient]
    [EvAcquire 0; EvNewClient 0 None; EvWriteMessage 0 0; EvAcquire 1; EvCancel].

Definition after_cancellation : list Action :=
  [ AStep 1 (io_ok 0); AStep 0 (io_ok 5); AStep 1 (io_ok 0); AStep 0 (io_ok 0);
    AStep 0 (io_ok 0); AStep 1 (io_ok 0) ].

(* --------------------------------------------------------------------- *)
(** *** Whole operations on the aggregate, and what they add up to *)
(* --------------------------------------------------------------------- *)

(** One writer's critical section run as a whole, and a sequence of them. *)
Definition apply_op (op : CriticalOp) (r : TestResults) : option TestResults :=
  runBody (body_of op) r.

Fixpoint apply_ops (ops : list CriticalOp) (r : TestResults) : option TestResults :=
  match ops with
  | [] => Some r
  | op :: ops' =>
      match apply_op op r with
      | Some r' => apply_ops ops' r'
      | None => None
      end
  end.

Definition sum_Z (l : list Z) : Z := fold_right Z.add 0 l.

(** The elapsed times of the successful sends, in order. *)
Fixpoint latencies_of (ops : list CriticalOp) : list Z :=
  match ops with
  | [] => []
  | OpSendOK latency _ :: ops' => latency :: latencies_of ops'
  | _ :: ops' => latencies_of ops'
  end.

(** The bytes of the messages sent successfully. *)
Fixpoint sent_of (ops : list CriticalOp) : Z :=
  match ops with
  | [] => 0
  | OpSendOK _ message :: ops' => Z.of_nat (String.length message) + sent_of ops'
  | _ :: ops' => sent_of ops'
  end.

(** The bytes handed to [OnMessage]. *)
Fixpoint received_of (ops : list CriticalOp) : Z :=
  match ops with
  | [] => 0
  | OpOnMessage dataLen :: ops' => dataLen + received_of ops'
  | _ :: ops' => received_of ops'
  end.

(** The running maximum kept in [PeakResponseTime]. *)
Definition peak_of (peak0 : Z) (latencies : list Z) : Z :=
  fold_left Z.max latencies peak0.

(** The failures recorded under the signature [errorType]. *)
Fixpoint failures_with (errorType : string) (ops : list CriticalOp) : Z :=
  match ops with
  | [] => 0
  | OpRecordError errorType' _ :: ops' =>
      (if String.eqb errorType' errorType then 1 else 0) + failures_with errorType ops'
  | _ :: ops' => failures_with errorType ops'
  end.

(** The failures the classifier puts in [category]. *)
Fixpoint failures_in (category : string) (ops : list CriticalOp) : Z :=
  match ops with
  | [] => 0
  | OpRecordError _ err :: ops' =>
      (if String.eqb (categorizeError err) category then 1 else 0)
      + failures_in category ops'
  | _ :: ops' => failures_in category ops'
  end.

(** The operation adds no failure to any category. *)
Definition failures_in_same (op : CriticalOp) : Prop :=
  forall c, failures_in c [op] = 0.

(** [info.Count] of a category, 0 when the map has no such key. *)
Definition category_count (r : TestResults) (category : string) : Z :=
  match ErrorCategories r !! category with
  | Some info => Count info
  | None => 0
  end.

(** An aggregate as [NewLoadTest] builds it; the clock readings are free. *)
Definition Fresh (r : TestResults) : Prop :=
  TotalRequests r = 0 /\ SuccessfulReqs r = 0 /\ FailedReqs r = 0
  /\ TotalLatency r = 0 /\ Latencies r = [] /\ PeakResponseTime r = 0
  /\ BytesSent r = 0 /\ BytesReceived r = 0
  /\ ErrorCounts r = ∅ /\ ErrorCategories r = initializeErrorCategories.

(** The categories of the map, their counts and their descriptions. *)
Definition CategoriesInv (ops : list CriticalOp) (cats : gmap string ErrorCategoryInfo)
    : Prop :=
  (forall c, In c nineCategories ->
     exists info info0,
       cats !! c = Some info /\ initializeErrorCategories !! c = Some info0
       /\ Count info = GoInt.wrap64 (failures_in c ops)
       /\ Description info = Description info0)
  /\ (forall c, ~ In c nineCategories -> cats !! c = None).

(** Two sends, a failure and a message received. *)
Definition four_operations : list CriticalOp :=
  [ OpSendOK 5 "hi";
    OpRecordError "send_failed_1_0" (Some "write tcp: i/o timeout");
    OpOnMessage 7;
    OpSendOK 3 "hello" ].

(** The state of the mutex machine agrees with the completed operations
    applied one whole critical section at a time. *)
Definition Linearized (r0 : TestResults) (s : MuState) : Prop :=
  match holder s with
  | None => apply_ops (completed s) r0 = Some (shared s)
  | Some h =>
      exists r1, apply_ops (completed s) r0 = Some r1
                 /\ runBody (h_rest h) (shared s) = apply_op (h_op h) r1
  end.

(* --------------------------------------------------------------------- *)
(** *** Counting in the trace of a run *)
(* --------------------------------------------------------------------- *)

(** The state in which [Run] starts the goroutines. *)
Definition startSys (o : TestOptions) (r : TestResults) (done : bool) : Sys :=
  mkSys r done 0 (repeat PCAcquire (Z.to_nat (Connections o))) [].

Definition count_events (p : Event -> bool) (tr : list Event) : Z :=
  Z.of_nat (length (List.filter p tr)).

Definition is_send_ok (e : Event) : bool :=
  match e with EvSendReturned _ _ None => true | _ => false end.

Definition is_failed_attempt (e : Event) : bool :=
  match e with
  | EvSendReturned _ _ (Some _) => true
  | EvNewClient _ (Some _) => true
  | _ => false
  end.

Definition is_send_of (connID : Z) (e : Event) : bool :=
  match e with EvWriteMessage c _ => c =? connID | _ => false end.

Definition is_open_of (connID : Z) (e : Event) : bool :=
  match e with EvNewClient c _ => c =? connID | _ => false end.

(** The counters of the aggregate are the numbers of the trace. *)
Definition TraceCounters (s : Sys) : Prop :=
  SuccessfulReqs (results s) = GoInt.wrap64 (count_events is_send_ok (trace s))
  /\ FailedReqs (results s) = GoInt.wrap64 (count_events is_failed_attempt (trace s))
  /\ TotalRequests (results s)
     = GoInt.wrap64 (count_events is_send_ok (trace s)
                     + count_events is_failed_attempt (trace s)).

(** Where a goroutine stands against what the trace holds of its
    connection: the sends it began and the opens it made. *)
Definition WorkerInv (o : TestOptions) (pc : WorkerPC) (sends opens : Z) : Prop :=
  match pc with
  | PCAcquire | PCNewClient => sends = 0 /\ opens = 0
  | PCLoop i => opens = 1 /\ sends = i /\ 0 <= i <= Z.max 0 (Loop o)
  | PCSend i => opens = 1 /\ sends = i + 1 /\ 0 <= i < Loop o
  | _ => opens = 1 /\ 0 <= sends <= Z.max 0 (Loop o)
  end.

Definition WorkersInv (o : TestOptions) (s : Sys) : Prop :=
  forall (c : nat) (pc : WorkerPC),
    workers s !! c = Some pc ->
    WorkerInv o pc (count_events (is_send_of (Z.of_nat c)) (trace s))
                   (count_events (is_open_of (Z.of_nat c)) (trace s)).

Definition is_return_of (connID : Z) (e : Event) : bool :=
  match e with EvSendReturned c _ _ => c =? connID | _ => false end.

Definition is_sending (pc : WorkerPC) : bool :=
  match pc with PCSend _ => true | _ => false end.

(** The sends a connection has begun are those that have returned, and
    the one in flight if it is inside a send. *)
Definition InFlightInv (s : Sys) : Prop :=
  forall (c : nat) (pc : WorkerPC),
    workers s !! c = Some pc ->
    count_events (is_send_of (Z.of_nat c)) (trace s)
    = count_events (is_return_of (Z.of_nat c)) (trace s) + b2z (is_sending pc).

(** A goroutine past its failed open. *)
Definition is_leaving (pc : WorkerPC) : bool :=
  match pc with PCRelease | PCReturned => true | _ => false end.

Fixpoint count_pc (p : WorkerPC -> bool) (ws : list WorkerPC) : Z :=
  match ws with
  | [] => 0
  | pc :: ws' => b2z (p pc) + count_pc p ws'
  end.

(** A run in which no open has succeeded: every goroutine is before its
    open or past its failure, and the aggregate has one failure per
    goroutine past it. *)
Definition AllFailInv (s : Sys) : Prop :=
  Forall (fun pc => match pc with
                    | PCAcquire | PCNewClient | PCRelease | PCReturned => True
                    | _ => False
                    end) (workers s)
  /\ FailedReqs (results s) = GoInt.wrap64 (count_pc is_leaving (workers s))
  /\ TotalRequests (results s) = GoInt.wrap64 (count_pc is_leaving (workers s))
  /\ SuccessfulReqs (results s) = 0
  /\ Latencies (results s) = []
  /\ Forall (fun e => is_WriteMessage e = false) (trace s).

(** Every library call of the schedule fails. *)
Definition all_fail (sched : list Action) : Prop :=
  Forall (fun a => match a with
                   | AStep _ io => io_err io <> None
                   | _ => True
                   end) sched.

(* --------------------------------------------------------------------- *)
(** *** The rule table without the patterns that never decide *)
(* --------------------------------------------------------------------- *)

(** [priorityRules] less the four patterns that contain another pattern
    of their own rule. *)
Definition decidingRules : list (string * list string) :=
  [ (ErrorCategoryTimeout,
      ["timeout"; "deadline exceeded"]);
    (ErrorCategoryConnectionRefused,
      ["connection refused";
       "connectex: no connection could be made";
       "no connection could be made because the target machine actively refused"]);
    (ErrorCategoryNetworkError,
      ["no such host"; "network unreachable"; "no route to host"; "dns"]);
    (ErrorCategoryAuthFailure,
      ["unauthorized"; "forbidden"; "authentication"; "401"; "403"]);
    (ErrorCategoryProtocolError,
      ["handshake"; "websocket"; "upgrade"; "protocol"]);
    (ErrorCategoryResourceExhaustion,
      ["too many"; "resource temporarily unavailable"; "out of memory";
       "no buffer space available"]);
    (ErrorCategoryUnexpectedResponse,
      ["unexpected"; "invalid response"; "bad response"]);
    (ErrorCategoryInvalidData,
      ["invalid"; "malformed"; "parse"]) ].

(* --------------------------------------------------------------------- *)
(** *** Display helpers (utilities file) and [printResults]' examples *)
(* --------------------------------------------------------------------- *)

Fixpoint takeBytes (n : nat) (s : string) : string :=
  match n, s with
  | S n', String c s' => String c (takeBytes n' s')
  | _, _ => EmptyString
  end.

(** The slice expression [s[:hi]] of a string: it panics unless
    [0 <= hi <= len(s)]. *)
Definition slice_to (s : string) (hi : Z) : option string :=
  if (0 <=? hi) && (hi <=? Z.of_nat (String.length s))
  then Some (takeBytes (Z.to_nat hi) s)
  else None.

Definition sanitizeMessage (message : string) (maxLength : Z) : option string :=
  if Z.of_nat (String.length message) <=? maxLength then Some message
  else
    match slice_to message maxLength with
    | Some head => Some (head ++ "...")%string
    | None => None
    end.

(** [printResults], lines 527-529: an example as it is printed. *)
Definition printResults_example (example : string) : option string :=
  if Z.of_nat (String.length example) >? 80 then
    match slice_to example 77 with
    | Some head => Some (head ++ "...")%string
    | None => None
    end
  else Some example.

(** What [formatBytes] hands to [fmt.Sprintf]: the count itself below
    1024, else the scaled value (printed with [%.1f]) and the letter of
    its unit. *)
Inductive FormattedBytes : Type :=
| PlainBytes (text : string)
| ScaledBytes (value : float) (unit : ascii).

(** The loop [for n := bytes / unit; n >= unit; n /= unit]; it gives up
    when [fuel] runs out. *)
Fixpoint formatBytes_loop (fuel : nat) (n div exp : Z) : option (Z * Z) :=
  if n >=? 1024 then
    match fuel with
    | O => None
    | S fuel' =>
        formatBytes_loop fuel' (GoInt.div n 1024) (GoInt.mul div 1024) (GoInt.incr exp)
    end
  else Some (div, exp).

(** Indexing the string ["KMGTPE"]; out of range panics. *)
Definition unit_letter (exp : Z) : option ascii :=
  if (0 <=? exp) && (exp <? 6) then String.get (Z.to_nat exp) "KMGTPE" else None.

Definition formatBytes (bytes : Z) : option FormattedBytes :=
  if bytes <? 1024 then Some (PlainBytes (itoa bytes ++ " B"))
  else
    match formatBytes_loop 64 (GoInt.div bytes 1024) 1024 0 with
    | Some (div, exp) =>
        match unit_letter exp with
        | Some c =>
            Some (ScaledBytes (PrimFloat.div (GoTime.float64_of_int64 bytes)
                                             (GoTime.float64_of_int64 div)) c)
        | None => None
        end
    | None => None
    end.

(* --------------------------------------------------------------------- *)
(** *** The history (history file) *)
(* --------------------------------------------------------------------- *)

Definition getLastNEntries (Entries : list TestHistoryEntry) (n : Z)
    : list TestHistoryEntry :=
  if (n <=? 0) || (Z.of_nat (length Entries) =? 0) then []
  else
    let start := GoInt.wrap64 (Z.of_nat (length Entries) - n) in
    let start := if start <? 0 then 0 else start in
    drop (Z.to_nat start) Entries.

(** The [switch metric] of [generateComparisonChart]. *)
Definition metricValue (metric : string) (entry : TestHistoryEntry) : float :=
  if String.eqb metric "success-rate" then SuccessRate entry
  else if String.eqb metric "requests-per-sec" then RequestsPerSec entry
  else if String.eqb metric "avg-latency" then AvgLatency entry
  else if String.eqb metric "throughput" then Throughput entry
  else SuccessRate entry.

(** The loop that finds [minVal] and [maxVal]. *)
Fixpoint minmax (values : list float) (minVal maxVal : float) : float * float :=
  match values with
  | [] => (minVal, maxVal)
  | v :: values' =>
      let minVal := if PrimFloat.ltb v minVal then v else minVal in
      let maxVal := if PrimFloat.ltb maxVal v then v else maxVal in
      minmax values' minVal maxVal
  end.

(** One line of the chart: its threshold and, per entry, whether the bar
    is drawn. *)
Definition chartRow (values : list float) (minVal maxVal : float) (row : Z)
    : float * list bool :=
  let threshold :=
    PrimFloat.add minVal
      (PrimFloat.div (PrimFloat.mul (PrimFloat.sub maxVal minVal)
                                    (GoTime.float64_of_int64 row))
                     (GoTime.float64_of_int64 10)) in
  (threshold, map (fun v => PrimFloat.leb threshold v) values).

Inductive ChartOutcome : Type :=
| ChartNoHistory       (* "No test history found." *)
| ChartNeedTwo         (* "Need at least 2 test results for comparison." *)
| ChartDrawn (labels : list string) (values : list float)
             (rows : list (float * list bool)).

(** [generateComparisonChart], up to the text of the chart and its file;
    [None] is the panic of [values[0]] on an empty slice. *)
Definition generateComparisonChart (Entries : list TestHistoryEntry)
    (metric : string) (limit : Z) : option ChartOutcome :=
  if Z.of_nat (length Entries) =? 0 then Some ChartNoHistory
  else
    let entries := getLastNEntries Entries limit in
    if Z.of_nat (length entries) <? 2 then Some ChartNeedTwo
    else
      let values := map (metricValue metric) entries in
      let labels := map (fun entry => itoa (ID entry)) entries in
      match values with
      | [] => None
      | v0 :: _ =>
          let '(minVal, maxVal) := minmax values v0 v0 in
          Some (ChartDrawn labels values
                  (map (chartRow values minVal maxVal)
                       [10; 9; 8; 7; 6; 5; 4; 3; 2; 1; 0]))
      end.

(** [printHistory], up to the text of the listing: the entries listed
    and the two numbers of the line "Showing last .. of .. total tests"
    when it is printed. *)
Inductive HistoryOutput : Type :=
| HistoryEmpty         (* "No test history found." *)
| HistoryListed (entries : list TestHistoryEntry) (footer : option (Z * Z)).

Definition printHistory (Entries : list TestHistoryEntry) (limit : Z) : HistoryOutput :=
  if Z.of_nat (length Entries) =? 0 then HistoryEmpty
  else
    let entries := getLastNEntries Entries limit in
    HistoryListed entries
      (if Z.of_nat (length Entries) >? limit
       then Some (Z.of_nat (length entries), Z.of_nat (length Entries))
       else None).

(** [runVisualize], after the history is loaded: the process exits on a
    metric that is not in [validMetrics]. *)
Definition validMetrics : gmap string bool :=
  {[ "success-rate" := true; "requests-per-sec" := true;
     "avg-latency" := true; "throughput" := true ]}.

Inductive VisualizeOutcome : Type :=
| InvalidMetric (metric : string)
| Visualized (chart : option ChartOutcome).

Definition runVisualize (Entries : list TestHistoryEntry) (metric : string) (limit : Z)
    : VisualizeOutcome :=
  if negb (default false (validMetrics !! metric)) then InvalidMetric metric
  else Visualized (generateComparisonChart Entries metric limit).

(** A history of two runs. *)
Definition two_entries : list TestHistoryEntry :=
  addEntry (addEntry [] one_connection unsorted_run) two_connections unsorted_run.

(** The identifiers of a history are strictly increasing. *)
Definition IDs_increasing (Entries : list TestHistoryEntry) : Prop :=
  StronglySorted Z.lt (map ID Entries).

(* --------------------------------------------------------------------- *)
(** *** Validation of the options (utilities file) *)
(* --------------------------------------------------------------------- *)

(** The fields of [url.URL] that the validation reads. *)
Record URLParts : Type := mkURLParts {
  Scheme : string;
  Host : string
}.

(** Stand-ins for the runtime on concrete inputs: URLs of the shape
    [scheme://host/path], messages with no white space around them and
    that are not JSON. *)
Fixpoint splitScheme (s : string) : option (string * string) :=
  match s with
  | EmptyString => None
  | String c s' =>
      match s' with
      | String ":" (String "/" (String "/" rest)) => Some (String c EmptyString, rest)
      | _ =>
          match splitScheme s' with
          | Some (scheme, rest) => Some (String c scheme, rest)
          | None => None
          end
      end
  end.

Fixpoint untilSlash (s : string) : string :=
  match s with
  | EmptyString => EmptyString
  | String c s' => if Ascii.eqb c "/" then EmptyString else String c (untilSlash s')
  end.

Definition parseSchemeHost (s : string) : URLParts + string :=
  match splitScheme s with
  | Some (scheme, rest) => inl (mkURLParts scheme (untilSlash rest))
  | None => inl (mkURLParts EmptyString EmptyString)
  end.

Definition trimmed (s : string) : string := s.

Definition notJSON (s : string) : bool := false.

(** [url.Parse], [strings.TrimSpace] and the validity test of
    [encoding/json] belong to the Go runtime. *)
Variable urlParse : string -> URLParts + string.
Variable TrimSpace : string -> string.
Variable jsonValid : string -> bool.

(** [json.Unmarshal([]byte(str), &js) == nil] *)
Definition isValidJSON (str : string) : bool := jsonValid str.

(** The normalised URL, or the text of the error. *)
Definition validateWebSocketURL (urlStr : string) : string + string :=
  let urlStr :=
    if negb (HasPrefix urlStr "ws://") && negb (HasPrefix urlStr "wss://")
    then ("ws://" ++ urlStr)%string else urlStr in
  match urlParse urlStr with
  | inr err => inr ("invalid URL format: " ++ err)%string
  | inl parsedURL =>
      if negb (String.eqb (Scheme parsedURL) "ws")
         && negb (String.eqb (Scheme parsedURL) "wss")
      then inr ("unsupported scheme: " ++ Scheme parsedURL
                ++ " (use ws:// or wss://)")%string
      else if String.eqb (Host parsedURL) EmptyString
      then inr "missing host in URL"
      else inl urlStr
  end.

Definition validateTestOptions (o : TestOptions) : error :=
  match validateWebSocketURL (URL o) with
  | inr err => Some ("URL validation failed: " ++ err)%string
  | inl _ =>
      match ParseDuration (Duration o) with
      | inr err => Some ("invalid duration format: " ++ err)%string
      | inl _ =>
          if Connections o <=? 0 then Some "connections must be greater than 0"
          else if Loop o <=? 0 then Some "loop count must be greater than 0"
          else if String.eqb (TrimSpace (Message o)) EmptyString
          then Some "message cannot be empty"
          else if (HasPrefix (TrimSpace (Message o)) "{"
                   || HasPrefix (TrimSpace (Message o)) "[")
                  && negb (isValidJSON (Message o))
          then Some ("message appears to be JSON but is not valid: " ++ Message o)%string
          else None
      end
  end.

(** [runTest], from the validation to the return of [Run]: the process
    exits on a configuration error or a failed test. *)
Inductive TestOutcome : Type :=
| ConfigurationError (err : string)
| TestFailed (err : string)
| TestRan (res : RunResult).

Definition runTest (o : TestOptions) (verboseFlag : bool) (now0 now1 : Z)
    (sched : list Action) : TestOutcome :=
  match validateTestOptions o with
  | Some err => ConfigurationError err
  | None =>
      let test := NewLoadTest o in
      let test := mkLoadTest (opts test) (lt_results test) (lt_ctxDone test) verboseFlag in
      let res := Run test now0 now1 sched in
      match ret res with
      | ReturnError err => TestFailed err
      | _ => TestRan res
      end
  end.

(* ===================================================================== *)
(** ** Properties *)
(* ===================================================================== *)

(* --------------------------------------------------------------------- *)
(** *** Machine integers *)
(* --------------------------------------------------------------------- *)

Lemma wrap64_inRange (z : Z) : GoInt.inRange z -> GoInt.wrap64 z = z.
Proof.
  unfold GoInt.inRange, GoInt.wrap64, GoInt.minInt64, GoInt.maxInt64. intros H.
  rewrite Z.mod_small by lia. lia.
Qed.

Lemma wrap64_range (z : Z) : GoInt.inRange (GoInt.wrap64 z).
Proof.
  unfold GoInt.inRange, GoInt.wrap64, GoInt.minInt64, GoInt.maxInt64.
  pose proof (Z.mod_pos_bound (z + 9223372036854775808) 18446744073709551616).
  lia.
Qed.

Lemma wrap64_succ (z : Z) : GoInt.incr (GoInt.wrap64 z) = GoInt.wrap64 (z + 1).
Proof.
  unfold GoInt.incr, GoInt.add, GoInt.wrap64.
  replace ((z + 9223372036854775808) mod 18446744073709551616 - 9223372036854775808 + 1
           + 9223372036854775808)
    with ((z + 9223372036854775808) mod 18446744073709551616 + 1) by lia.
  replace (z + 1 + 9223372036854775808) with ((z + 9223372036854775808) + 1) by lia.
  rewrite Zplus_mod_idemp_l. reflexivity.
Qed.

Lemma wrap64_add (x y : Z) :
  GoInt.wrap64 (GoInt.wrap64 x + GoInt.wrap64 y) = GoInt.wrap64 (x + y).
Proof.
  unfold GoInt.wrap64.
  set (m := 18446744073709551616). set (h := 9223372036854775808).
  replace ((x + h) mod m - h + ((y + h) mod m - h) + h)
    with ((x + h) mod m + ((y + h) mod m - h)) by lia.
  rewrite Zplus_mod_idemp_l.
  replace (x + h + ((y + h) mod m - h)) with ((y + h) mod m + x) by lia.
  rewrite Zplus_mod_idemp_l. f_equal. f_equal. lia.
Qed.

(* --------------------------------------------------------------------- *)
(** *** Strings *)
(* --------------------------------------------------------------------- *)

Lemma HasPrefix_lower (s p : string) :
  mapBytes lowerByte p = p ->
  HasPrefix (mapBytes lowerByte s) p = HasPrefixFold s p.
Proof.
  revert s. induction p as [|c p IH]; intros s Hp; [reflexivity|].
  simpl in Hp. injection Hp as Hc Hp'.
  destruct s as [|d s]; simpl; [reflexivity|].
  rewrite Hc, (IH s Hp'). reflexivity.
Qed.

Lemma Contains_lower (s p : string) :
  mapBytes lowerByte p = p ->
  Contains (mapBytes lowerByte s) p = ContainsFold s p.
Proof.
  intros Hp. induction s as [|d s IH].
  - simpl. rewrite <- (HasPrefix_lower EmptyString p Hp). reflexivity.
  - change (Contains (mapBytes lowerByte (String d s)) p)
      with (HasPrefix (mapBytes lowerByte (String d s)) p
            || Contains (mapBytes lowerByte s) p).
    rewrite (HasPrefix_lower (String d s) p Hp), IH. reflexivity.
Qed.

(** [Contains] is the occurrence of the pattern between some prefix and
    some suffix. *)
Lemma HasPrefix_spec (s p : string) :
  HasPrefix s p = true <-> exists t, s = (p ++ t)%string.
Proof.
  revert s. induction p as [|c p IH]; intros s; simpl.
  - split; [intros _; exists s; reflexivity | reflexivity].
  - destruct s as [|d s].
    + split; [discriminate | intros [t Ht]; discriminate].
    + rewrite andb_true_iff, IH. split.
      * intros [Hdc [t ->]]. apply Ascii.eqb_eq in Hdc. subst. eauto.
      * intros [t Ht]. injection Ht as -> ->. split; [apply Ascii.eqb_refl | eauto].
Qed.

Lemma Contains_spec (s p : string) :
  Contains s p = true <-> exists a b, s = (a ++ p ++ b)%string.
Proof.
  induction s as [|d s IH].
  - simpl. rewrite orb_false_r, HasPrefix_spec. split.
    + intros [t Ht]. exists EmptyString, t. exact Ht.
    + intros [a [b H]]. destruct a; [eauto | discriminate].
  - change (Contains (String d s) p) with (HasPrefix (String d s) p || Contains s p).
    rewrite orb_true_iff, HasPrefix_spec, IH. split.
    + intros [[t Ht] | [a [b H]]].
      * exists EmptyString, t. exact Ht.
      * exists (String d a), b. simpl. rewrite H. reflexivity.
    + intros [a [b H]]. destruct a as [|e a].
      * left. eauto.
      * right. simpl in H. injection H as -> ->. eauto.
Qed.

(* --------------------------------------------------------------------- *)
(** *** The error classifier *)
(* --------------------------------------------------------------------- *)

Lemma categorizeError_firstMatch (msg : string) :
  categorizeError (Some msg)
  = firstMatch (Contains (ToLower unicodeMap msg)) priorityRules.
Proof.
  unfold categorizeError, priorityRules, firstMatch, existsb.
  generalize (Contains (ToLower unicodeMap msg)). intros occurs.
  rewrite ?orb_false_r, ?orb_assoc. reflexivity.
Qed.

Lemma patterns_lower_stable :
  Forall (fun p => mapBytes lowerByte p = p) (concat (map snd priorityRules)).
Proof. repeat constructor. Qed.

Lemma firstMatch_ext (f g : string -> bool) (rules : list (string * list string)) :
  Forall (fun p => f p = g p) (concat (map snd rules)) ->
  firstMatch f rules = firstMatch g rules.
Proof.
  induction rules as [|[c ps] rules IH]; intros H; [reflexivity|].
  simpl in H. apply Forall_app in H as [Hps Hrest]. simpl.
  rewrite (IH Hrest).
  replace (existsb g ps) with (existsb f ps); [reflexivity|].
  clear -Hps. induction Hps as [|p ps Hp _ IHps]; simpl; [reflexivity|].
  rewrite Hp, IHps. reflexivity.
Qed.

Lemma categorizeError_fold (msg : string) :
  isASCII msg = true ->
  categorizeError (Some msg) = firstMatch (ContainsFold msg) priorityRules.
Proof.
  intros Hascii. rewrite categorizeError_firstMatch.
  unfold ToLower. rewrite Hascii.
  apply firstMatch_ext.
  eapply Forall_impl; [exact patterns_lower_stable|].
  intros p Hp. apply Contains_lower. exact Hp.
Qed.

Lemma firstMatch_in (occurs : string -> bool) :
  In (firstMatch occurs priorityRules) nineCategories.
Proof.
  unfold priorityRules, firstMatch, nineCategories.
  repeat match goal with
         | |- context [if ?b then _ else _] => destruct b
         end; simpl; tauto.
Qed.

(** C5. [categorizeError] is a function of the error alone; its value is
    always one of the nine pairwise distinct categories; on a non-nil
    error it is the category of the first rule, in the order timeout,
    connection-refused, network-error, auth-failure, protocol-error,
    resource-exhaustion, unexpected-response, invalid-data, that has a
    pattern occurring in the lowered message, and unknown when no rule
    has one; on an ASCII message this is matching without regard to
    letter case; a message in which both "timeout" and "invalid" occur
    is a timeout. *)
Theorem categorizeError_priority_order :
  (forall err : error, In (categorizeError err) nineCategories)
  /\ NoDup nineCategories
  /\ length nineCategories = 9%nat
  /\ (map fst priorityRules ++ [ErrorCategoryUnknown])%list = nineCategories
  /\ (forall msg : string,
        categorizeError (Some msg)
        = firstMatch (Contains (ToLower unicodeMap msg)) priorityRules)
  /\ (forall msg : string,
        isASCII msg = true ->
        categorizeError (Some msg) = firstMatch (ContainsFold msg) priorityRules)
  /\ (forall msg : string,
        Contains (ToLower unicodeMap msg) "timeout" = true ->
        Contains (ToLower unicodeMap msg) "invalid" = true ->
        categorizeError (Some msg) = ErrorCategoryTimeout)
  /\ (forall msg : string,
        isASCII msg = true ->
        ContainsFold msg "timeout" = true ->
        ContainsFold msg "invalid" = true ->
        categorizeError (Some msg) = ErrorCategoryTimeout).
Proof.
  split; [|split; [|split; [|split; [|split; [|split; [|split]]]]]].
  - intros [msg|].
    + rewrite categorizeError_firstMatch. apply firstMatch_in.
    + simpl. unfold nineCategories. simpl. tauto.
  - apply (bool_decide_unpack _). vm_compute. exact I.
  - reflexivity.
  - reflexivity.
  - exact categorizeError_firstMatch.
  - exact categorizeError_fold.
  - intros msg Ht _. unfold categorizeError. cbv zeta. rewrite Ht. reflexivity.
  - intros msg Hascii Ht _. rewrite (categorizeError_fold msg Hascii).
    unfold priorityRules, firstMatch, existsb. rewrite Ht. reflexivity.
Qed.

(** C10. On the nil error the classifier answers "unknown". *)
Theorem categorizeError_nil :
  categorizeError None = ErrorCategoryUnknown
  /\ ErrorCategoryUnknown = "unknown".
Proof. split; reflexivity. Qed.

(* --------------------------------------------------------------------- *)
(** *** Sorting *)
(* --------------------------------------------------------------------- *)

Lemma insert_perm (x : Z) (l : list Z) : Permutation (GoSort.insert x l) (x :: l).
Proof.
  induction l as [|y l IH]; simpl; [reflexivity|].
  destruct (x <? y); [reflexivity|].
  rewrite IH. apply perm_swap.
Qed.

Lemma Slice_perm (l : list Z) : Permutation (GoSort.Slice l) l.
Proof.
  induction l as [|x l IH]; simpl; [reflexivity|].
  rewrite insert_perm, IH. reflexivity.
Qed.

Lemma Slice_length (l : list Z) : length (GoSort.Slice l) = length l.
Proof. apply Permutation_length, Slice_perm. Qed.

Lemma insert_sorted (x : Z) (l : list Z) :
  StronglySorted Z.le l -> StronglySorted Z.le (GoSort.insert x l).
Proof.
  induction 1 as [|y l Hl IH Hy]; simpl.
  - repeat constructor.
  - destruct (x <? y) eqn:E.
    + apply Z.ltb_lt in E. constructor; [constructor; assumption|].
      constructor; [lia|]. eapply Forall_impl; [exact Hy|]. intros z Hz. simpl in Hz. lia.
    + apply Z.ltb_ge in E. constructor; [exact IH|].
      eapply Permutation_Forall; [symmetry; apply insert_perm|].
      constructor; assumption.
Qed.

Lemma Slice_sorted (l : list Z) : StronglySorted Z.le (GoSort.Slice l).
Proof.
  induction l as [|x l IH]; simpl; [constructor | apply insert_sorted, IH].
Qed.

(** An ascending arrangement of a list of integers is unique. *)
Lemma sorted_unique (l1 l2 : list Z) :
  StronglySorted Z.le l1 -> StronglySorted Z.le l2 -> Permutation l1 l2 -> l1 = l2.
Proof.
  intros H1. revert l2. induction H1 as [|x l1 Hs1 IH Hx]; intros l2 H2 Hp.
  - apply Permutation_nil in Hp. congruence.
  - destruct H2 as [|y l2 Hs2 Hy].
    + symmetry in Hp. apply Permutation_nil in Hp. discriminate.
    + assert (x = y) as ->.
      { assert (Hxin : In x (y :: l2)) by (eapply Permutation_in; [exact Hp | left; reflexivity]).
        assert (Hyin : In y (x :: l1))
          by (eapply Permutation_in; [symmetry; exact Hp | left; reflexivity]).
        rewrite Forall_forall in Hx, Hy.
        destruct Hxin as [->|Hxin]; [reflexivity|].
        destruct Hyin as [->|Hyin]; [reflexivity|].
        apply list_elem_of_In in Hxin, Hyin.
        specialize (Hx _ Hyin). specialize (Hy _ Hxin). simpl in *. lia. }
      f_equal. apply IH; [exact Hs2|]. eapply Permutation_cons_inv. exact Hp.
Qed.

Lemma Slice_unique (l sorted : list Z) :
  StronglySorted Z.le sorted -> Permutation sorted l -> GoSort.Slice l = sorted.
Proof.
  intros Hs Hp. apply sorted_unique; [apply Slice_sorted | exact Hs |].
  rewrite Slice_perm. symmetry. exact Hp.
Qed.

Lemma index_nth (s : list Z) (i : Z) :
  0 <= i < Z.of_nat (length s) -> index s i = Some (nth (Z.to_nat i) s 0).
Proof.
  intros Hi. unfold index.
  replace (0 <=? i) with true by (symmetry; apply Z.leb_le; lia).
  replace (i <? Z.of_nat (length s)) with true by (symmetry; apply Z.ltb_lt; lia).
  simpl. apply nth_error_nth'. lia.
Qed.

(* --------------------------------------------------------------------- *)
(** *** Percentiles *)
(* --------------------------------------------------------------------- *)

Lemma percentile_of_sorted (latencies sorted : list Z) (percentile : Z) :
  latencies <> [] ->
  0 <= percentile ->
  percentile * Z.of_nat (length latencies) <= GoInt.maxInt64 ->
  StronglySorted Z.le sorted ->
  Permutation sorted latencies ->
  calculatePercentile latencies percentile
  = Some (nth (percentileIndex percentile (length latencies)) sorted 0).
Proof.
  intros Hne Hp Hmax Hs Hperm.
  assert (Hn : (0 < length latencies)%nat) by (destruct latencies; [congruence | simpl; lia]).
  unfold calculatePercentile, percentileIndex.
  rewrite (Slice_unique latencies sorted Hs Hperm).
  rewrite (Permutation_length Hperm).
  set (n := Z.of_nat (length latencies)) in *.
  assert (Hn' : 0 < n) by (unfold n; lia).
  replace (n =? 0) with false by (symmetry; apply Z.eqb_neq; lia).
  assert (Hmul : GoInt.mul percentile n = percentile * n).
  { apply wrap64_inRange. unfold GoInt.inRange, GoInt.minInt64. split; [nia | exact Hmax]. }
  assert (Hq : 0 <= percentile * n / 100 <= percentile * n).
  { split; [apply Z.div_pos; nia|]. apply Z.div_le_upper_bound; nia. }
  assert (Hdiv : GoInt.div (GoInt.mul percentile n) 100 = percentile * n / 100).
  { unfold GoInt.div. rewrite Hmul, Z.quot_div_nonneg by nia.
    apply wrap64_inRange. unfold GoInt.inRange, GoInt.minInt64. lia. }
  rewrite Hdiv.
  destruct (percentile * n / 100 >=? n) eqn:E.
  - apply Z.geb_le in E. rewrite Z.min_r by lia.
    apply index_nth. rewrite (Permutation_length Hperm). fold n. lia.
  - rewrite Z.geb_leb in E. apply Z.leb_gt in E. rewrite Z.min_l by lia.
    apply index_nth. rewrite (Permutation_length Hperm). fold n. lia.
Qed.

(** C3. On a non-empty list of [n] latencies and a percentile [p >= 0]
    (with [p * n] representable as an [int]) [calculatePercentile]
    returns the element at index [(p * n) / 100], clamped to [n - 1], of
    the list in ascending order; on [1, 2, 3, 4, 5] ms it returns 3 ms
    at 50, 5 ms at 90 and 1 ms at 10. *)
Theorem calculatePercentile_sorted_index :
  (forall (latencies sorted : list Z) (p : Z),
     latencies <> [] ->
     0 <= p ->
     p * Z.of_nat (length latencies) <= GoInt.maxInt64 ->
     StronglySorted Z.le sorted ->
     Permutation sorted latencies ->
     calculatePercentile latencies p
     = Some (nth (Z.to_nat (Z.min (p * Z.of_nat (length latencies) / 100)
                                  (Z.of_nat (length latencies) - 1))) sorted 0))
  /\ (let ms := GoTime.Millisecond in
      let l := [1 * ms; 2 * ms; 3 * ms; 4 * ms; 5 * ms] in
      calculatePercentile l 50 = Some (3 * ms)
      /\ calculatePercentile l 90 = Some (5 * ms)
      /\ calculatePercentile l 10 = Some (1 * ms)).
Proof.
  split.
  - intros latencies sorted p Hne Hp Hmax Hs Hperm.
    apply (percentile_of_sorted latencies sorted p Hne Hp Hmax Hs Hperm).
  - vm_compute. repeat split.
Qed.

(** Outside that domain the function does not return: a negative
    percentile can index below the slice. *)
Lemma calculatePercentile_negative_percentile :
  calculatePercentile [1 * GoTime.Millisecond] (-100) = None.
Proof. reflexivity. Qed.

(** [addEntry] sorts a copy of the samples, so its P50 sample is the
    element the specification selects, whatever the recording order. *)
Lemma addEntry_p50_sorted_index (r : TestResults) (sorted : list Z) :
  StronglySorted Z.le sorted ->
  Permutation sorted (Latencies r) ->
  addEntry_p50_sample r = nth (percentileIndex 50 (length (Latencies r))) sorted 0.
Proof.
  intros Hs Hperm. unfold addEntry_p50_sample, percentileIndex.
  rewrite (Slice_unique _ _ Hs Hperm), (Permutation_length Hperm).
  destruct (Latencies r) as [|x l] eqn:E.
  - apply Permutation_nil_r in Hperm. subst. reflexivity.
  - f_equal. set (n := length (x :: l)).
    assert (0 < n)%nat by (unfold n; simpl; lia).
    replace (50 * Z.of_nat n / 100) with (Z.of_nat n / 2).
    2:{ replace (50 * Z.of_nat n) with (Z.of_nat n * 50) by lia.
        replace 100 with (2 * 50) by lia.
        rewrite Z.div_mul_cancel_r by lia. reflexivity. }
    assert (Z.of_nat n / 2 < Z.of_nat n) by (apply Z.div_lt; lia).
    rewrite Z.min_l by lia.
    rewrite (Nat2Z.inj_div n 2) || idtac.
    apply Nat2Z.inj. rewrite Z2Nat.id by (apply Z.div_pos; lia).
    rewrite Nat2Z.inj_div. reflexivity.
Qed.

(** [printResults] takes the middle element of the samples as they were
    recorded; it is the specified P50 when they happen to be in
    ascending order already. *)
Lemma printResults_p50_presorted (r : TestResults) :
  Latencies r <> [] ->
  StronglySorted Z.le (Latencies r) ->
  rP50Latency (printResults r)
  = nth (percentileIndex 50 (length (Latencies r))) (Latencies r) 0.
Proof.
  intros Hne Hs.
  rewrite <- (addEntry_p50_sorted_index r (Latencies r) Hs (Permutation_refl _)).
  unfold addEntry_p50_sample. rewrite (Slice_unique _ _ Hs (Permutation_refl _)).
  unfold printResults. simpl.
  destruct (Latencies r); [congruence | reflexivity].
Qed.

(** C2. With the samples 3, 1, 2 ms recorded in that order the P50 of
    [printResults] is 1 ms, the middle element of the unsorted slice,
    where the sorted samples have 2 ms at index [floor(50 * 3 / 100)];
    [addEntry] reports 2 ms for the same run. *)
Theorem printResults_p50_not_sorted :
  rP50Latency (printResults unsorted_run) = 1 * GoTime.Millisecond
  /\ nth (percentileIndex 50 (length (Latencies unsorted_run)))
         (GoSort.Slice (Latencies unsorted_run)) 0 = 2 * GoTime.Millisecond
  /\ addEntry_p50_sample unsorted_run = 2 * GoTime.Millisecond
  /\ rP50Latency (printResults (set_Latencies (GoSort.Slice (Latencies unsorted_run))
                                  unsorted_run)) = 2 * GoTime.Millisecond.
Proof. vm_compute. repeat split. Qed.

(* --------------------------------------------------------------------- *)
(** *** Success rate *)
(* --------------------------------------------------------------------- *)

(** Whenever no attempt was recorded the quotient is [0.0 / 0.0]. *)
Lemma success_rate_zero_total (r : TestResults) :
  TotalRequests r = 0 -> SuccessfulReqs r = 0 ->
  PrimFloat.is_nan (rSuccessRate (printResults r)) = true.
Proof.
  intros Ht Hs. unfold printResults. simpl. rewrite Ht, Hs. reflexivity.
Qed.

(* --------------------------------------------------------------------- *)
(** *** The counters under the mutex *)
(* --------------------------------------------------------------------- *)

Lemma wrap64_add_l (x y : Z) : GoInt.wrap64 (GoInt.wrap64 x + y) = GoInt.wrap64 (x + y).
Proof.
  unfold GoInt.wrap64.
  set (m := 18446744073709551616). set (h := 9223372036854775808).
  replace ((x + h) mod m - h + y + h) with ((x + h) mod m + y) by lia.
  rewrite Zplus_mod_idemp_l. f_equal. f_equal. lia.
Qed.

Lemma count_ops_snoc (p : CriticalOp -> bool) (ops : list CriticalOp) (op : CriticalOp) :
  count_ops p (ops ++ [op]) = count_ops p ops + (if p op then 1 else 0).
Proof.
  unfold count_ops. rewrite filter_app, length_app.
  destruct (p op) eqn:E.
  - rewrite filter_cons_True by exact E. simpl. lia.
  - rewrite filter_cons_False by congruence. simpl. lia.
Qed.

Lemma count_ops_nonneg (p : CriticalOp -> bool) (ops : list CriticalOp) :
  0 <= count_ops p ops.
Proof. unfold count_ops. lia. Qed.

Lemma count_ops_recording (ops : list CriticalOp) :
  count_ops is_recording ops = count_ops is_success ops + count_ops is_failure ops.
Proof.
  induction ops as [|op ops IH] using rev_ind; [reflexivity|].
  rewrite !count_ops_snoc, IH. destruct op; simpl; lia.
Qed.

(** What one whole critical section does to the three counters. *)
Lemma body_counters (op : CriticalOp) (r r' : TestResults) :
  runBody (body_of op) r = Some r' ->
  TotalRequests r' = (if is_recording op then GoInt.incr (TotalRequests r) else TotalRequests r)
  /\ SuccessfulReqs r' = (if is_success op then GoInt.incr (SuccessfulReqs r) else SuccessfulReqs r)
  /\ FailedReqs r' = (if is_failure op then GoInt.incr (FailedReqs r) else FailedReqs r).
Proof.
  destruct op as [latency message | errorType err | dataLen]; simpl.
  - intros H. injection H as <-. simpl.
    destruct (latency >? PeakResponseTime r); simpl; auto.
  - destruct (_ !! categorizeError err) as [info|]; simpl.
    + destruct (length (Examples info) <? 3)%nat; [destruct err|];
        intros H; try discriminate; injection H as <-; simpl; auto.
    + intros H. injection H as <-. simpl. auto.
  - intros H. injection H as <-. simpl. auto.
Qed.

Lemma body_preserves_Counters (r0 : TestResults) (ops : list CriticalOp)
    (op : CriticalOp) (r r' : TestResults) :
  Counters r0 ops r -> runBody (body_of op) r = Some r' -> Counters r0 (ops ++ [op]) r'.
Proof.
  intros (Ht & Hs & Hf) Hrun.
  destruct (body_counters op r r' Hrun) as (Ht' & Hs' & Hf').
  unfold Counters. rewrite !count_ops_snoc, Ht', Hs', Hf', Ht, Hs, Hf.
  repeat split.
  - destruct (is_recording op); [rewrite wrap64_succ|]; f_equal; lia.
  - destruct (is_success op); [rewrite wrap64_succ|]; f_equal; lia.
  - destruct (is_failure op); [rewrite wrap64_succ|]; f_equal; lia.
Qed.

Lemma mu_step_inv (r0 : TestResults) (a : MuAction) (s s' : MuState) :
  MuInv r0 s -> mu_step a s = Some s' -> MuInv r0 s'.
Proof.
  unfold MuInv, mu_step. intros Hinv Hstep.
  destruct a as [g op | g | g]; destruct (holder s) as [h|] eqn:Eh; try discriminate.
  - injection Hstep as <-. simpl. intros r' Hr'.
    eapply body_preserves_Counters; eauto.
  - destruct (g =? h_goroutine h)%nat; [|discriminate].
    destruct (h_rest h) as [|st rest] eqn:Er; [discriminate|].
    destruct (st (shared s)) as [r1|] eqn:Est; [|discriminate].
    injection Hstep as <-. simpl. intros r' Hr'. apply Hinv. simpl. rewrite Est. exact Hr'.
  - destruct (g =? h_goroutine h)%nat; [|discriminate].
    destruct (h_rest h) as [|st rest] eqn:Er; [|discriminate].
    injection Hstep as <-. simpl. apply Hinv. reflexivity.
Qed.

Lemma mu_run_inv (r0 : TestResults) (acts : list MuAction) (s s' : MuState) :
  MuInv r0 s -> mu_run acts s = Some s' -> MuInv r0 s'.
Proof.
  revert s. induction acts as [|a acts IH]; simpl; intros s Hinv Hrun.
  - injection Hrun as <-. exact Hinv.
  - destruct (mu_step a s) as [s1|] eqn:E; [|discriminate].
    eapply IH; [eapply mu_step_inv; eauto | exact Hrun].
Qed.

(** C4. Start from an aggregate [r0] with [TotalRequests = SuccessfulReqs
    + FailedReqs] and let goroutines run the critical sections of
    [sendMessage], [recordError] and [OnMessage] in any interleaving the
    mutex allows.  In every state a reader can observe, [TotalRequests]
    is [SuccessfulReqs + FailedReqs] and has grown by the number [k] of
    recordings completed, each of which raised exactly one of the two
    other counters; from the aggregate of [NewLoadTest] it equals [k].
    Counters are 64-bit, so the equalities are those of [int64]; they
    are equalities of integers while [k] fits. *)
Theorem recording_keeps_total (r0 : TestResults) (acts : list MuAction) (s : MuState) :
  GoInt.inRange (TotalRequests r0) ->
  GoInt.inRange (SuccessfulReqs r0) ->
  GoInt.inRange (FailedReqs r0) ->
  TotalRequests r0 = GoInt.wrap64 (SuccessfulReqs r0 + FailedReqs r0) ->
  mu_run acts (mkMuState r0 None []) = Some s ->
  observable s ->
  let k := count_ops is_recording (completed s) in
  let ks := count_ops is_success (completed s) in
  let kf := count_ops is_failure (completed s) in
  k = ks + kf
  /\ TotalRequests (shared s)
     = GoInt.wrap64 (SuccessfulReqs (shared s) + FailedReqs (shared s))
  /\ TotalRequests (shared s) = GoInt.wrap64 (TotalRequests r0 + k)
  /\ SuccessfulReqs (shared s) = GoInt.wrap64 (SuccessfulReqs r0 + ks)
  /\ FailedReqs (shared s) = GoInt.wrap64 (FailedReqs r0 + kf)
  /\ (r0 = NewLoadTest_results -> k <= GoInt.maxInt64 ->
      TotalRequests (shared s) = k
      /\ SuccessfulReqs (shared s) = ks
      /\ FailedReqs (shared s) = kf
      /\ TotalRequests (shared s) = SuccessfulReqs (shared s) + FailedReqs (shared s)).
Proof.
  intros Hrt Hrs Hrf H0 Hrun Hobs. cbv zeta.
  assert (Hinv : MuInv r0 s).
  { eapply mu_run_inv; [|exact Hrun]. unfold MuInv, Counters. simpl.
    unfold count_ops. simpl. rewrite !Z.add_0_r.
    rewrite !wrap64_inRange by assumption. repeat split. }
  unfold MuInv in Hinv. unfold observable in Hobs. rewrite Hobs in Hinv.
  destruct Hinv as (Ht & Hs & Hf).
  pose proof (count_ops_recording (completed s)) as Hk.
  pose proof (count_ops_nonneg is_success (completed s)) as Hks.
  pose proof (count_ops_nonneg is_failure (completed s)) as Hkf.
  split; [exact Hk|]. split; [|split; [exact Ht|split; [exact Hs|split; [exact Hf|]]]].
  - rewrite Ht, Hs, Hf, wrap64_add, H0, wrap64_add_l, Hk. f_equal. lia.
  - intros -> Hmax. rewrite Ht, Hs, Hf. simpl. unfold GoInt.maxInt64 in Hmax.
    rewrite !wrap64_inRange
      by (unfold GoInt.inRange, GoInt.minInt64, GoInt.maxInt64; lia).
    lia.
Qed.

(** Inside a critical section the aggregate is out of balance: this is
    the state the mutex hides from the readers. *)
Lemma inside_critical_section :
  exists s, mu_run [MuLock 0 (OpSendOK 5 "hi"); MuExec 0]
                   (mkMuState NewLoadTest_results None []) = Some s
            /\ holder s <> None
            /\ TotalRequests (shared s) = 1
            /\ SuccessfulReqs (shared s) + FailedReqs (shared s) = 0.
Proof. eexists. split; [reflexivity|]. simpl. repeat split. discriminate. Qed.

(* --------------------------------------------------------------------- *)
(** *** Error examples *)
(* --------------------------------------------------------------------- *)

Lemma take3_snoc (l : list string) (m : string) :
  take 3 (l ++ [m])
  = if (length (take 3 l) <? 3)%nat then (take 3 l ++ [m])%list else take 3 l.
Proof.
  destruct l as [|a [|b [|c l]]]; reflexivity.
Qed.

Lemma messages_in_snoc (category : string) (calls : list (string * string))
    (errorType msg : string) :
  messages_in category (calls ++ [(errorType, msg)])
  = (messages_in category calls
     ++ (if decide (categorizeError (Some msg) = category) then [msg] else []))%list.
Proof.
  unfold messages_in. rewrite filter_app, map_app. f_equal.
  destruct (decide (categorizeError (Some msg) = category)) as [E|E].
  - rewrite filter_cons_True by exact E. reflexivity.
  - rewrite filter_cons_False by exact E. reflexivity.
Qed.

Lemma ExamplesInv_init : ExamplesInv [] initializeErrorCategories.
Proof.
  split.
  - intros c Hc. unfold nineCategories in Hc. simpl in Hc.
    repeat (destruct Hc as [<-|Hc]; [eexists; reflexivity|]). contradiction.
  - intros c info H. unfold initializeErrorCategories in H.
    repeat (rewrite lookup_insert in H; case_decide;
            [injection H as <-; reflexivity|]).
    rewrite lookup_empty in H. discriminate.
Qed.

Lemma recordError_examples (done : list (string * string)) (errorType msg : string)
    (r : TestResults) :
  ExamplesInv done (ErrorCategories r) ->
  exists r', recordError errorType (Some msg) r = Some r'
             /\ ExamplesInv (done ++ [(errorType, msg)]) (ErrorCategories r').
Proof.
  intros [Hdom Hex].
  assert (Hin : In (categorizeError (Some msg)) nineCategories).
  { rewrite categorizeError_firstMatch. apply firstMatch_in. }
  destruct (Hdom _ Hin) as [info Hinfo].
  unfold recordError, recordError_body, runBody.
  cbn [ErrorCategories set_TotalRequests set_FailedReqs set_ErrorCounts].
  rewrite Hinfo.
  pose proof (Hex _ _ Hinfo) as Hx.
  set (cat := categorizeError (Some msg)) in *.
  assert (Hgoal : forall ex',
    ex' = (if (length (Examples info) <? 3)%nat
           then (Examples info ++ [msg])%list else Examples info) ->
    ExamplesInv (done ++ [(errorType, msg)])
      (<[cat := mkErrorCategoryInfo (GoInt.incr (Count info)) (Description info) ex']>
         (ErrorCategories r))).
  { intros ex' ->. split.
    - intros c Hc. rewrite lookup_insert. case_decide; [eexists; reflexivity | auto].
    - intros c i Hi. rewrite messages_in_snoc. rewrite lookup_insert in Hi.
      fold cat. destruct (decide (cat = c)) as [<-|Hne].
      + injection Hi as <-. simpl. rewrite take3_snoc, <- Hx. reflexivity.
      + rewrite app_nil_r. apply Hex. exact Hi. }
  destruct (length (Examples info) <? 3)%nat eqn:E.
  - eexists. split; [reflexivity|]. simpl. apply Hgoal. reflexivity.
  - eexists. split; [reflexivity|]. simpl. apply Hgoal. reflexivity.
Qed.

Lemma recordErrors_examples (calls done : list (string * string)) (r : TestResults) :
  ExamplesInv done (ErrorCategories r) ->
  exists r', recordErrors calls r = Some r'
             /\ ExamplesInv (done ++ calls) (ErrorCategories r').
Proof.
  revert done r. induction calls as [|[errorType msg] calls IH]; intros done r Hinv.
  - exists r. rewrite app_nil_r. split; [reflexivity | exact Hinv].
  - destruct (recordError_examples done errorType msg r Hinv) as (r1 & Hr1 & Hinv1).
    destruct (IH _ _ Hinv1) as (r' & Hr' & Hinv').
    exists r'. simpl. rewrite Hr1. split; [exact Hr'|].
    rewrite <- app_assoc in Hinv'. exact Hinv'.
Qed.

(** C6. After any sequence of [recordError] calls on the aggregate of
    [NewLoadTest] every category holds at most three examples, and they
    are the messages of the first three (or fewer) failures that the
    classifier put in that category, in the order of the calls. *)
Theorem examples_first_three (calls : list (string * string)) :
  exists r,
    recordErrors calls NewLoadTest_results = Some r
    /\ forall category info,
         ErrorCategories r !! category = Some info ->
         (length (Examples info) <= 3)%nat
         /\ Examples info = take 3 (messages_in category calls).
Proof.
  destruct (recordErrors_examples calls [] NewLoadTest_results ExamplesInv_init)
    as (r & Hr & _ & Hex).
  exists r. split; [exact Hr|]. intros category info H.
  rewrite (Hex _ _ H). split; [|reflexivity].
  rewrite length_take. lia.
Qed.

(* --------------------------------------------------------------------- *)
(** *** Workers: no panic, and cancellation *)
(* --------------------------------------------------------------------- *)

Lemma recordError_total (errorType msg : string) (r : TestResults) :
  exists r', recordError errorType (Some msg) r = Some r'.
Proof.
  unfold recordError, recordError_body, runBody.
  cbn [ErrorCategories set_TotalRequests set_FailedReqs set_ErrorCounts].
  destruct (_ !! _) as [info|]; [|eauto].
  destruct (_ <? _)%nat; eauto.
Qed.

Lemma sendMessage_total (message : string) (connID msgID : Z) (err : error)
    (latency : Z) (r : TestResults) :
  exists r', sendMessage message connID msgID err latency r = Some r'.
Proof.
  destruct err as [msg|]; simpl; [apply recordError_total | eauto].
Qed.

Lemma runConnection_step_total (o : TestOptions) (connID : Z) (io : IOResult)
    (done : bool) (pc : WorkerPC) (r : TestResults) (tokens : Z) :
  exists pc' r' tokens' evs,
    runConnection_step o connID io done pc r tokens = Some (pc', r', tokens', evs).
Proof.
  destruct pc; simpl.
  - destruct (tokens <? Connections o); eauto 10.
  - destruct (io_err io) as [msg|] eqn:E; [|eauto 10].
    destruct (recordError_total ("client_creation_failed_" ++ itoa connID) msg r)
      as [r' ->]. eauto 10.
  - destruct (i <? Loop o); [destruct done|]; eauto 10.
  - destruct (sendMessage_total (Message o) connID i (io_err io) (io_latency io) r)
      as [r' ->]. eauto 10.
  - eauto 10.
  - eauto 10.
  - eauto 10.
Qed.

Lemma step_total (o : TestOptions) (a : Action) (s : Sys) :
  exists s', step o a s = Some s'.
Proof.
  destruct a as [|connID io|dataLen]; simpl; eauto.
  destruct (workers s !! connID) as [pc|]; [|eauto].
  destruct (runConnection_step_total o (Z.of_nat connID) io (ctxDone s) pc
              (results s) (pool s)) as (pc' & r' & t' & evs & ->). eauto.
Qed.

Lemma exec_total (o : TestOptions) (acts : list Action) (s : Sys) :
  exists s', exec o acts s = Some s'.
Proof.
  revert s. induction acts as [|a acts IH]; intros s; simpl; [eauto|].
  destruct (step_total o a s) as [s1 ->]. apply IH.
Qed.

Lemma exec_app (o : TestOptions) (acts1 acts2 : list Action) (s : Sys) :
  exec o (acts1 ++ acts2) s
  = match exec o acts1 s with Some s1 => exec o acts2 s1 | None => None end.
Proof.
  revert s. induction acts1 as [|a acts1 IH]; intros s; simpl; [reflexivity|].
  destruct (step o a s); [apply IH | reflexivity].
Qed.

(** A move made while the context is cancelled begins no send. *)
Lemma runConnection_step_cancelled (o : TestOptions) (connID : Z) (io : IOResult)
    (pc pc' : WorkerPC) (r r' : TestResults) (tokens tokens' : Z) (evs : list Event) :
  runConnection_step o connID io true pc r tokens = Some (pc', r', tokens', evs) ->
  Forall (fun e => is_WriteMessage e = false) evs
  /\ (forall i, pc' = PCSend i -> pc = PCSend i).
Proof.
  destruct pc; simpl.
  - destruct (tokens <? Connections o); intros H; injection H as <- <- <- <-;
      split; try (repeat constructor); discriminate.
  - destruct (io_err io); [destruct (recordError _ _ _)|]; intros H; try discriminate;
      injection H as <- <- <- <-; split; try (repeat constructor); discriminate.
  - destruct (i <? Loop o); intros H; injection H as <- <- <- <-;
      split; try (repeat constructor); discriminate.
  - destruct (sendMessage _ _ _ _ _ _); intros H; try discriminate;
      injection H as <- <- <- <-; split; try (repeat constructor); discriminate.
  - intros H; injection H as <- <- <- <-; split; try (repeat constructor); discriminate.
  - intros H; injection H as <- <- <- <-; split; try (repeat constructor); discriminate.
  - intros H; injection H as <- <- <- <-; split; try (repeat constructor); discriminate.
Qed.

Lemma step_cancelled (o : TestOptions) (a : Action) (s s' : Sys) :
  ctxDone s = true -> step o a s = Some s' ->
  ctxDone s' = true
  /\ (exists new, trace s' = (trace s ++ new)%list
                  /\ Forall (fun e => is_WriteMessage e = false) new)
  /\ (forall connID i, workers s' !! connID = Some (PCSend i) ->
                       workers s !! connID = Some (PCSend i)).
Proof.
  intros Hdone. destruct a as [|connID io|dataLen]; simpl.
  - intros H. injection H as <-. simpl. split; [reflexivity|]. split; [|auto].
    exists [EvCancel]. split; [reflexivity | repeat constructor].
  - destruct (workers s !! connID) as [pc|] eqn:Epc.
    + rewrite Hdone.
      destruct (runConnection_step _ _ _ _ _ _ _) as [[[[pc' r'] t'] evs]|] eqn:E;
        [|discriminate].
      intros H. injection H as <-. simpl.
      destruct (runConnection_step_cancelled _ _ _ _ _ _ _ _ _ _ E) as [Hev Hpc].
      split; [reflexivity|]. split; [exists evs; auto|].
      intros c i Hc. apply list_lookup_insert_Some in Hc.
      destruct Hc as [(-> & Heq & _) | (_ & Hc)]; [|exact Hc].
      rewrite Epc. f_equal. apply Hpc. exact Heq.
    + intros H. injection H as <-. split; [exact Hdone|]. split; [|auto].
      exists []. rewrite app_nil_r. split; [reflexivity | constructor].
  - intros H. injection H as <-. simpl. split; [exact Hdone|]. split; [|auto].
    exists []. rewrite app_nil_r. split; [reflexivity | constructor].
Qed.

Lemma exec_cancelled (o : TestOptions) (acts : list Action) (s s' : Sys) :
  ctxDone s = true -> exec o acts s = Some s' ->
  ctxDone s' = true
  /\ (exists new, trace s' = (trace s ++ new)%list
                  /\ Forall (fun e => is_WriteMessage e = false) new)
  /\ (forall connID i, workers s' !! connID = Some (PCSend i) ->
                       workers s !! connID = Some (PCSend i)).
Proof.
  revert s. induction acts as [|a acts IH]; simpl; intros s Hdone Hexec.
  - injection Hexec as <-. split; [exact Hdone|]. split; [|auto].
    exists []. rewrite app_nil_r. split; [reflexivity | constructor].
  - destruct (step o a s) as [s1|] eqn:E; [|discriminate].
    destruct (step_cancelled o a s s1 Hdone E) as (Hd1 & (new1 & Ht1 & Hn1) & Hw1).
    destruct (IH s1 Hd1 Hexec) as (Hd' & (new2 & Ht2 & Hn2) & Hw2).
    split; [exact Hd'|]. split.
    + exists (new1 ++ new2)%list. rewrite Ht2, Ht1, app_assoc. split; [reflexivity|].
      apply Forall_app. auto.
    + intros c i Hc. apply Hw1, Hw2, Hc.
Qed.

(** A move of a connection logs at most one event, never a cancel. *)
Lemma runConnection_step_events (o : TestOptions) (connID : Z) (io : IOResult)
    (done : bool) (pc pc' : WorkerPC) (r r' : TestResults) (tokens tokens' : Z)
    (evs : list Event) :
  runConnection_step o connID io done pc r tokens = Some (pc', r', tokens', evs) ->
  evs = [] \/ exists e, evs = [e] /\ e <> EvCancel.
Proof.
  destruct pc; simpl.
  - destruct (tokens <? Connections o); intros H; injection H as <- <- <- <-;
      [right; eexists; split; [reflexivity | discriminate] | left; reflexivity].
  - destruct (io_err io); [destruct (recordError _ _ _)|]; intros H; try discriminate;
      injection H as <- <- <- <-; right; eexists; split; try reflexivity; discriminate.
  - destruct (i <? Loop o); [destruct done|]; intros H; injection H as <- <- <- <-;
      try (left; reflexivity); right; eexists; split; try reflexivity; discriminate.
  - destruct (sendMessage _ _ _ _ _ _); intros H; try discriminate;
      injection H as <- <- <- <-; right; eexists; split; try reflexivity; discriminate.
  - intros H; injection H as <- <- <- <-.
    right; eexists; split; try reflexivity; discriminate.
  - intros H; injection H as <- <- <- <-.
    right; eexists; split; try reflexivity; discriminate.
  - intros H; injection H as <- <- <- <-. left; reflexivity.
Qed.

(** An action logs at most one event, and a cancel event only together
    with the cancellation itself. *)
Lemma step_events (o : TestOptions) (a : Action) (s s' : Sys) :
  step o a s = Some s' ->
  trace s' = trace s
  \/ exists e, trace s' = (trace s ++ [e])%list /\ (e = EvCancel -> ctxDone s' = true).
Proof.
  destruct a as [|connID io|dataLen]; simpl.
  - intros H. injection H as <-. right. exists EvCancel. simpl. auto.
  - destruct (workers s !! connID) as [pc|].
    + destruct (runConnection_step _ _ _ _ _ _ _) as [[[[pc' r'] t'] evs]|] eqn:E;
        [|discriminate].
      intros H. injection H as <-. simpl.
      destruct (runConnection_step_events _ _ _ _ _ _ _ _ _ _ _ E)
        as [-> | (e & -> & Hne)].
      * left. apply app_nil_r.
      * right. exists e. split; [reflexivity | congruence].
    + intros H. injection H as <-. left. reflexivity.
  - intros H. injection H as <-. left. reflexivity.
Qed.

Lemma exec_trace_extends (o : TestOptions) (acts : list Action) (s s' : Sys) :
  exec o acts s = Some s' -> exists new, trace s' = (trace s ++ new)%list.
Proof.
  revert s. induction acts as [|a acts IH]; simpl; intros s H.
  - injection H as <-. exists []. symmetry. apply app_nil_r.
  - destruct (step o a s) as [s1|] eqn:E; [|discriminate].
    destruct (IH s1 H) as [new Hn].
    destruct (step_events o a s s1 E) as [H1 | (e & H1 & _)].
    + exists new. rewrite Hn, H1. reflexivity.
    + exists (e :: new). rewrite Hn, H1, <- app_assoc. reflexivity.
Qed.

(** In the trace of any execution no send begins after a cancel event. *)
Lemma exec_no_send_after_cancel (o : TestOptions) (acts : list Action) :
  forall (s s' : Sys) (pre post : list Event),
    exec o acts s = Some s' ->
    trace s' = (trace s ++ pre ++ EvCancel :: post)%list ->
    Forall (fun e => is_WriteMessage e = false) post.
Proof.
  induction acts as [|a acts IH]; simpl; intros s s' pre post Hexec Htr.
  - injection Hexec as <-. exfalso.
    apply (f_equal (@length Event)) in Htr.
    rewrite !length_app in Htr. simpl in Htr. lia.
  - destruct (step o a s) as [s1|] eqn:E; [|discriminate].
    destruct (step_events o a s s1 E) as [H1 | (e & H1 & Hc)].
    + apply (IH s1 s' pre post Hexec). rewrite H1. exact Htr.
    + destruct (exec_trace_extends o acts s1 s' Hexec) as [new Hn].
      assert (Hsplit : (e :: new = pre ++ EvCancel :: post)%list).
      { rewrite Hn, H1, <- app_assoc in Htr. apply app_inv_head in Htr. exact Htr. }
      destruct pre as [|e' pre]; simpl in Hsplit; injection Hsplit as -> ->.
      * destruct (exec_cancelled o acts s1 s' (Hc eq_refl) Hexec)
          as (_ & (new2 & Hn2 & Hall) & _).
        rewrite Hn in Hn2. apply app_inv_head in Hn2. subst new2. exact Hall.
      * apply (IH s1 s' pre post Hexec). exact Hn.
Qed.

(** C9. Once the context is cancelled it stays cancelled, and in every
    continuation of the run, under any schedule, no connection begins a
    send: the trace gains no [EvWriteMessage], and a connection found
    inside a send was inside that same send when the signal was set.
    At the head of each iteration [i] below the repeat count the worker
    reads the signal: set, it returns without sending; not set, it
    begins send [i].  A send in flight completes and records its
    outcome whether or not the signal is set.  In the trace of any
    execution no send begins after a cancel event. *)
Theorem cancellation_stops_new_sends (o : TestOptions) (acts : list Action) (s s' : Sys) :
  ctxDone s = true ->
  exec o acts s = Some s' ->
  ctxDone s' = true
  /\ (exists new, trace s' = (trace s ++ new)%list
                  /\ forall connID i, ~ In (EvWriteMessage connID i) new)
  /\ (forall connID i, workers s' !! connID = Some (PCSend i) ->
                       workers s !! connID = Some (PCSend i))
  /\ (forall (t : Sys) (connID : nat) (i : Z) (io : IOResult),
        workers t !! connID = Some (PCLoop i) -> i < Loop o ->
        step o (AStep connID io) t
        = Some (if ctxDone t
                then mkSys (results t) true (pool t) (<[connID := PCRelease]> (workers t))
                       (trace t ++ [EvCtxDone (Z.of_nat connID) i])
                else mkSys (results t) false (pool t) (<[connID := PCSend i]> (workers t))
                       (trace t ++ [EvWriteMessage (Z.of_nat connID) i])))
  /\ (forall (t : Sys) (connID : nat) (i : Z) (io : IOResult),
        workers t !! connID = Some (PCSend i) ->
        exists r',
          sendMessage (Message o) (Z.of_nat connID) i (io_err io) (io_latency io)
            (results t) = Some r'
          /\ step o (AStep connID io) t
             = Some (mkSys r' (ctxDone t) (pool t)
                       (<[connID := PCLoop (GoInt.incr i)]> (workers t))
                       (trace t ++ [EvSendReturned (Z.of_nat connID) i (io_err io)])))
  /\ (forall (sched : list Action) (t t' : Sys) (pre post : list Event),
        exec o sched t = Some t' ->
        trace t' = (trace t ++ pre ++ EvCancel :: post)%list ->
        forall connID i, ~ In (EvWriteMessage connID i) post).
Proof.
  intros Hdone Hexec.
  destruct (exec_cancelled o acts s s' Hdone Hexec) as (Hd & (new & Ht & Hn) & Hw).
  split; [exact Hd|]. split; [|split; [exact Hw|split; [|split]]].
  - exists new. split; [exact Ht|]. intros c i Hin.
    rewrite Forall_forall in Hn. apply list_elem_of_In in Hin.
    specialize (Hn _ Hin). discriminate.
  - intros t c i io Hpc Hi. simpl. rewrite Hpc. simpl.
    replace (i <? Loop o) with true by (symmetry; apply Z.ltb_lt; exact Hi).
    destruct (ctxDone t); reflexivity.
  - intros t c i io Hpc.
    destruct (sendMessage_total (Message o) (Z.of_nat c) i (io_err io) (io_latency io)
                (results t)) as [r' Hr'].
    exists r'. split; [exact Hr'|]. simpl. rewrite Hpc. simpl. rewrite Hr'. reflexivity.
  - intros sched t t' pre post He Htr c i Hin.
    pose proof (exec_no_send_after_cancel o sched t t' pre post He Htr) as Hall.
    rewrite Forall_forall in Hall. apply list_elem_of_In in Hin.
    specialize (Hall _ Hin). discriminate.
Qed.

(* --------------------------------------------------------------------- *)
(** *** The pool, and the drain of a cancelled run *)
(* --------------------------------------------------------------------- *)

Lemma slots_insert (ws : list WorkerPC) (c : nat) (pc pc' : WorkerPC) :
  ws !! c = Some pc ->
  slots (<[c := pc']> ws) = slots ws - b2z (holds_slot pc) + b2z (holds_slot pc').
Proof.
  revert c. induction ws as [|w ws IH]; intros c H; [discriminate|].
  destruct c as [|c]; simpl in *.
  - injection H as ->. lia.
  - rewrite (IH c H). lia.
Qed.

Lemma slots_bound (ws : list WorkerPC) : 0 <= slots ws <= Z.of_nat (length ws).
Proof.
  induction ws as [|w ws IH]; simpl; [lia|]. destruct (holds_slot w); simpl; lia.
Qed.

Lemma slots_free (ws : list WorkerPC) (c : nat) (pc : WorkerPC) :
  ws !! c = Some pc -> holds_slot pc = false -> slots ws < Z.of_nat (length ws).
Proof.
  revert c. induction ws as [|w ws IH]; intros c H Hf; [discriminate|].
  destruct c as [|c]; simpl in *.
  - injection H as ->. rewrite Hf. pose proof (slots_bound ws). simpl. lia.
  - specialize (IH c H Hf). destruct (holds_slot w); simpl; lia.
Qed.

Lemma runConnection_step_tokens (o : TestOptions) (connID : Z) (io : IOResult)
    (done : bool) (pc pc' : WorkerPC) (r r' : TestResults) (tokens tokens' : Z)
    (evs : list Event) :
  runConnection_step o connID io done pc r tokens = Some (pc', r', tokens', evs) ->
  tokens' = tokens - b2z (holds_slot pc) + b2z (holds_slot pc').
Proof.
  destruct pc; simpl.
  - destruct (tokens <? Connections o); intros H; injection H as <- <- <- <-; simpl; lia.
  - destruct (io_err io); [destruct (recordError _ _ _)|]; intros H; try discriminate;
      injection H as <- <- <- <-; simpl; lia.
  - destruct (i <? Loop o); [destruct done|]; intros H; injection H as <- <- <- <-;
      simpl; lia.
  - destruct (sendMessage _ _ _ _ _ _); intros H; try discriminate;
      injection H as <- <- <- <-; simpl; lia.
  - intros H; injection H as <- <- <- <-; simpl; lia.
  - intros H; injection H as <- <- <- <-; simpl; lia.
  - intros H; injection H as <- <- <- <-; simpl; lia.
Qed.

Lemma step_PoolInv (o : TestOptions) (a : Action) (s s' : Sys) :
  PoolInv o s -> step o a s = Some s' -> PoolInv o s'.
Proof.
  intros [Hp Hl]. destruct a as [|connID io|dataLen]; simpl.
  - intros H. injection H as <-. split; assumption.
  - destruct (workers s !! connID) as [pc|] eqn:Epc.
    + destruct (runConnection_step _ _ _ _ _ _ _) as [[[[pc' r'] t'] evs]|] eqn:E;
        [|discriminate].
      intros H. injection H as <-. unfold PoolInv. simpl.
      rewrite (slots_insert _ _ _ _ Epc), length_insert.
      rewrite (runConnection_step_tokens _ _ _ _ _ _ _ _ _ _ _ E), Hp.
      split; [reflexivity | exact Hl].
    + intros H. injection H as <-. split; assumption.
  - intros H. injection H as <-. split; assumption.
Qed.

Lemma exec_PoolInv (o : TestOptions) (acts : list Action) (s s' : Sys) :
  PoolInv o s -> exec o acts s = Some s' -> PoolInv o s'.
Proof.
  revert s. induction acts as [|a acts IH]; simpl; intros s Hinv Hexec.
  - injection Hexec as <-. exact Hinv.
  - destruct (step o a s) as [s1|] eqn:E; [|discriminate].
    eapply IH; [eapply step_PoolInv; eauto | exact Hexec].
Qed.

(** With the context cancelled and a token available to whoever waits
    for one, every move brings the goroutine closer to its return. *)
Lemma runConnection_step_rank (o : TestOptions) (connID : Z) (io : IOResult)
    (pc pc' : WorkerPC) (r r' : TestResults) (tokens tokens' : Z) (evs : list Event) :
  (pc = PCAcquire -> tokens < Connections o) ->
  runConnection_step o connID io true pc r tokens = Some (pc', r', tokens', evs) ->
  (rank pc' < rank pc)%nat \/ (pc = PCReturned /\ pc' = PCReturned).
Proof.
  intros Hfree. destruct pc; simpl.
  - replace (tokens <? Connections o) with true
      by (symmetry; apply Z.ltb_lt; auto).
    intros H; injection H as <- <- <- <-; simpl; lia.
  - destruct (io_err io); [destruct (recordError _ _ _)|]; intros H; try discriminate;
      injection H as <- <- <- <-; simpl; lia.
  - destruct (i <? Loop o); intros H; injection H as <- <- <- <-; simpl; lia.
  - destruct (sendMessage _ _ _ _ _ _); intros H; try discriminate;
      injection H as <- <- <- <-; simpl; lia.
  - intros H; injection H as <- <- <- <-; simpl; lia.
  - intros H; injection H as <- <- <- <-; simpl; lia.
  - intros H; injection H as <- <- <- <-; simpl; auto.
Qed.

Lemma finish_worker (o : TestOptions) (io : IOResult) (c : nat) (fuel : nat) :
  forall (s : Sys) (pc : WorkerPC),
    ctxDone s = true -> PoolInv o s ->
    workers s !! c = Some pc -> (rank pc <= fuel)%nat ->
    exists s', exec o (repeat (AStep c io) fuel) s = Some s'
               /\ ctxDone s' = true /\ PoolInv o s'
               /\ workers s' = <[c := PCReturned]> (workers s).
Proof.
  induction fuel as [|fuel IH]; intros s pc Hdone Hinv Hpc Hrank.
  - exists s. simpl. split; [reflexivity|]. split; [exact Hdone|]. split; [exact Hinv|].
    destruct pc; simpl in Hrank; try lia.
    symmetry. apply list_insert_id. exact Hpc.
  - simpl repeat. cbn [exec].
    destruct (step_total o (AStep c io) s) as [s1 Hs1]. rewrite Hs1.
    pose proof (step_PoolInv o _ _ _ Hinv Hs1) as Hinv1.
    destruct (step_cancelled o _ _ _ Hdone Hs1) as (Hdone1 & _ & _).
    simpl in Hs1. rewrite Hpc, Hdone in Hs1.
    destruct (runConnection_step _ _ _ _ _ _ _) as [[[[pc1 r1] t1] evs]|] eqn:E;
      [|discriminate].
    injection Hs1 as Hs1.
    assert (Hw1 : workers s1 = <[c := pc1]> (workers s)) by (rewrite <- Hs1; reflexivity).
    assert (Hpc1 : workers s1 !! c = Some pc1).
    { rewrite Hw1. apply list_lookup_insert_eq. eapply lookup_lt_Some. exact Hpc. }
    assert (Hr : (rank pc1 <= fuel)%nat).
    { assert (Hfree : pc = PCAcquire -> pool s < Connections o).
      { intros ->. destruct Hinv as [Hp Hl]. rewrite Hp.
        pose proof (slots_free _ _ _ Hpc eq_refl). lia. }
      destruct (runConnection_step_rank _ _ _ _ _ _ _ _ _ _ Hfree E)
        as [Hlt | [-> ->]]; [lia | simpl; lia]. }
    destruct (IH s1 pc1 Hdone1 Hinv1 Hpc1 Hr) as (s' & He & Hd' & Hi' & Hw').
    exists s'. split; [exact He|]. split; [exact Hd'|]. split; [exact Hi'|].
    rewrite Hw', Hw1. apply list_insert_insert_eq.
Qed.

Lemma finish_workers (o : TestOptions) (io : IOResult) (ids : list nat) :
  forall s : Sys,
    ctxDone s = true -> PoolInv o s ->
    exists s', exec o (flat_map (fun c => repeat (AStep c io) 5) ids) s = Some s'
               /\ ctxDone s' = true /\ PoolInv o s'
               /\ length (workers s') = length (workers s)
               /\ forall c, (In c ids \/ workers s !! c = Some PCReturned) ->
                            (c < length (workers s))%nat ->
                            workers s' !! c = Some PCReturned.
Proof.
  induction ids as [|c ids IH]; intros s Hdone Hinv.
  - exists s. simpl. split; [reflexivity|]. split; [exact Hdone|]. split; [exact Hinv|].
    split; [reflexivity|]. intros c [[]|H] _. exact H.
  - cbn [flat_map]. rewrite exec_app.
    destruct (workers s !! c) as [pc|] eqn:Epc.
    + assert (Hrank : (rank pc <= 5)%nat) by (destruct pc; simpl; lia).
      destruct (finish_worker o io c 5 s pc Hdone Hinv Epc Hrank)
        as (s1 & -> & Hd1 & Hi1 & Hw1).
      destruct (IH s1 Hd1 Hi1) as (s' & He & Hd' & Hi' & Hl' & Hall).
      exists s'. rewrite Hw1, length_insert in Hl'.
      split; [exact He|]. split; [exact Hd'|]. split; [exact Hi'|]. split; [exact Hl'|].
      intros c' Hc' Hlt. apply Hall; [|rewrite Hw1, length_insert; exact Hlt].
      destruct (decide (c = c')) as [<-|Hne].
      * right. rewrite Hw1. apply list_lookup_insert_eq. exact Hlt.
      * destruct Hc' as [[Heq|Hin]|Hret]; [congruence | left; exact Hin |].
        right. rewrite Hw1, list_lookup_insert_ne by exact Hne. exact Hret.
    + (* no such goroutine: its moves are no-ops *)
      assert (Hnop : forall n, exec o (repeat (AStep c io) n) s = Some s).
      { induction n as [|n IHn]; [reflexivity|]. simpl. rewrite Epc. exact IHn. }
      rewrite Hnop.
      destruct (IH s Hdone Hinv) as (s' & He & Hd' & Hi' & Hl' & Hall).
      exists s'. split; [exact He|]. split; [exact Hd'|]. split; [exact Hi'|].
      split; [exact Hl'|].
      intros c' Hc' Hlt. apply Hall; [|exact Hlt].
      destruct Hc' as [[<-|Hin]|Hret]; [|left; exact Hin|right; exact Hret].
      apply lookup_ge_None in Epc. lia.
Qed.

Lemma drain_returns (o : TestOptions) (io : IOResult) (s : Sys) :
  PoolInv o s ->
  exists s', exec o (drain (length (workers s)) 5 io) s = Some s'
             /\ ctxDone s' = true
             /\ forallb is_returned (workers s') = true.
Proof.
  intros Hinv. unfold drain. cbn [exec step].
  set (s0 := mkSys (results s) true (pool s) (workers s) (trace s ++ [EvCancel])).
  assert (Hinv0 : PoolInv o s0) by exact Hinv.
  destruct (finish_workers o io (seq 0 (length (workers s))) s0 eq_refl Hinv0)
    as (s' & He & Hd' & _ & Hl' & Hall).
  exists s'. split; [exact He|]. split; [exact Hd'|].
  apply forallb_forall. intros pc Hin.
  apply list_elem_of_In, list_elem_of_lookup in Hin. destruct Hin as [c Hc].
  assert (Hlt : (c < length (workers s0))%nat).
  { rewrite <- Hl'. eapply lookup_lt_Some. exact Hc. }
  rewrite (Hall c) in Hc; [injection Hc as <-; reflexivity | | exact Hlt].
  left. apply in_seq. simpl in Hlt. lia.
Qed.

(* --------------------------------------------------------------------- *)
(** *** The orchestrator *)
(* --------------------------------------------------------------------- *)

Lemma step_length (o : TestOptions) (a : Action) (s s' : Sys) :
  step o a s = Some s' -> length (workers s') = length (workers s).
Proof.
  destruct a as [|connID io|dataLen]; simpl.
  - intros H. injection H as <-. reflexivity.
  - destruct (workers s !! connID) as [pc|].
    + destruct (runConnection_step _ _ _ _ _ _ _) as [[[[pc' r'] t'] evs]|];
        [|discriminate].
      intros H. injection H as <-. simpl. apply length_insert.
    + intros H. injection H as <-. reflexivity.
  - intros H. injection H as <-. reflexivity.
Qed.

Lemma exec_length (o : TestOptions) (acts : list Action) (s s' : Sys) :
  exec o acts s = Some s' -> length (workers s') = length (workers s).
Proof.
  revert s. induction acts as [|a acts IH]; simpl; intros s Hexec.
  - injection Hexec as <-. reflexivity.
  - destruct (step o a s) as [s1|] eqn:E; [|discriminate].
    rewrite (IH _ Hexec). eapply step_length. exact E.
Qed.

Lemma slots_repeat_acquire (n : nat) : slots (repeat PCAcquire n) = 0.
Proof. induction n as [|n IH]; simpl; [reflexivity | rewrite IH; reflexivity]. Qed.

Lemma Run_start_PoolInv (o : TestOptions) (r : TestResults) (done : bool) :
  0 <= Connections o ->
  PoolInv o (mkSys r done 0 (repeat PCAcquire (Z.to_nat (Connections o))) []).
Proof.
  intros H. unfold PoolInv. simpl. rewrite slots_repeat_acquire, repeat_length.
  split; [reflexivity | lia].
Qed.

(** C7. [Run] returns an error exactly when the duration string does not
    parse; it then returns before anything is launched and hands back
    the load test as it found it.  When the duration parses (and the
    connection count is not negative) no schedule and no failure of a
    connection or of a send makes [Run] return an error or panic: it is
    waiting or has returned nil, and it returns nil once the context is
    cancelled and every goroutine has been given its moves. *)
Theorem Run_error_iff_duration (lt : LoadTest) (now0 now1 : Z) (sched : list Action) :
  ((exists e, ret (Run lt now0 now1 sched) = ReturnError e)
   <-> (exists e, ParseDuration (Duration (opts lt)) = inr e))
  /\ (forall e, ParseDuration (Duration (opts lt)) = inr e ->
        Run lt now0 now1 sched
        = mkRunResult (ReturnError ("invalid duration format: " ++ e)) lt [] [] None)
  /\ (forall d, ParseDuration (Duration (opts lt)) = inl d ->
        0 <= Connections (opts lt) ->
        (ret (Run lt now0 now1 sched) = ReturnNil
         \/ ret (Run lt now0 now1 sched) = RunWaits)
        /\ forall io,
             ret (Run lt now0 now1
                    (sched ++ drain (Z.to_nat (Connections (opts lt))) 5 io))
             = ReturnNil).
Proof.
  split; [|split].
  - unfold Run. destruct (ParseDuration (Duration (opts lt))) as [d|e].
    + split; [|intros [e He]; discriminate].
      intros [e He]. exfalso. revert He.
      destruct (Connections (opts lt) <? 0); [discriminate|].
      destruct (exec _ _ _) as [s|]; [|discriminate].
      destruct (ctxDone s && forallb is_returned (workers s)); discriminate.
    + split; intros _; eexists; reflexivity.
  - intros e He. unfold Run. rewrite He. reflexivity.
  - intros d Hd Hc. unfold Run. rewrite Hd.
    replace (Connections (opts lt) <? 0) with false by (symmetry; apply Z.ltb_ge; exact Hc).
    set (s0 := mkSys (set_StartTime now0 (lt_results lt)) (lt_ctxDone lt) 0
                 (repeat PCAcquire (Z.to_nat (Connections (opts lt)))) []).
    assert (Hinv0 : PoolInv (opts lt) s0) by (apply Run_start_PoolInv; exact Hc).
    destruct (exec_total (opts lt) sched s0) as [s1 Hs1].
    split.
    + rewrite Hs1. destruct (ctxDone s1 && forallb is_returned (workers s1)); auto.
    + intros io. rewrite exec_app, Hs1.
      pose proof (exec_PoolInv _ _ _ _ Hinv0 Hs1) as Hinv1.
      pose proof (exec_length _ _ _ _ Hs1) as Hlen. simpl in Hlen.
      rewrite repeat_length in Hlen. rewrite <- Hlen.
      destruct (drain_returns (opts lt) io s1 Hinv1) as (s' & -> & Hd' & Hall).
      rewrite Hd', Hall. reflexivity.
Qed.

(* --------------------------------------------------------------------- *)
(** *** Whole operations: what the aggregate holds *)
(* --------------------------------------------------------------------- *)

Lemma apply_ops_snoc (ops : list CriticalOp) (op : CriticalOp) (r : TestResults) :
  apply_ops (ops ++ [op]) r
  = match apply_ops ops r with Some r1 => apply_op op r1 | None => None end.
Proof.
  revert r. induction ops as [|op' ops IH]; intros r; simpl.
  - destruct (apply_op op r); reflexivity.
  - destruct (apply_op op' r); [apply IH | reflexivity].
Qed.

Lemma mu_step_Linearized (r0 : TestResults) (a : MuAction) (s s' : MuState) :
  Linearized r0 s -> mu_step a s = Some s' -> Linearized r0 s'.
Proof.
  unfold Linearized, mu_step. intros Hinv Hstep.
  destruct a as [g op | g | g]; destruct (holder s) as [h|] eqn:Eh; try discriminate.
  - injection Hstep as <-. simpl. exists (shared s). split; [exact Hinv | reflexivity].
  - destruct (g =? h_goroutine h)%nat; [|discriminate].
    destruct (h_rest h) as [|st rest] eqn:Er; [discriminate|].
    destruct (st (shared s)) as [r1|] eqn:Est; [|discriminate].
    injection Hstep as <-. simpl. destruct Hinv as (r2 & Hr2 & Hrun).
    exists r2. split; [exact Hr2|]. rewrite <- Hrun. simpl. rewrite Est. reflexivity.
  - destruct (g =? h_goroutine h)%nat; [|discriminate].
    destruct (h_rest h) as [|st rest] eqn:Er; [|discriminate].
    injection Hstep as <-. simpl. destruct Hinv as (r2 & Hr2 & Hrun).
    rewrite apply_ops_snoc, Hr2, <- Hrun. reflexivity.
Qed.

(** X1. Whatever the interleaving, the aggregate a reader finds is the
    one obtained by running the completed critical sections one after
    the other, each as a whole, in the order of their unlocks. *)
Theorem mutex_linearizes (r0 : TestResults) (acts : list MuAction) (s : MuState) :
  mu_run acts (mkMuState r0 None []) = Some s ->
  observable s ->
  apply_ops (completed s) r0 = Some (shared s).
Proof.
  intros Hrun Hobs.
  assert (Hinv : Linearized r0 s).
  { assert (H0 : Linearized r0 (mkMuState r0 None [])) by reflexivity.
    revert Hrun H0. generalize (mkMuState r0 None []).
    induction acts as [|a acts IH]; simpl; intros s0 Hrun H0.
    - injection Hrun as <-. exact H0.
    - destruct (mu_step a s0) as [s1|] eqn:E; [|discriminate].
      apply (IH s1 Hrun). eapply mu_step_Linearized; eauto. }
  unfold Linearized in Hinv. unfold observable in Hobs. rewrite Hobs in Hinv. exact Hinv.
Qed.

(** What one whole operation does to the fields of the samples. *)
Lemma apply_op_samples (op : CriticalOp) (r r' : TestResults) :
  apply_op op r = Some r' ->
  Latencies r' = (Latencies r ++ latencies_of [op])%list
  /\ TotalLatency r' = GoInt.wrap64 (TotalLatency r + sum_Z (latencies_of [op]))
     \/ (latencies_of [op] = [] /\ Latencies r' = Latencies r
         /\ TotalLatency r' = TotalLatency r).
Proof.
  unfold apply_op. destruct op as [latency message | errorType err | dataLen]; simpl.
  - intros H. injection H as <-. left.
    destruct (latency >? PeakResponseTime r); simpl;
      (split; [reflexivity | unfold GoInt.add; f_equal; lia]).
  - destruct (_ !! categorizeError err) as [info|]; simpl.
    + destruct (length (Examples info) <? 3)%nat; [destruct err|];
        intros H; try discriminate; injection H as <-; simpl; right; auto.
    + intros H. injection H as <-. simpl. right. auto.
  - intros H. injection H as <-. simpl. right. auto.
Qed.

Lemma apply_op_bytes (op : CriticalOp) (r r' : TestResults) :
  apply_op op r = Some r' ->
  BytesSent r' = (if is_success op then GoInt.wrap64 (BytesSent r + sent_of [op])
                  else BytesSent r)
  /\ BytesReceived r' = (match op with
                         | OpOnMessage _ => GoInt.wrap64 (BytesReceived r + received_of [op])
                         | _ => BytesReceived r
                         end)
  /\ PeakResponseTime r' = peak_of (PeakResponseTime r) (latencies_of [op]).
Proof.
  unfold apply_op. destruct op as [latency message | errorType err | dataLen]; simpl.
  - intros H. injection H as <-. unfold GoInt.add, peak_of. simpl.
    destruct (latency >? PeakResponseTime r) eqn:E; simpl.
    + rewrite Z.add_0_r. repeat split. apply Z.gtb_lt in E. lia.
    + rewrite Z.add_0_r. repeat split. rewrite Z.gtb_ltb in E. apply Z.ltb_ge in E. lia.
  - destruct (_ !! categorizeError err) as [info|]; simpl.
    + destruct (length (Examples info) <? 3)%nat; [destruct err|];
        intros H; try discriminate; injection H as <-; simpl; auto.
    + intros H. injection H as <-. simpl. auto.
  - intros H. injection H as <-. unfold GoInt.add. simpl. rewrite Z.add_0_r. auto.
Qed.

Lemma latencies_of_app (ops1 ops2 : list CriticalOp) :
  latencies_of (ops1 ++ ops2) = (latencies_of ops1 ++ latencies_of ops2)%list.
Proof.
  induction ops1 as [|op ops1 IH]; simpl; [reflexivity|].
  destruct op; simpl; rewrite IH; reflexivity.
Qed.

Lemma sent_of_app (ops1 ops2 : list CriticalOp) :
  sent_of (ops1 ++ ops2) = sent_of ops1 + sent_of ops2.
Proof.
  induction ops1 as [|op ops1 IH]; simpl; [reflexivity|].
  destruct op; simpl; rewrite IH; lia.
Qed.

Lemma received_of_app (ops1 ops2 : list CriticalOp) :
  received_of (ops1 ++ ops2) = received_of ops1 + received_of ops2.
Proof.
  induction ops1 as [|op ops1 IH]; simpl; [reflexivity|].
  destruct op; simpl; rewrite IH; lia.
Qed.

Lemma sum_Z_app (l1 l2 : list Z) : sum_Z (l1 ++ l2) = sum_Z l1 + sum_Z l2.
Proof. induction l1 as [|x l1 IH]; simpl; [reflexivity | rewrite IH; lia]. Qed.

Lemma peak_of_app (p : Z) (l1 l2 : list Z) :
  peak_of p (l1 ++ l2) = peak_of (peak_of p l1) l2.
Proof. unfold peak_of. apply fold_left_app. Qed.

Lemma apply_ops_Counters (ops : list CriticalOp) (r0 r : TestResults) :
  GoInt.inRange (TotalRequests r0) -> GoInt.inRange (SuccessfulReqs r0) ->
  GoInt.inRange (FailedReqs r0) ->
  apply_ops ops r0 = Some r -> Counters r0 ops r.
Proof.
  intros Ht Hs Hf. revert r. induction ops as [|op ops IH] using rev_ind; intros r H.
  - injection H as <-. unfold Counters, count_ops. simpl. rewrite !Z.add_0_r.
    rewrite !wrap64_inRange by assumption. auto.
  - rewrite apply_ops_snoc in H. destruct (apply_ops ops r0) as [r1|]; [|discriminate].
    eapply body_preserves_Counters; [apply IH; reflexivity | exact H].
Qed.

(** The bookkeeping of the samples, from any aggregate. *)
Lemma apply_ops_samples (ops : list CriticalOp) (r0 r : TestResults) :
  GoInt.inRange (TotalLatency r0) -> GoInt.inRange (BytesSent r0) ->
  GoInt.inRange (BytesReceived r0) ->
  apply_ops ops r0 = Some r ->
  Latencies r = (Latencies r0 ++ latencies_of ops)%list
  /\ TotalLatency r = GoInt.wrap64 (TotalLatency r0 + sum_Z (latencies_of ops))
  /\ BytesSent r = GoInt.wrap64 (BytesSent r0 + sent_of ops)
  /\ BytesReceived r = GoInt.wrap64 (BytesReceived r0 + received_of ops)
  /\ PeakResponseTime r = peak_of (PeakResponseTime r0) (latencies_of ops).
Proof.
  intros Ht Hs Hr. revert r. induction ops as [|op ops IH] using rev_ind; intros r H.
  - injection H as <-. simpl. rewrite app_nil_r, !Z.add_0_r.
    rewrite !wrap64_inRange by assumption. auto.
  - rewrite apply_ops_snoc in H. destruct (apply_ops ops r0) as [r1|]; [|discriminate].
    destruct (IH r1 eq_refl) as (Hl & Htl & Hbs & Hbr & Hp).
    destruct (apply_op_bytes op r1 r H) as (Hbs' & Hbr' & Hp').
    rewrite latencies_of_app, sum_Z_app, sent_of_app, received_of_app, peak_of_app.
    split; [|split; [|split; [|split]]].
    + destruct (apply_op_samples op r1 r H) as [[H1 _] | (H0 & H1 & _)].
      * rewrite H1, Hl, app_assoc. reflexivity.
      * rewrite H1, Hl, H0, app_nil_r. reflexivity.
    + destruct (apply_op_samples op r1 r H) as [[_ H1] | (H0 & _ & H1)].
      * rewrite H1, Htl, wrap64_add_l. f_equal. lia.
      * rewrite H1, Htl, H0. simpl. f_equal. lia.
    + rewrite Hbs'. destruct op; simpl.
      * rewrite Hbs, wrap64_add_l. f_equal. lia.
      * rewrite Hbs. f_equal. lia.
      * rewrite Hbs. f_equal. lia.
    + rewrite Hbr'. destruct op; simpl.
      * rewrite Hbr. f_equal. lia.
      * rewrite Hbr. f_equal. lia.
      * rewrite Hbr, wrap64_add_l. f_equal. lia.
    + rewrite Hp', Hp. reflexivity.
Qed.

Lemma latencies_of_length (ops : list CriticalOp) :
  Z.of_nat (length (latencies_of ops)) = count_ops is_success ops.
Proof.
  induction ops as [|op ops IH] using rev_ind; [reflexivity|].
  rewrite latencies_of_app, length_app, count_ops_snoc, Nat2Z.inj_add, IH.
  destruct op; simpl; lia.
Qed.

Lemma Fresh_inRange (r0 : TestResults) :
  Fresh r0 ->
  GoInt.inRange (TotalRequests r0) /\ GoInt.inRange (SuccessfulReqs r0)
  /\ GoInt.inRange (FailedReqs r0) /\ GoInt.inRange (TotalLatency r0)
  /\ GoInt.inRange (BytesSent r0) /\ GoInt.inRange (BytesReceived r0).
Proof.
  intros (-> & -> & -> & -> & _ & _ & -> & -> & _).
  unfold GoInt.inRange, GoInt.minInt64, GoInt.maxInt64. lia.
Qed.

(** X2. On a fresh aggregate, after any sequence of whole operations:
    the samples are the elapsed times of the successful sends in the
    order they were recorded, one per counted success; the running sum
    is their sum; the byte counters are the bytes of the messages sent
    and of the data received (all in 64-bit arithmetic). *)
Theorem samples_bookkeeping (r0 r : TestResults) (ops : list CriticalOp) :
  Fresh r0 ->
  apply_ops ops r0 = Some r ->
  Latencies r = latencies_of ops
  /\ SuccessfulReqs r = GoInt.wrap64 (Z.of_nat (length (Latencies r)))
  /\ TotalLatency r = GoInt.wrap64 (sum_Z (Latencies r))
  /\ BytesSent r = GoInt.wrap64 (sent_of ops)
  /\ BytesReceived r = GoInt.wrap64 (received_of ops).
Proof.
  intros HF H.
  destruct (Fresh_inRange r0 HF) as (Ht & Hs & Hf & Htl & Hbs & Hbr).
  destruct (apply_ops_samples ops r0 r Htl Hbs Hbr H) as (Hl & Hsum & Hsent & Hrecv & _).
  destruct (apply_ops_Counters ops r0 r Ht Hs Hf H) as (_ & Hsucc & _).
  destruct HF as (_ & Hs0 & _ & Htl0 & Hl0 & _ & Hbs0 & Hbr0 & _).
  rewrite Hl0 in Hl. simpl in Hl.
  rewrite Hl, latencies_of_length, Hsucc, Hs0, Hsum, Htl0, Hsent, Hbs0, Hrecv, Hbr0.
  repeat split.
Qed.

Lemma peak_of_bound (l : list Z) (p : Z) :
  p <= peak_of p l
  /\ Forall (fun x => x <= peak_of p l) l
  /\ (peak_of p l = p \/ In (peak_of p l) l).
Proof.
  revert p. induction l as [|x l IH]; intros p; unfold peak_of in *; simpl.
  - split; [lia|]. split; [constructor | left; reflexivity].
  - destruct (IH (Z.max p x)) as (H1 & H2 & H3).
    split; [lia|]. split; [constructor; [lia | exact H2]|].
    destruct H3 as [H3|H3]; [|right; right; exact H3].
    destruct (Z.max_spec p x) as [[_ Hm]|[_ Hm]]; rewrite Hm in *.
    + right. left. symmetry. exact H3.
    + left. exact H3.
Qed.

(** X3. On a fresh aggregate, after any sequence of whole operations the
    peak response time is the maximum of 0 and the samples: no sample
    exceeds it, and it is 0 or one of the samples. *)
Theorem peak_is_maximum (r0 r : TestResults) (ops : list CriticalOp) :
  Fresh r0 ->
  apply_ops ops r0 = Some r ->
  PeakResponseTime r = peak_of 0 (Latencies r)
  /\ 0 <= PeakResponseTime r
  /\ (forall x, In x (Latencies r) -> x <= PeakResponseTime r)
  /\ (PeakResponseTime r = 0 \/ In (PeakResponseTime r) (Latencies r)).
Proof.
  intros HF H.
  destruct (Fresh_inRange r0 HF) as (_ & _ & _ & Htl & Hbs & Hbr).
  destruct (apply_ops_samples ops r0 r Htl Hbs Hbr H) as (Hl & _ & _ & _ & Hp).
  destruct HF as (_ & _ & _ & _ & Hl0 & Hp0 & _).
  rewrite Hl0 in Hl. simpl in Hl. rewrite Hp0, <- Hl in Hp.
  destruct (peak_of_bound (Latencies r) 0) as (H1 & H2 & H3).
  rewrite Hp. split; [reflexivity|]. split; [exact H1|]. split; [|exact H3].
  intros x Hx. rewrite Forall_forall in H2. apply H2, list_elem_of_In, Hx.
Qed.

(* --------------------------------------------------------------------- *)
(** *** Whole operations: the two error maps *)
(* --------------------------------------------------------------------- *)

Lemma failures_with_app (k : string) (ops1 ops2 : list CriticalOp) :
  failures_with k (ops1 ++ ops2) = failures_with k ops1 + failures_with k ops2.
Proof.
  induction ops1 as [|op ops1 IH]; simpl; [reflexivity|].
  destruct op; simpl; rewrite IH; lia.
Qed.

Lemma failures_with_nonneg (k : string) (ops : list CriticalOp) :
  0 <= failures_with k ops.
Proof.
  induction ops as [|op ops IH]; simpl; [lia|].
  destruct op; simpl; try exact IH. destruct (String.eqb _ _); lia.
Qed.

Lemma failures_in_app (c : string) (ops1 ops2 : list CriticalOp) :
  failures_in c (ops1 ++ ops2) = failures_in c ops1 + failures_in c ops2.
Proof.
  induction ops1 as [|op ops1 IH]; simpl; [reflexivity|].
  destruct op; simpl; rewrite IH; lia.
Qed.

Lemma failures_in_bound (c : string) (ops : list CriticalOp) :
  0 <= failures_in c ops <= count_ops is_failure ops.
Proof.
  induction ops as [|op ops IH] using rev_ind; [unfold count_ops; simpl; lia|].
  rewrite failures_in_app, count_ops_snoc. destruct op; simpl; try lia.
  destruct (String.eqb _ _); lia.
Qed.

Lemma apply_op_ErrorCounts (op : CriticalOp) (r r' : TestResults) :
  apply_op op r = Some r' ->
  ErrorCounts r'
  = match op with
    | OpRecordError errorType _ =>
        <[errorType := GoInt.incr (default 0 (ErrorCounts r !! errorType))]> (ErrorCounts r)
    | _ => ErrorCounts r
    end.
Proof.
  unfold apply_op. destruct op as [latency message | errorType err | dataLen]; simpl.
  - intros H. injection H as <-. destruct (latency >? PeakResponseTime r); reflexivity.
  - destruct (_ !! categorizeError err) as [info|]; simpl.
    + destruct (length (Examples info) <? 3)%nat; [destruct err|];
        intros H; try discriminate; injection H as <-; reflexivity.
    + intros H. injection H as <-. reflexivity.
  - intros H. injection H as <-. reflexivity.
Qed.

(** X4. On a fresh aggregate, after any sequence of whole operations the
    map of error signatures has a key exactly for the signatures under
    which a failure was recorded, and its value is the number of those
    failures (in 64-bit arithmetic). *)
Theorem ErrorCounts_count (r0 r : TestResults) (ops : list CriticalOp) (k : string) :
  Fresh r0 ->
  apply_ops ops r0 = Some r ->
  ErrorCounts r !! k
  = (if failures_with k ops =? 0 then None
     else Some (GoInt.wrap64 (failures_with k ops))).
Proof.
  intros HF. destruct HF as (_ & _ & _ & _ & _ & _ & _ & _ & He0 & _).
  revert r. induction ops as [|op ops IH] using rev_ind; intros r H.
  - injection H as <-. rewrite He0. simpl. apply lookup_empty.
  - rewrite apply_ops_snoc in H. destruct (apply_ops ops r0) as [r1|]; [|discriminate].
    specialize (IH r1 eq_refl).
    rewrite (apply_op_ErrorCounts op r1 r H), failures_with_app.
    pose proof (failures_with_nonneg k ops) as Hn.
    destruct op as [latency message | errorType err | dataLen]; simpl;
      rewrite ?Z.add_0_r; try exact IH.
    destruct (String.eqb_spec errorType k) as [->|Hne].
    + rewrite lookup_insert_eq, IH.
      replace (failures_with k ops + 1 =? 0) with false
        by (symmetry; apply Z.eqb_neq; lia).
      f_equal. destruct (failures_with k ops =? 0) eqn:E.
      * apply Z.eqb_eq in E. rewrite E. reflexivity.
      * simpl. apply wrap64_succ.
    + rewrite lookup_insert_ne by exact Hne. rewrite ?Z.add_0_r. exact IH.
Qed.

Lemma categorizeError_in_nine (err : error) : In (categorizeError err) nineCategories.
Proof.
  destruct err as [msg|].
  - rewrite categorizeError_firstMatch. apply firstMatch_in.
  - simpl. unfold nineCategories. simpl. tauto.
Qed.

Lemma CategoriesInv_init : CategoriesInv [] initializeErrorCategories.
Proof.
  split.
  - intros c Hc. unfold nineCategories in Hc. simpl in Hc.
    repeat (destruct Hc as [<-|Hc];
            [eexists; eexists; split; [reflexivity|]; split; [reflexivity|];
             split; reflexivity|]).
    contradiction.
  - intros c Hc. unfold initializeErrorCategories.
    repeat (rewrite lookup_insert_ne;
            [|intros <-; apply Hc; unfold nineCategories; simpl; tauto]).
    apply lookup_empty.
Qed.

Lemma apply_op_CategoriesInv (ops : list CriticalOp) (op : CriticalOp)
    (r r' : TestResults) :
  CategoriesInv ops (ErrorCategories r) ->
  apply_op op r = Some r' ->
  CategoriesInv (ops ++ [op]) (ErrorCategories r').
Proof.
  intros [Hin Hout] H.
  assert (Hsame : ErrorCategories r' = ErrorCategories r ->
                  failures_in_same op ->
                  CategoriesInv (ops ++ [op]) (ErrorCategories r')).
  { intros -> Hs. split; [|exact Hout].
    intros c Hc. destruct (Hin c Hc) as (info & info0 & H1 & H2 & H3 & H4).
    exists info, info0. rewrite failures_in_app, (Hs c), Z.add_0_r. auto. }
  unfold apply_op in H.
  destruct op as [latency message | errorType err | dataLen]; simpl in H.
  - injection H as <-. apply Hsame; [|intros c; reflexivity].
    destruct (latency >? PeakResponseTime r); reflexivity.
  - pose proof (categorizeError_in_nine err) as Hcat.
    destruct (Hin _ Hcat) as (info & info0 & H1 & H2 & H3 & H4).
    rewrite H1 in H.
    assert (Hgoal : forall ex,
      CategoriesInv (ops ++ [OpRecordError errorType err])
        (<[categorizeError err :=
             mkErrorCategoryInfo (GoInt.incr (Count info)) (Description info) ex]>
           (ErrorCategories r))).
    { intros ex. split.
      - intros c Hc. rewrite failures_in_app. simpl.
        destruct (String.eqb_spec (categorizeError err) c) as [<-|Hne].
        + exists (mkErrorCategoryInfo (GoInt.incr (Count info)) (Description info) ex), info0.
          rewrite lookup_insert_eq. split; [reflexivity|]. split; [exact H2|].
          simpl. split; [|exact H4]. rewrite H3, wrap64_succ. f_equal; lia.
        + destruct (Hin c Hc) as (i & i0 & G1 & G2 & G3 & G4).
          exists i, i0. rewrite lookup_insert_ne by exact Hne.
          rewrite !Z.add_0_r. auto.
      - intros c Hc. rewrite lookup_insert_ne; [apply Hout, Hc|].
        intros <-. apply Hc, Hcat. }
    destruct (length (Examples info) <? 3)%nat; [destruct err as [msg|]|];
      try discriminate; injection H as <-; simpl; apply Hgoal.
  - injection H as <-. apply Hsame; [reflexivity | intros c; reflexivity].
Qed.

Lemma failures_in_one (op : CriticalOp) :
  sum_Z (map (fun c => failures_in c [op]) nineCategories)
  = (if is_failure op then 1 else 0).
Proof.
  destruct op as [latency message | errorType err | dataLen]; try reflexivity.
  pose proof (categorizeError_in_nine err) as Hcat.
  unfold nineCategories in *. simpl in Hcat. simpl map. unfold failures_in.
  repeat (destruct Hcat as [Hcat|Hcat]; [rewrite <- Hcat; reflexivity|]).
  contradiction.
Qed.

Lemma failures_partition (ops : list CriticalOp) :
  sum_Z (map (fun c => failures_in c ops) nineCategories) = count_ops is_failure ops.
Proof.
  induction ops as [|op ops IH] using rev_ind; [reflexivity|].
  rewrite count_ops_snoc, <- IH, <- (failures_in_one op).
  unfold nineCategories, sum_Z. cbn [map fold_right].
  rewrite !failures_in_app. lia.
Qed.

Lemma apply_ops_CategoriesInv (ops : list CriticalOp) (r0 r : TestResults) :
  CategoriesInv [] (ErrorCategories r0) ->
  apply_ops ops r0 = Some r -> CategoriesInv ops (ErrorCategories r).
Proof.
  intros H0. revert r. induction ops as [|op ops IH] using rev_ind; intros r H.
  - injection H as <-. exact H0.
  - rewrite apply_ops_snoc in H. destruct (apply_ops ops r0) as [r1|]; [|discriminate].
    eapply apply_op_CategoriesInv; [apply IH; reflexivity | exact H].
Qed.

(** X5. On a fresh aggregate, after any sequence of whole operations the
    category map still has exactly the nine categories, each with its
    description of the start and with the number of failures the
    classifier put in it as its count; every failure is in exactly one
    category, so that (while the number of failures fits an [int]) the
    counts of the nine categories add up to [FailedReqs]. *)
Theorem category_counts_partition (r0 r : TestResults) (ops : list CriticalOp) :
  Fresh r0 ->
  apply_ops ops r0 = Some r ->
  (forall c, In c nineCategories ->
     exists info info0,
       ErrorCategories r !! c = Some info
       /\ initializeErrorCategories !! c = Some info0
       /\ Count info = GoInt.wrap64 (failures_in c ops)
       /\ Description info = Description info0)
  /\ (forall c, ~ In c nineCategories -> ErrorCategories r !! c = None)
  /\ sum_Z (map (fun c => failures_in c ops) nineCategories) = count_ops is_failure ops
  /\ (count_ops is_failure ops <= GoInt.maxInt64 ->
      sum_Z (map (category_count r) nineCategories) = FailedReqs r).
Proof.
  intros HF H.
  destruct (Fresh_inRange r0 HF) as (Ht & Hs & Hf & _).
  destruct (apply_ops_Counters ops r0 r Ht Hs Hf H) as (_ & _ & Hfail).
  destruct HF as (_ & _ & Hf0 & _ & _ & _ & _ & _ & _ & Hc0).
  assert (Hinv : CategoriesInv ops (ErrorCategories r)).
  { apply (apply_ops_CategoriesInv ops r0 r); [|exact H].
    rewrite Hc0. exact CategoriesInv_init. }
  destruct Hinv as [Hin Hout].
  split; [exact Hin|]. split; [exact Hout|]. split; [apply failures_partition|].
  intros Hmax. rewrite Hfail, Hf0, Z.add_0_l.
  pose proof (count_ops_nonneg is_failure ops) as Hn.
  rewrite wrap64_inRange
    by (unfold GoInt.inRange, GoInt.minInt64, GoInt.maxInt64 in *; lia).
  rewrite <- failures_partition. f_equal.
  apply map_ext_in. intros c Hc.
  destruct (Hin c Hc) as (info & info0 & H1 & _ & H3 & _).
  unfold category_count. rewrite H1, H3.
  pose proof (failures_in_bound c ops) as Hb.
  apply wrap64_inRange.
  unfold GoInt.inRange, GoInt.minInt64, GoInt.maxInt64 in *. lia.
Qed.

(* --------------------------------------------------------------------- *)
(** *** Runs: the aggregate behind the report *)
(* --------------------------------------------------------------------- *)

Lemma apply_ops_app (ops1 ops2 : list CriticalOp) (r : TestResults) :
  apply_ops (ops1 ++ ops2) r
  = match apply_ops ops1 r with Some r1 => apply_ops ops2 r1 | None => None end.
Proof.
  revert r. induction ops1 as [|op ops1 IH]; intros r; simpl; [reflexivity|].
  destruct (apply_op op r); [apply IH | reflexivity].
Qed.

(** Every action of a schedule is no operation on the aggregate, or one
    whole operation. *)
Lemma step_apply_ops (o : TestOptions) (a : Action) (s s' : Sys) :
  step o a s = Some s' ->
  exists ops, apply_ops ops (results s) = Some (results s').
Proof.
  destruct a as [|connID io|dataLen]; simpl.
  - intros H. injection H as <-. exists []. reflexivity.
  - destruct (workers s !! connID) as [pc|]; [|intros H; injection H as <-; exists []; reflexivity].
    destruct pc; simpl.
    + destruct (pool s <? Connections o); intros H; injection H as <-; exists []; reflexivity.
    + destruct (io_err io) as [msg|] eqn:E.
      * destruct (recordError _ _ _) as [r'|] eqn:Er; [|discriminate].
        intros H. injection H as <-.
        exists [OpRecordError ("client_creation_failed_" ++ itoa (Z.of_nat connID)) (Some msg)].
        cbn [apply_ops]. unfold apply_op. cbn [body_of].
        unfold recordError in Er. rewrite Er. reflexivity.
      * intros H. injection H as <-. exists []. reflexivity.
    + destruct (i <? Loop o); [destruct (ctxDone s)|]; intros H; injection H as <-;
        exists []; reflexivity.
    + destruct (sendMessage _ _ _ _ _ _) as [r'|] eqn:Es; [|discriminate].
      intros H. injection H as <-. cbn [results]. unfold sendMessage in Es.
      destruct (io_err io) as [msg|].
      * exists [OpRecordError ("send_failed_" ++ itoa (Z.of_nat connID) ++ "_" ++ itoa i)
                  (Some msg)].
        cbn [apply_ops]. unfold apply_op. cbn [body_of].
        unfold recordError in Es. rewrite Es. reflexivity.
      * exists [OpSendOK (io_latency io) (Message o)].
        cbn [apply_ops]. unfold apply_op. cbn [body_of]. rewrite Es. reflexivity.
    + intros H. injection H as <-. exists []. reflexivity.
    + intros H. injection H as <-. exists []. reflexivity.
    + intros H. injection H as <-. exists []. reflexivity.
  - intros H. injection H as <-. exists [OpOnMessage dataLen]. reflexivity.
Qed.

Lemma exec_apply_ops (o : TestOptions) (acts : list Action) (s s' : Sys) :
  exec o acts s = Some s' ->
  exists ops, apply_ops ops (results s) = Some (results s').
Proof.
  revert s. induction acts as [|a acts IH]; simpl; intros s H.
  - injection H as <-. exists []. reflexivity.
  - destruct (step o a s) as [s1|] eqn:E; [|discriminate].
    destruct (step_apply_ops o a s s1 E) as [ops1 H1].
    destruct (IH s1 H) as [ops2 H2].
    exists (ops1 ++ ops2)%list. rewrite apply_ops_app, H1. exact H2.
Qed.

Lemma sum_Z_le (l : list Z) (p : Z) :
  Forall (fun x => x <= p) l -> sum_Z l <= Z.of_nat (length l) * p.
Proof.
  induction 1 as [|x l Hx _ IH]; [simpl; lia|].
  change (sum_Z (x :: l)) with (x + sum_Z l).
  change (length (x :: l)) with (S (length l)).
  rewrite Nat2Z.inj_succ. nia.
Qed.

Lemma quot_le_peak (sum n p : Z) : 0 < n -> 0 <= p -> sum <= n * p -> Z.quot sum n <= p.
Proof.
  intros Hn Hp Hs. destruct (Z.le_gt_cases 0 sum) as [H0|H0].
  - rewrite Z.quot_div_nonneg by lia. apply Z.div_le_upper_bound; lia.
  - assert (Z.quot sum n <= 0).
    { replace sum with (- (- sum)) by lia. rewrite Z.quot_opp_l by lia.
      pose proof (Z.quot_pos (- sum) n). lia. }
    lia.
Qed.

Lemma quot_inRange (sum n : Z) : GoInt.inRange sum -> 0 < n -> GoInt.inRange (Z.quot sum n).
Proof.
  unfold GoInt.inRange, GoInt.minInt64, GoInt.maxInt64. intros Hs Hn.
  destruct (Z.le_gt_cases 0 sum) as [H0|H0].
  - pose proof (Z.quot_pos sum n). pose proof (Z.quot_le_upper_bound sum n sum).
    assert (Z.quot sum n <= sum) by (apply Z.quot_le_upper_bound; nia). lia.
  - replace sum with (- (- sum)) by lia. rewrite Z.quot_opp_l by lia.
    pose proof (Z.quot_pos (- sum) n).
    assert (Z.quot (- sum) n <= - sum) by (apply Z.quot_le_upper_bound; nia). lia.
Qed.

Lemma middle_le (l : list Z) (p : Z) :
  Forall (fun x => x <= p) l -> 0 <= p ->
  (if (0 <? length l)%nat then nth (length l / 2)%nat l 0 else 0) <= p.
Proof.
  intros H Hp. destruct l as [|x l]; [exact Hp|].
  cbn [length Nat.ltb Nat.leb].
  rewrite Forall_forall in H. apply H, list_elem_of_In, nth_In.
  apply Nat.div_lt; cbn [length]; lia.
Qed.

(** What a fresh aggregate and its operations mean for the report. *)
Lemma printResults_bounds (r0 r : TestResults) (ops : list CriticalOp) (t : Z) :
  Fresh r0 ->
  apply_ops ops r0 = Some r ->
  let rep := printResults (set_EndTime t r) in
  rP50Latency rep <= rPeakResponseTime rep
  /\ 0 <= rPeakResponseTime rep
  /\ (Latencies r <> [] ->
      GoInt.inRange (sum_Z (Latencies r)) ->
      Z.of_nat (length (Latencies r)) <= GoInt.maxInt64 ->
      rAvgLatency rep = Z.quot (sum_Z (Latencies r)) (Z.of_nat (length (Latencies r)))
      /\ rAvgLatency rep <= rPeakResponseTime rep).
Proof.
  intros HF H.
  destruct (Fresh_inRange r0 HF) as (Ht & Hs & Hf & Htl & Hbs & Hbr).
  destruct (apply_ops_samples ops r0 r Htl Hbs Hbr H) as (Hl & Hsum & _ & _ & Hp).
  destruct (apply_ops_Counters ops r0 r Ht Hs Hf H) as (_ & Hsucc & _).
  destruct HF as (_ & Hs0 & _ & Htl0 & Hl0 & Hp0 & _).
  rewrite Hl0 in Hl. simpl in Hl. rewrite Hp0, <- Hl in Hp.
  rewrite Hs0, <- latencies_of_length, <- Hl, Z.add_0_l in Hsucc.
  rewrite Htl0, <- Hl, Z.add_0_l in Hsum.
  destruct (peak_of_bound (Latencies r) 0) as (H1 & H2 & _). rewrite <- Hp in H1, H2.
  cbv zeta. unfold printResults.
  cbn [rP50Latency rPeakResponseTime rAvgLatency set_EndTime Latencies
       PeakResponseTime SuccessfulReqs TotalLatency].
  split; [|split; [exact H1|]].
  - apply middle_le; assumption.
  - intros Hne Hrange Hlen.
    assert (Hn : 0 < Z.of_nat (length (Latencies r)))
      by (destruct (Latencies r); [congruence | simpl; lia]).
    rewrite Hsucc, Hsum.
    rewrite (wrap64_inRange (Z.of_nat _))
      by (unfold GoInt.inRange, GoInt.minInt64, GoInt.maxInt64 in *; lia).
    rewrite (wrap64_inRange (sum_Z _)) by exact Hrange.
    replace (Z.of_nat (length (Latencies r)) >? 0) with true
      by (symmetry; apply Z.gtb_lt; lia).
    unfold GoInt.div. rewrite wrap64_inRange by (apply quot_inRange; assumption).
    split; [reflexivity|]. apply quot_le_peak; [exact Hn | exact H1 |].
    apply sum_Z_le. exact H2.
Qed.

(** X6. In the report of every run of a new load test that returns, the
    P50 latency is at most the peak response time; and when the samples
    and their sum fit the integers of the machine, the average latency
    is their sum divided by their number (rounded toward zero) and is at
    most the peak as well. *)
Theorem report_within_peak (o : TestOptions) (now0 now1 : Z) (sched : list Action) :
  let res := Run (NewLoadTest o) now0 now1 sched in
  let samples := Latencies (lt_results (after res)) in
  ret res = ReturnNil ->
  exists rep,
    report res = Some rep
    /\ rP50Latency rep <= rPeakResponseTime rep
    /\ 0 <= rPeakResponseTime rep
    /\ (samples <> [] ->
        GoInt.inRange (sum_Z samples) ->
        Z.of_nat (length samples) <= GoInt.maxInt64 ->
        rAvgLatency rep = Z.quot (sum_Z samples) (Z.of_nat (length samples))
        /\ rAvgLatency rep <= rPeakResponseTime rep).
Proof.
  cbv zeta. unfold Run.
  destruct (ParseDuration (Duration (opts (NewLoadTest o)))) as [d|e]; [|discriminate].
  destruct (Connections (opts (NewLoadTest o)) <? 0); [discriminate|].
  destruct (exec _ _ _) as [s|] eqn:E; [|discriminate].
  destruct (ctxDone s && forallb is_returned (workers s)); [|discriminate].
  intros _. simpl.
  destruct (exec_apply_ops _ _ _ _ E) as [ops Hops]. simpl in Hops.
  eexists. split; [reflexivity|].
  apply (printResults_bounds (set_StartTime now0 NewLoadTest_results) (results s) ops now1);
    [|exact Hops].
  repeat split.
Qed.

(* --------------------------------------------------------------------- *)
(** *** Runs: the counters and the trace *)
(* --------------------------------------------------------------------- *)

Lemma count_events_app (p : Event -> bool) (l1 l2 : list Event) :
  count_events p (l1 ++ l2) = count_events p l1 + count_events p l2.
Proof. unfold count_events. rewrite List.filter_app, length_app. lia. Qed.

Lemma count_events_nonneg (p : Event -> bool) (l : list Event) : 0 <= count_events p l.
Proof. unfold count_events. lia. Qed.

Lemma recordError_counters (errorType : string) (err : error) (r r' : TestResults) :
  recordError errorType err r = Some r' ->
  TotalRequests r' = GoInt.incr (TotalRequests r)
  /\ SuccessfulReqs r' = SuccessfulReqs r
  /\ FailedReqs r' = GoInt.incr (FailedReqs r).
Proof. intros H. apply (body_counters (OpRecordError errorType err) r r' H). Qed.

Lemma runConnection_step_counters (o : TestOptions) (connID : Z) (io : IOResult)
    (done : bool) (pc pc' : WorkerPC) (r r' : TestResults) (tokens tokens' : Z)
    (evs : list Event) (ok ko : Z) :
  SuccessfulReqs r = GoInt.wrap64 ok ->
  FailedReqs r = GoInt.wrap64 ko ->
  TotalRequests r = GoInt.wrap64 (ok + ko) ->
  runConnection_step o connID io done pc r tokens = Some (pc', r', tokens', evs) ->
  SuccessfulReqs r' = GoInt.wrap64 (ok + count_events is_send_ok evs)
  /\ FailedReqs r' = GoInt.wrap64 (ko + count_events is_failed_attempt evs)
  /\ TotalRequests r' = GoInt.wrap64 (ok + count_events is_send_ok evs
                                      + (ko + count_events is_failed_attempt evs)).
Proof.
  intros Hs Hf Ht.
  assert (Hsame : forall evs0,
            count_events is_send_ok evs0 = 0 -> count_events is_failed_attempt evs0 = 0 ->
            SuccessfulReqs r = GoInt.wrap64 (ok + count_events is_send_ok evs0)
            /\ FailedReqs r = GoInt.wrap64 (ko + count_events is_failed_attempt evs0)
            /\ TotalRequests r = GoInt.wrap64 (ok + count_events is_send_ok evs0
                                   + (ko + count_events is_failed_attempt evs0))).
  { intros evs0 -> ->. rewrite !Z.add_0_r. auto. }
  assert (Hfail : forall r1 evs0,
            TotalRequests r1 = GoInt.incr (TotalRequests r)
            /\ SuccessfulReqs r1 = SuccessfulReqs r
            /\ FailedReqs r1 = GoInt.incr (FailedReqs r) ->
            count_events is_send_ok evs0 = 0 -> count_events is_failed_attempt evs0 = 1 ->
            SuccessfulReqs r1 = GoInt.wrap64 (ok + count_events is_send_ok evs0)
            /\ FailedReqs r1 = GoInt.wrap64 (ko + count_events is_failed_attempt evs0)
            /\ TotalRequests r1 = GoInt.wrap64 (ok + count_events is_send_ok evs0
                                    + (ko + count_events is_failed_attempt evs0))).
  { intros r1 evs0 (H1 & H2 & H3) -> ->. rewrite H1, H2, H3, Hs, Hf, Ht, !wrap64_succ.
    rewrite Z.add_0_r. repeat split; f_equal; lia. }
  destruct pc; simpl.
  - destruct (tokens <? Connections o); intros H; injection H as <- <- <- <-;
      apply Hsame; reflexivity.
  - destruct (io_err io) as [msg|] eqn:E.
    + destruct (recordError _ _ _) as [r1|] eqn:Er; [|discriminate].
      intros H; injection H as <- <- <- <-.
      apply Hfail; [eapply recordError_counters; exact Er | reflexivity | reflexivity].
    + intros H; injection H as <- <- <- <-. apply Hsame; reflexivity.
  - destruct (i <? Loop o); [destruct done|]; intros H; injection H as <- <- <- <-;
      apply Hsame; reflexivity.
  - destruct (sendMessage _ _ _ _ _ _) as [r1|] eqn:Es; [|discriminate].
    intros H; injection H as <- <- <- <-. unfold sendMessage in Es.
    destruct (io_err io) as [msg|].
    + apply Hfail; [eapply recordError_counters; exact Es | reflexivity | reflexivity].
    + destruct (body_counters (OpSendOK (io_latency io) (Message o)) r r1 Es)
        as (H1 & H2 & H3). simpl in H1, H2, H3.
      rewrite H1, H2, H3, Hs, Hf, Ht, !wrap64_succ.
      change (count_events is_send_ok [EvSendReturned connID i None]) with 1.
      change (count_events is_failed_attempt [EvSendReturned connID i None]) with 0.
      rewrite Z.add_0_r. repeat split; f_equal; lia.
  - intros H; injection H as <- <- <- <-. apply Hsame; reflexivity.
  - intros H; injection H as <- <- <- <-. apply Hsame; reflexivity.
  - intros H; injection H as <- <- <- <-. apply Hsame; reflexivity.
Qed.

Lemma step_TraceCounters (o : TestOptions) (a : Action) (s s' : Sys) :
  TraceCounters s -> step o a s = Some s' -> TraceCounters s'.
Proof.
  intros (Hs & Hf & Ht). destruct a as [|connID io|dataLen]; simpl.
  - intros H. injection H as <-. unfold TraceCounters. simpl.
    rewrite !count_events_app.
    change (count_events is_send_ok [EvCancel]) with 0.
    change (count_events is_failed_attempt [EvCancel]) with 0.
    rewrite !Z.add_0_r. auto.
  - destruct (workers s !! connID) as [pc|];
      [|intros H; injection H as <-; repeat split; assumption].
    destruct (runConnection_step _ _ _ _ _ _ _) as [[[[pc' r'] t'] evs]|] eqn:E;
      [|discriminate].
    intros H. injection H as <-. unfold TraceCounters. simpl.
    rewrite !count_events_app.
    apply (runConnection_step_counters _ _ _ _ _ _ _ _ _ _ _ _ _ Hs Hf Ht E).
  - intros H. injection H as <-. unfold TraceCounters. simpl. auto.
Qed.

Lemma exec_TraceCounters (o : TestOptions) (acts : list Action) (s s' : Sys) :
  TraceCounters s -> exec o acts s = Some s' -> TraceCounters s'.
Proof.
  revert s. induction acts as [|a acts IH]; simpl; intros s Hinv H.
  - injection H as <-. exact Hinv.
  - destruct (step o a s) as [s1|] eqn:E; [|discriminate].
    eapply IH; [eapply step_TraceCounters; eauto | exact H].
Qed.

(** X7. In every state of a run started on a fresh aggregate, under any
    schedule, the counters are the numbers of the trace: the successes
    are the sends that returned without error, the failures are the
    sends that returned an error plus the opens that failed, and the
    total is their sum (in 64-bit arithmetic, and as integers while the
    sum fits). *)
Theorem counters_match_trace (o : TestOptions) (r0 : TestResults) (done : bool)
    (sched : list Action) (s : Sys) :
  Fresh r0 ->
  exec o sched (startSys o r0 done) = Some s ->
  let ok := count_events is_send_ok (trace s) in
  let ko := count_events is_failed_attempt (trace s) in
  SuccessfulReqs (results s) = GoInt.wrap64 ok
  /\ FailedReqs (results s) = GoInt.wrap64 ko
  /\ TotalRequests (results s) = GoInt.wrap64 (ok + ko)
  /\ (ok + ko <= GoInt.maxInt64 ->
      SuccessfulReqs (results s) = ok /\ FailedReqs (results s) = ko
      /\ TotalRequests (results s) = ok + ko).
Proof.
  intros HF H. cbv zeta.
  assert (Hinv : TraceCounters s).
  { apply (exec_TraceCounters o sched (startSys o r0 done)); [|exact H].
    destruct HF as (Ht & Hs & Hf & _). unfold TraceCounters. simpl.
    rewrite Ht, Hs, Hf. repeat split. }
  destruct Hinv as (Hs & Hf & Ht).
  split; [exact Hs|]. split; [exact Hf|]. split; [exact Ht|].
  intros Hmax. rewrite Hs, Hf, Ht.
  pose proof (count_events_nonneg is_send_ok (trace s)).
  pose proof (count_events_nonneg is_failed_attempt (trace s)).
  rewrite !wrap64_inRange
    by (unfold GoInt.inRange, GoInt.minInt64, GoInt.maxInt64 in *; lia).
  auto.
Qed.

(** The events of a move carry the identifier of the connection that
    makes it. *)
Lemma runConnection_step_other (o : TestOptions) (connID c : Z) (io : IOResult)
    (done : bool) (pc pc' : WorkerPC) (r r' : TestResults) (tokens tokens' : Z)
    (evs : list Event) :
  connID <> c ->
  runConnection_step o connID io done pc r tokens = Some (pc', r', tokens', evs) ->
  count_events (is_send_of c) evs = 0 /\ count_events (is_open_of c) evs = 0.
Proof.
  intros Hne. apply Z.eqb_neq in Hne.
  destruct pc; simpl.
  - destruct (tokens <? Connections o); intros H; injection H as <- <- <- <-;
      split; reflexivity.
  - destruct (io_err io); [destruct (recordError _ _ _)|]; intros H; try discriminate;
      injection H as <- <- <- <-; unfold count_events; simpl; rewrite Hne; split; reflexivity.
  - destruct (i <? Loop o); [destruct done|]; intros H; injection H as <- <- <- <-;
      unfold count_events; simpl; rewrite ?Hne; split; reflexivity.
  - destruct (sendMessage _ _ _ _ _ _); intros H; try discriminate;
      injection H as <- <- <- <-; split; reflexivity.
  - intros H; injection H as <- <- <- <-; split; reflexivity.
  - intros H; injection H as <- <- <- <-; split; reflexivity.
  - intros H; injection H as <- <- <- <-; split; reflexivity.
Qed.

Lemma runConnection_step_WorkerInv (o : TestOptions) (connID : Z) (io : IOResult)
    (done : bool) (pc pc' : WorkerPC) (r r' : TestResults) (tokens tokens' : Z)
    (evs : list Event) (sends opens : Z) :
  Loop o <= GoInt.maxInt64 ->
  WorkerInv o pc sends opens ->
  runConnection_step o connID io done pc r tokens = Some (pc', r', tokens', evs) ->
  WorkerInv o pc' (sends + count_events (is_send_of connID) evs)
                  (opens + count_events (is_open_of connID) evs).
Proof.
  intros Hmax Hinv.
  assert (Hid : (connID =? connID) = true) by apply Z.eqb_refl.
  destruct pc; simpl in Hinv |- *.
  - destruct (tokens <? Connections o); intros H; injection H as <- <- <- <-;
      unfold count_events; simpl; lia.
  - destruct (io_err io); [destruct (recordError _ _ _)|]; intros H; try discriminate;
      injection H as <- <- <- <-; unfold count_events; simpl; rewrite Hid; simpl; lia.
  - destruct (i <? Loop o) eqn:E; [destruct done|]; intros H; injection H as <- <- <- <-;
      unfold count_events; simpl; rewrite ?Hid; simpl;
      try (apply Z.ltb_lt in E); lia.
  - destruct (sendMessage _ _ _ _ _ _); intros H; try discriminate;
      injection H as <- <- <- <-. unfold count_events. simpl.
    destruct Hinv as (Ho & Hs & Hi).
    assert (Hincr : GoInt.incr i = i + 1).
    { apply wrap64_inRange. unfold GoInt.inRange, GoInt.minInt64, GoInt.maxInt64 in *. lia. }
    rewrite Hincr. lia.
  - intros H; injection H as <- <- <- <-; unfold count_events; simpl; lia.
  - intros H; injection H as <- <- <- <-; unfold count_events; simpl; lia.
  - intros H; injection H as <- <- <- <-; unfold count_events; simpl; lia.
Qed.

Lemma step_WorkersInv (o : TestOptions) (a : Action) (s s' : Sys) :
  Loop o <= GoInt.maxInt64 ->
  WorkersInv o s -> step o a s = Some s' -> WorkersInv o s'.
Proof.
  intros Hmax Hinv. destruct a as [|connID io|dataLen]; simpl.
  - intros H. injection H as <-. intros c pc Hc. simpl in *.
    rewrite !count_events_app.
    change (count_events (is_send_of (Z.of_nat c)) [EvCancel]) with 0.
    change (count_events (is_open_of (Z.of_nat c)) [EvCancel]) with 0.
    rewrite !Z.add_0_r. apply Hinv, Hc.
  - destruct (workers s !! connID) as [pc0|] eqn:E0;
      [|intros H; injection H as <-; exact Hinv].
    destruct (runConnection_step _ _ _ _ _ _ _) as [[[[pc' r'] t'] evs]|] eqn:E;
      [|discriminate].
    intros H. injection H as <-. intros c pc Hc. simpl in *.
    rewrite !count_events_app.
    apply list_lookup_insert_Some in Hc.
    destruct Hc as [(<- & <- & _) | (Hne & Hc)].
    + eapply runConnection_step_WorkerInv; [exact Hmax | apply Hinv, E0 | exact E].
    + assert (Hz : Z.of_nat connID <> Z.of_nat c) by lia.
      destruct (runConnection_step_other _ _ _ _ _ _ _ _ _ _ _ _ Hz E) as [-> ->].
      rewrite !Z.add_0_r. apply Hinv, Hc.
  - intros H. injection H as <-. exact Hinv.
Qed.

Lemma exec_WorkersInv (o : TestOptions) (acts : list Action) (s s' : Sys) :
  Loop o <= GoInt.maxInt64 ->
  WorkersInv o s -> exec o acts s = Some s' -> WorkersInv o s'.
Proof.
  intros Hmax. revert s. induction acts as [|a acts IH]; simpl; intros s Hinv H.
  - injection H as <-. exact Hinv.
  - destruct (step o a s) as [s1|] eqn:E; [|discriminate].
    eapply IH; [eapply step_WorkersInv; eauto | exact H].
Qed.

Lemma WorkerInv_bounds (o : TestOptions) (pc : WorkerPC) (sends opens : Z) :
  WorkerInv o pc sends opens ->
  0 <= opens <= 1 /\ 0 <= sends <= Z.max 0 (Loop o).
Proof. destruct pc; simpl; lia. Qed.

(** X8. In every state of a run, under any schedule, each connection
    has opened at most once and has begun at most as many sends as the
    repeat count asks for (none when that count is not positive); a
    connection at the head of iteration [i] has begun exactly the sends
    [0 .. i-1]. *)
Theorem sends_within_repeat_count (o : TestOptions) (r0 : TestResults) (done : bool)
    (sched : list Action) (s : Sys) :
  Loop o <= GoInt.maxInt64 ->
  exec o sched (startSys o r0 done) = Some s ->
  forall (c : nat) (pc : WorkerPC),
    workers s !! c = Some pc ->
    let sends := count_events (is_send_of (Z.of_nat c)) (trace s) in
    let opens := count_events (is_open_of (Z.of_nat c)) (trace s) in
    0 <= opens <= 1
    /\ 0 <= sends <= Z.max 0 (Loop o)
    /\ (forall i, pc = PCLoop i -> sends = i)
    /\ (forall i, pc = PCSend i -> sends = i + 1 /\ i < Loop o).
Proof.
  intros Hmax H c pc Hc. cbv zeta.
  assert (Hinv : WorkersInv o s).
  { apply (exec_WorkersInv o sched (startSys o r0 done) s Hmax); [|exact H].
    intros c0 pc0 Hc0. simpl in Hc0.
    apply list_elem_of_lookup_2, list_elem_of_In, repeat_spec in Hc0. subst pc0.
    simpl. split; reflexivity. }
  specialize (Hinv c pc Hc).
  destruct (WorkerInv_bounds _ _ _ _ Hinv) as [Ho Hs].
  split; [exact Ho|]. split; [exact Hs|]. split.
  - intros i ->. simpl in Hinv. lia.
  - intros i ->. simpl in Hinv. lia.
Qed.

(* --------------------------------------------------------------------- *)
(** *** Runs: when every open fails; the pool *)
(* --------------------------------------------------------------------- *)

Lemma count_pc_insert (p : WorkerPC -> bool) (ws : list WorkerPC) (c : nat)
    (pc pc' : WorkerPC) :
  ws !! c = Some pc ->
  count_pc p (<[c := pc']> ws) = count_pc p ws - b2z (p pc) + b2z (p pc').
Proof.
  revert c. induction ws as [|w ws IH]; intros c H; [discriminate|].
  destruct c as [|c]; simpl in *.
  - injection H as ->. lia.
  - rewrite (IH c H). lia.
Qed.

Lemma count_pc_repeat_acquire (n : nat) : count_pc is_leaving (repeat PCAcquire n) = 0.
Proof. induction n as [|n IH]; simpl; [reflexivity | rewrite IH; reflexivity]. Qed.

Lemma count_pc_all_returned (ws : list WorkerPC) :
  forallb is_returned ws = true -> count_pc is_leaving ws = Z.of_nat (length ws).
Proof.
  induction ws as [|w ws IH]; [reflexivity|].
  cbn [forallb count_pc length]. rewrite andb_true_iff. intros [Hw Hws].
  rewrite (IH Hws), Nat2Z.inj_succ. destruct w; try discriminate. simpl. lia.
Qed.

Lemma recordError_Latencies (errorType : string) (err : error) (r r' : TestResults) :
  recordError errorType err r = Some r' -> Latencies r' = Latencies r.
Proof.
  intros H.
  destruct (apply_op_samples (OpRecordError errorType err) r r' H)
    as [[H1 _] | (_ & H1 & _)]; [|exact H1].
  rewrite H1. apply app_nil_r.
Qed.

Lemma step_AllFailInv (o : TestOptions) (a : Action) (s s' : Sys) :
  match a with AStep _ io => io_err io <> None | _ => True end ->
  AllFailInv s -> step o a s = Some s' -> AllFailInv s'.
Proof.
  intros Hfail (Hw & Hf & Ht & Hs & Hl & Htr).
  destruct a as [|connID io|dataLen]; simpl.
  - intros H. injection H as <-. unfold AllFailInv. simpl.
    repeat (split; [assumption|]). apply Forall_app. split; [exact Htr | repeat constructor].
  - destruct (workers s !! connID) as [pc|] eqn:Epc;
      [|intros H; injection H as <-; repeat split; assumption].
    assert (Hpc : match pc with
                  | PCAcquire | PCNewClient | PCRelease | PCReturned => True
                  | _ => False
                  end).
    { rewrite Forall_forall in Hw. apply Hw. eapply list_elem_of_lookup_2. exact Epc. }
    assert (Hkeep : forall pc' tokens' evs,
              is_leaving pc' = is_leaving pc ->
              match pc' with
              | PCAcquire | PCNewClient | PCRelease | PCReturned => True
              | _ => False
              end ->
              Forall (fun e => is_WriteMessage e = false) evs ->
              AllFailInv (mkSys (results s) (ctxDone s) tokens'
                            (<[connID := pc']> (workers s)) (trace s ++ evs))).
    { intros pc' tokens' evs Hlv Hk Hev. unfold AllFailInv. simpl.
      rewrite (count_pc_insert _ _ _ _ pc' Epc), Hlv.
      split; [apply Forall_insert; assumption|].
      split; [rewrite Hf; f_equal; lia|]. split; [rewrite Ht; f_equal; lia|].
      split; [exact Hs|]. split; [exact Hl|]. apply Forall_app. auto. }
    destruct pc; try contradiction; simpl.
    + destruct (pool s <? Connections o); intros H; injection H as <-;
        apply Hkeep; try reflexivity; try exact I; repeat constructor.
    + destruct (io_err io) as [msg|] eqn:E; [|congruence].
      destruct (recordError _ _ _) as [r'|] eqn:Er; [|discriminate].
      intros H. injection H as <-. unfold AllFailInv. simpl.
      destruct (recordError_counters _ _ _ _ Er) as (H1 & H2 & H3).
      rewrite (count_pc_insert _ _ _ _ PCRelease Epc). simpl.
      split; [apply Forall_insert; [assumption | exact I]|].
      split; [rewrite H3, Hf, wrap64_succ; f_equal; lia|].
      split; [rewrite H1, Ht, wrap64_succ; f_equal; lia|].
      split; [rewrite H2; exact Hs|].
      split; [rewrite (recordError_Latencies _ _ _ _ Er); exact Hl|].
      apply Forall_app. split; [exact Htr | repeat constructor].
    + intros H. injection H as <-.
      apply Hkeep; try reflexivity; try exact I; repeat constructor.
    + intros H. injection H as <-.
      apply Hkeep; try reflexivity; try exact I; repeat constructor.
  - intros H. injection H as <-. unfold AllFailInv. simpl.
    repeat (split; [assumption|]). exact Htr.
Qed.

Lemma exec_AllFailInv (o : TestOptions) (acts : list Action) (s s' : Sys) :
  all_fail acts -> AllFailInv s -> exec o acts s = Some s' -> AllFailInv s'.
Proof.
  intros Hall. revert s. induction Hall as [|a acts Ha _ IH]; simpl; intros s Hinv H.
  - injection H as <-. exact Hinv.
  - destruct (step o a s) as [s1|] eqn:E; [|discriminate].
    eapply IH; [eapply step_AllFailInv; eauto | exact H].
Qed.

(** X9. A run of a new load test in which every library call fails, once
    it has returned: every connection has recorded exactly its failed
    open, so the total and the failures both equal the number of
    connections, there is no success and no sample, and no send was
    ever begun. *)
Theorem all_opens_fail (o : TestOptions) (now0 now1 : Z) (sched : list Action) :
  all_fail sched ->
  Connections o <= GoInt.maxInt64 ->
  let res := Run (NewLoadTest o) now0 now1 sched in
  ret res = ReturnNil ->
  TotalRequests (lt_results (after res)) = Connections o
  /\ FailedReqs (lt_results (after res)) = Connections o
  /\ SuccessfulReqs (lt_results (after res)) = 0
  /\ Latencies (lt_results (after res)) = []
  /\ forall c i, ~ In (EvWriteMessage c i) (events res).
Proof.
  intros Hall Hmax. cbv zeta. unfold Run.
  destruct (ParseDuration (Duration (opts (NewLoadTest o)))) as [d|e]; [|discriminate].
  destruct (Connections (opts (NewLoadTest o)) <? 0) eqn:Ec; [discriminate|].
  apply Z.ltb_ge in Ec. simpl in Ec.
  destruct (exec _ _ _) as [s|] eqn:E; [|discriminate].
  destruct (ctxDone s && forallb is_returned (workers s)) eqn:Eb; [|discriminate].
  intros _. simpl. apply andb_true_iff in Eb. destruct Eb as [_ Hret].
  assert (Hinv : AllFailInv s).
  { apply (exec_AllFailInv _ _ _ _ Hall) in E; [exact E|].
    unfold AllFailInv. simpl. rewrite count_pc_repeat_acquire.
    split; [apply Forall_forall; intros pc Hpc;
            apply list_elem_of_In, repeat_spec in Hpc; subst; exact I|].
    repeat split. constructor. }
  destruct Hinv as (_ & Hf & Ht & Hs & Hl & Htr).
  pose proof (exec_length _ _ _ _ E) as Hlen. simpl in Hlen. rewrite repeat_length in Hlen.
  rewrite (count_pc_all_returned _ Hret), Hlen, Z2Nat.id in Hf, Ht by exact Ec.
  rewrite wrap64_inRange in Hf, Ht
    by (unfold GoInt.inRange, GoInt.minInt64, GoInt.maxInt64 in *; lia).
  split; [exact Ht|]. split; [exact Hf|]. split; [exact Hs|]. split; [exact Hl|].
  intros c i Hin. rewrite Forall_forall in Htr. apply list_elem_of_In in Hin.
  specialize (Htr _ Hin). discriminate.
Qed.

Lemma slots_all_returned (ws : list WorkerPC) :
  forallb is_returned ws = true -> slots ws = 0.
Proof.
  induction ws as [|w ws IH]; [reflexivity|].
  cbn [forallb slots]. rewrite andb_true_iff. intros [Hw Hws].
  rewrite (IH Hws). destruct w; try discriminate. reflexivity.
Qed.

(** X10. In every state of a run, under any schedule, the pool holds
    one token per goroutine between its acquire and its release, never
    more than its capacity; a goroutine waiting to acquire is never
    blocked; and when every goroutine has returned the pool is empty. *)
Theorem pool_never_blocks (o : TestOptions) (r0 : TestResults) (done : bool)
    (sched : list Action) (s : Sys) :
  0 <= Connections o ->
  exec o sched (startSys o r0 done) = Some s ->
  pool s = slots (workers s)
  /\ 0 <= pool s <= Connections o
  /\ (forall (c : nat) (io : IOResult),
        workers s !! c = Some PCAcquire ->
        step o (AStep c io) s
        = Some (mkSys (results s) (ctxDone s) (pool s + 1)
                  (<[c := PCNewClient]> (workers s))
                  (trace s ++ [EvAcquire (Z.of_nat c)])))
  /\ (forallb is_returned (workers s) = true -> pool s = 0).
Proof.
  intros Hc H.
  assert (Hinv : PoolInv o s).
  { apply (exec_PoolInv o sched (startSys o r0 done)); [|exact H].
    apply Run_start_PoolInv. exact Hc. }
  destruct Hinv as [Hp Hl]. pose proof (slots_bound (workers s)) as Hb.
  split; [exact Hp|]. split; [lia|]. split.
  - intros c io Hpc. simpl. rewrite Hpc. simpl.
    pose proof (slots_free _ _ _ Hpc eq_refl) as Hfree.
    replace (pool s <? Connections o) with true by (symmetry; apply Z.ltb_lt; lia).
    reflexivity.
  - intros Hret. rewrite Hp. apply slots_all_returned. exact Hret.
Qed.

(* --------------------------------------------------------------------- *)
(** *** Display helpers *)
(* --------------------------------------------------------------------- *)

Lemma takeBytes_length (n : nat) (s : string) :
  String.length (takeBytes n s) = Nat.min n (String.length s).
Proof.
  revert s. induction n as [|n IH]; intros s; [reflexivity|].
  destruct s as [|c s]; simpl; [reflexivity | rewrite IH; reflexivity].
Qed.

Lemma string_length_app (a b : string) :
  String.length (a ++ b) = (String.length a + String.length b)%nat.
Proof. induction a as [|c a IH]; simpl; [reflexivity | rewrite IH; reflexivity]. Qed.

Lemma takeBytes_app (n : nat) (a b : string) :
  (n <= String.length a)%nat -> takeBytes n (a ++ b) = takeBytes n a.
Proof.
  revert a. induction n as [|n IH]; intros a H; [reflexivity|].
  destruct a as [|c a]; simpl in *; [lia|]. rewrite IH by lia. reflexivity.
Qed.

Lemma takeBytes_idem (n : nat) (s : string) : takeBytes n (takeBytes n s) = takeBytes n s.
Proof.
  revert s. induction n as [|n IH]; intros s; [reflexivity|].
  destruct s as [|c s]; simpl; [reflexivity | rewrite IH; reflexivity].
Qed.

Lemma slice_to_in_range (s : string) (hi : Z) :
  0 <= hi <= Z.of_nat (String.length s) ->
  slice_to s hi = Some (takeBytes (Z.to_nat hi) s).
Proof.
  intros H. unfold slice_to.
  replace (0 <=? hi) with true by (symmetry; apply Z.leb_le; lia).
  replace (hi <=? Z.of_nat (String.length s)) with true by (symmetry; apply Z.leb_le; lia).
  reflexivity.
Qed.

(** X11. For a limit that is not negative [sanitizeMessage] returns: a
    message within the limit comes back unchanged; a longer one comes
    back as its first [maxLength] bytes followed by three dots, which is
    [maxLength + 3] bytes.  The result never has more than
    [maxLength + 3] bytes and always begins as the message does. *)
Theorem sanitizeMessage_shape (message : string) (maxLength : Z) :
  0 <= maxLength ->
  exists out,
    sanitizeMessage message maxLength = Some out
    /\ Z.of_nat (String.length out) <= maxLength + 3
    /\ takeBytes (Z.to_nat maxLength) out = takeBytes (Z.to_nat maxLength) message
    /\ (Z.of_nat (String.length message) <= maxLength -> out = message)
    /\ (maxLength < Z.of_nat (String.length message) ->
        out = (takeBytes (Z.to_nat maxLength) message ++ "...")%string
        /\ Z.of_nat (String.length out) = maxLength + 3).
Proof.
  intros H0. unfold sanitizeMessage.
  destruct (Z.of_nat (String.length message) <=? maxLength) eqn:E.
  - apply Z.leb_le in E. exists message. split; [reflexivity|].
    split; [lia|]. split; [reflexivity|]. split; [reflexivity | lia].
  - apply Z.leb_gt in E. rewrite slice_to_in_range by lia.
    eexists. split; [reflexivity|].
    assert (Hlen : Z.of_nat (String.length
                     (takeBytes (Z.to_nat maxLength) message ++ "...")) = maxLength + 3).
    { rewrite string_length_app, takeBytes_length.
      change (String.length "...") with 3%nat. rewrite Nat.min_l by lia. lia. }
    split; [lia|]. split; [|split; [lia | auto]].
    rewrite takeBytes_app by (rewrite takeBytes_length; lia).
    apply takeBytes_idem.
Qed.

(** X12. With a negative limit [sanitizeMessage] panics on every message:
    no length is within the limit, and the slice bound is negative. *)
Theorem sanitizeMessage_negative_limit (message : string) (maxLength : Z) :
  maxLength < 0 -> sanitizeMessage message maxLength = None.
Proof.
  intros H. unfold sanitizeMessage, slice_to.
  replace (Z.of_nat (String.length message) <=? maxLength) with false
    by (symmetry; apply Z.leb_gt; lia).
  replace (0 <=? maxLength) with false by (symmetry; apply Z.leb_gt; lia).
  reflexivity.
Qed.

(** X13. An example printed by [printResults] never has more than 80
    bytes: up to 80 bytes it is printed as stored, beyond that as its
    first 77 bytes followed by three dots; the slice never panics. *)
Theorem printed_example_fits (example : string) :
  exists out,
    printResults_example example = Some out
    /\ (String.length out <= 80)%nat
    /\ ((String.length example <= 80)%nat -> out = example)
    /\ ((80 < String.length example)%nat ->
        out = (takeBytes 77 example ++ "...")%string).
Proof.
  unfold printResults_example.
  destruct (Z.of_nat (String.length example) >? 80) eqn:E.
  - apply Z.gtb_lt in E. rewrite slice_to_in_range by lia.
    eexists. split; [reflexivity|]. split; [|split; [lia | reflexivity]].
    rewrite string_length_app, takeBytes_length.
    change (String.length "...") with 3%nat. change (Z.to_nat 77) with 77%nat. lia.
  - rewrite Z.gtb_ltb in E. apply Z.ltb_ge in E.
    exists example. split; [reflexivity|]. split; [lia|]. split; [reflexivity | lia].
Qed.

Lemma formatBytes_loop_spec (B : Z) (fuel : nat) :
  forall n div exp : Z,
    B <= GoInt.maxInt64 ->
    1 <= n < 1024 ^ Z.of_nat fuel ->
    0 <= exp -> exp + Z.of_nat fuel <= 1000 ->
    div = 1024 ^ (exp + 1) ->
    n * div <= B < (n + 1) * div ->
    exists e,
      formatBytes_loop fuel n div exp = Some (1024 ^ (e + 1), e)
      /\ exp <= e /\ 1024 ^ (e + 1) <= B < 1024 ^ (e + 2).
Proof.
  induction fuel as [|fuel IH]; intros n div exp HB Hn Hexp Hfuel Hdiv Hbounds.
  - simpl in Hn. lia.
  - assert (Hdpos : 0 < div) by (subst div; apply Z.pow_pos_nonneg; lia).
    cbn [formatBytes_loop]. destruct (n >=? 1024) eqn:E.
    + rewrite Z.geb_leb in E. apply Z.leb_le in E.
      assert (Hq : 1 <= n / 1024) by (apply Z.div_le_lower_bound; lia).
      assert (Hq1 : 1024 * (n / 1024) <= n) by (apply Z.mul_div_le; lia).
      assert (Hq2 : n < 1024 * Z.succ (n / 1024)) by (apply Z.mul_succ_div_gt; lia).
      assert (Hn1 : GoInt.div n 1024 = n / 1024).
      { unfold GoInt.div. rewrite Z.quot_div_nonneg by lia. apply wrap64_inRange.
        unfold GoInt.inRange, GoInt.minInt64, GoInt.maxInt64 in *. nia. }
      assert (Hd1 : GoInt.mul div 1024 = div * 1024).
      { apply wrap64_inRange.
        unfold GoInt.inRange, GoInt.minInt64, GoInt.maxInt64 in *. nia. }
      assert (He1 : GoInt.incr exp = exp + 1).
      { apply wrap64_inRange.
        unfold GoInt.inRange, GoInt.minInt64, GoInt.maxInt64 in *. lia. }
      rewrite Hn1, Hd1, He1.
      destruct (IH (n / 1024) (div * 1024) (exp + 1)) as (e & He & Hle & Hb);
        try lia.
      * split; [lia|]. rewrite Nat2Z.inj_succ, Z.pow_succ_r in Hn by lia.
        apply Z.div_lt_upper_bound; lia.
      * subst div. replace (exp + 1 + 1) with (Z.succ (exp + 1)) by lia.
        rewrite (Z.pow_succ_r 1024 (exp + 1)) by lia. lia.
      * nia.
      * exists e. split; [exact He|]. split; [lia | exact Hb].
    + rewrite Z.geb_leb in E. apply Z.leb_gt in E.
      exists exp. subst div. split; [reflexivity|]. split; [lia|].
      replace (exp + 2) with (Z.succ (exp + 1)) by lia.
      rewrite (Z.pow_succ_r 1024 (exp + 1)) by lia. nia.
Qed.

(** X14. [formatBytes] returns on every [int64]: below 1024 (negative
    counts included) it prints the count itself followed by " B"; from
    1024 on it scales by [1024^(e+1)] for the one [e] with
    [1024^(e+1) <= bytes < 1024^(e+2)], and [e] is at most 5, so that
    the letter is one of the six of "KMGTPE" and the index never
    panics. *)
Theorem formatBytes_unit (bytes : Z) :
  GoInt.inRange bytes ->
  exists out,
    formatBytes bytes = Some out
    /\ (bytes < 1024 -> out = PlainBytes (itoa bytes ++ " B"))
    /\ (1024 <= bytes ->
        exists e c,
          0 <= e <= 5
          /\ String.get (Z.to_nat e) "KMGTPE" = Some c
          /\ 1024 ^ (e + 1) <= bytes < 1024 ^ (e + 2)
          /\ out = ScaledBytes
                     (PrimFloat.div (GoTime.float64_of_int64 bytes)
                                    (GoTime.float64_of_int64 (1024 ^ (e + 1)))) c).
Proof.
  intros Hr. unfold formatBytes. destruct (bytes <? 1024) eqn:E.
  - apply Z.ltb_lt in E. eexists. split; [reflexivity|]. split; [reflexivity | lia].
  - apply Z.ltb_ge in E.
    assert (HB : bytes <= GoInt.maxInt64) by apply Hr.
    assert (Hq : 1 <= bytes / 1024) by (apply Z.div_le_lower_bound; lia).
    assert (Hq1 : 1024 * (bytes / 1024) <= bytes) by (apply Z.mul_div_le; lia).
    assert (Hq2 : bytes < 1024 * Z.succ (bytes / 1024)) by (apply Z.mul_succ_div_gt; lia).
    assert (Hn : GoInt.div bytes 1024 = bytes / 1024).
    { unfold GoInt.div. rewrite Z.quot_div_nonneg by lia. apply wrap64_inRange.
      unfold GoInt.inRange, GoInt.minInt64, GoInt.maxInt64 in *. lia. }
    rewrite Hn.
    destruct (formatBytes_loop_spec bytes 64 (bytes / 1024) 1024 0) as (e & -> & He & Hb);
      try lia; try reflexivity.
    { split; [lia|]. unfold GoInt.maxInt64 in HB.
      change (1024 ^ Z.of_nat 64) with (1024 ^ 64).
      assert (2 ^ 63 < 1024 ^ 64) by reflexivity.
      assert (9223372036854775807 < 2 ^ 63) by reflexivity. lia. }
    assert (He5 : e <= 5).
    { destruct (Z.le_gt_cases e 5) as [H|H]; [exact H | exfalso].
      assert (1024 ^ 7 <= 1024 ^ (e + 1)) by (apply Z.pow_le_mono_r; lia).
      assert (9223372036854775807 < 1024 ^ 7) by reflexivity.
      unfold GoInt.maxInt64 in HB. lia. }
    assert (Hc : exists c, unit_letter e = Some c /\ String.get (Z.to_nat e) "KMGTPE" = Some c).
    { assert (Hcases : e = 0 \/ e = 1 \/ e = 2 \/ e = 3 \/ e = 4 \/ e = 5) by lia.
      destruct Hcases as [->|[->|[->|[->|[->| ->]]]]]; eexists; split; reflexivity. }
    destruct Hc as (c & -> & Hget).
    eexists. split; [reflexivity|]. split; [lia|]. intros _.
    exists e, c. split; [lia|]. split; [exact Hget|]. split; [exact Hb | reflexivity].
Qed.

(* --------------------------------------------------------------------- *)
(** *** The history *)
(* --------------------------------------------------------------------- *)

Lemma getLastNEntries_drop (Entries : list TestHistoryEntry) (n : Z) :
  n <= GoInt.maxInt64 ->
  Z.of_nat (length Entries) <= GoInt.maxInt64 ->
  getLastNEntries Entries n
  = drop (length Entries - Z.to_nat (Z.min (Z.max n 0) (Z.of_nat (length Entries))))
         Entries.
Proof.
  intros Hn Hl. unfold getLastNEntries.
  destruct (n <=? 0) eqn:E1; simpl.
  - apply Z.leb_le in E1. rewrite Z.max_r, Z.min_l by lia.
    change (Z.to_nat 0) with 0%nat. rewrite Nat.sub_0_r, drop_all. reflexivity.
  - apply Z.leb_gt in E1.
    destruct (Z.of_nat (length Entries) =? 0) eqn:E2.
    + apply Z.eqb_eq in E2. destruct Entries; [reflexivity | simpl in E2; lia].
    + rewrite wrap64_inRange
        by (unfold GoInt.inRange, GoInt.minInt64, GoInt.maxInt64 in *; lia).
      rewrite Z.max_l by lia.
      destruct (Z.of_nat (length Entries) - n <? 0) eqn:E3.
      * apply Z.ltb_lt in E3. rewrite Z.min_r by lia. rewrite Nat2Z.id, Nat.sub_diag.
        reflexivity.
      * apply Z.ltb_ge in E3. rewrite Z.min_l by lia. f_equal. lia.
Qed.

Lemma getLastNEntries_length (Entries : list TestHistoryEntry) (n : Z) :
  n <= GoInt.maxInt64 ->
  Z.of_nat (length Entries) <= GoInt.maxInt64 ->
  Z.of_nat (length (getLastNEntries Entries n))
  = Z.min (Z.max n 0) (Z.of_nat (length Entries)).
Proof.
  intros Hn Hl. rewrite (getLastNEntries_drop Entries n Hn Hl), length_drop. lia.
Qed.

(** X15. [getLastNEntries] returns the newest entries of the history, in
    their order: the history is some older entries followed by the
    result, whose length is the smaller of [n] and the length of the
    history, and 0 when [n] is not positive. *)
Theorem getLastNEntries_suffix (Entries : list TestHistoryEntry) (n : Z) :
  n <= GoInt.maxInt64 ->
  Z.of_nat (length Entries) <= GoInt.maxInt64 ->
  (exists older, Entries = (older ++ getLastNEntries Entries n)%list)
  /\ Z.of_nat (length (getLastNEntries Entries n))
     = Z.min (Z.max n 0) (Z.of_nat (length Entries))
  /\ (Z.of_nat (length Entries) <= n -> getLastNEntries Entries n = Entries).
Proof.
  intros Hn Hl. split; [|split].
  - rewrite (getLastNEntries_drop Entries n Hn Hl).
    eexists. symmetry. apply take_drop.
  - apply getLastNEntries_length; assumption.
  - intros Hall. rewrite (getLastNEntries_drop Entries n Hn Hl).
    rewrite Z.min_r by lia. rewrite Nat2Z.id, Nat.sub_diag. reflexivity.
Qed.

Lemma sorted_last_bound (l : list Z) (m : Z) :
  StronglySorted Z.lt l -> last l = Some m -> Forall (fun x => x <= m) l.
Proof.
  induction 1 as [|x l Hs IH Hx]; intros Hlast; [constructor|].
  destruct l as [|y l].
  - simpl in Hlast. injection Hlast as ->. repeat constructor. lia.
  - change (last (x :: y :: l)) with (last (y :: l)) in Hlast.
    specialize (IH Hlast). constructor; [|exact IH].
    rewrite Forall_forall in Hx, IH.
    assert (Hy : y ∈ y :: l) by (left).
    specialize (Hx y Hy). specialize (IH y Hy). simpl in *. lia.
Qed.

Lemma sorted_snoc (l : list Z) (x : Z) :
  StronglySorted Z.lt l -> Forall (fun y => y < x) l -> StronglySorted Z.lt (l ++ [x]).
Proof.
  induction 1 as [|y l Hs IH Hy]; intros Hall; simpl.
  - repeat constructor.
  - apply Forall_cons in Hall as [Hyx Hall]. constructor; [apply IH, Hall|].
    apply Forall_app. split; [exact Hy | repeat constructor; exact Hyx].
Qed.

(** X16. [addEntry] keeps the entries of the history and appends one,
    whose counters are those of the aggregate and whose identifier is 1
    in an empty history and one more than the last identifier
    otherwise.  If the identifiers were strictly increasing (and the
    last one is not the largest [int]) they still are, hence still
    distinct. *)
Theorem addEntry_identifiers (Entries : list TestHistoryEntry) (o : TestOptions)
    (r : TestResults) :
  IDs_increasing Entries ->
  (forall e, last Entries = Some e -> GoInt.minInt64 <= ID e < GoInt.maxInt64) ->
  exists entry,
    addEntry Entries o r = (Entries ++ [entry])%list
    /\ ID entry = match last Entries with Some e => ID e + 1 | None => 1 end
    /\ hTotalRequests entry = TotalRequests r
    /\ hSuccessfulReqs entry = SuccessfulReqs r
    /\ hFailedReqs entry = FailedReqs r
    /\ hErrorCounts entry = ErrorCounts r
    /\ IDs_increasing (addEntry Entries o r)
    /\ NoDup (map ID (addEntry Entries o r)).
Proof.
  intros Hinc Hlast. unfold addEntry. eexists. split; [reflexivity|].
  cbn [ID hTotalRequests hSuccessfulReqs hFailedReqs hErrorCounts].
  assert (Hid : match last Entries with
                | Some e => GoInt.add (ID e) 1
                | None => 1
                end
                = match last Entries with Some e => ID e + 1 | None => 1 end).
  { destruct (last Entries) as [e|] eqn:E; [|reflexivity].
    specialize (Hlast e eq_refl). apply wrap64_inRange.
    unfold GoInt.inRange, GoInt.minInt64, GoInt.maxInt64 in *. lia. }
  split; [exact Hid|]. repeat (split; [reflexivity|]).
  assert (Hsorted : StronglySorted Z.lt
            (map ID Entries ++ [match last Entries with
                                | Some e => ID e + 1
                                | None => 1
                                end])).
  { apply sorted_snoc; [exact Hinc|].
    destruct (last Entries) as [e|] eqn:E.
    - assert (Hl : last (map ID Entries) = Some (ID e))
        by (change (map ID Entries) with (ID <$> Entries); rewrite fmap_last, E; reflexivity).
      pose proof (sorted_last_bound _ _ Hinc Hl) as Hb.
      eapply Forall_impl; [exact Hb|]. intros x Hx. simpl in Hx. lia.
    - apply last_None in E. subst. constructor. }
  unfold IDs_increasing. rewrite map_app. cbn [map ID]. rewrite Hid.
  split; [exact Hsorted|].
  clear -Hsorted. induction Hsorted as [|x l Hs IH Hx]; [constructor|].
  apply NoDup_cons. split; [|exact IH].
  intros Hin. rewrite Forall_forall in Hx. specialize (Hx x Hin). lia.
Qed.

Lemma minmax_pair (values : list float) (lo hi : float) :
  exists lo' hi', minmax values lo hi = (lo', hi').
Proof. destruct (minmax values lo hi) as [lo' hi']. eauto. Qed.

(** X17. [generateComparisonChart] draws a chart exactly when the
    history has at least two entries and the limit is at least two: an
    empty history is reported as such, and in every other case the
    request is declined for want of two results -- also when the history
    is long and the limit is 1.  A chart has one label and one value per
    shown entry, the newest [limit] of the history, and eleven rows of
    one cell per entry; reading [values[0]] never panics. *)
Theorem chart_needs_two (Entries : list TestHistoryEntry) (metric : string) (limit : Z) :
  limit <= GoInt.maxInt64 ->
  Z.of_nat (length Entries) <= GoInt.maxInt64 ->
  let shown := getLastNEntries Entries limit in
  (Entries = [] -> generateComparisonChart Entries metric limit = Some ChartNoHistory)
  /\ (Entries <> [] -> (limit < 2 \/ Z.of_nat (length Entries) < 2) ->
      generateComparisonChart Entries metric limit = Some ChartNeedTwo)
  /\ (2 <= limit -> 2 <= Z.of_nat (length Entries) ->
      exists rows,
        generateComparisonChart Entries metric limit
        = Some (ChartDrawn (map (fun e => itoa (ID e)) shown)
                           (map (metricValue metric) shown) rows)
        /\ length rows = 11%nat
        /\ Forall (fun row => length (snd row) = length shown) rows
        /\ Z.of_nat (length shown) = Z.min limit (Z.of_nat (length Entries))).
Proof.
  intros Hlim Hlen. cbv zeta.
  pose proof (getLastNEntries_length Entries limit Hlim Hlen) as Hshown.
  unfold generateComparisonChart. split; [|split].
  - intros ->. reflexivity.
  - intros Hne Hsmall.
    replace (Z.of_nat (length Entries) =? 0) with false
      by (symmetry; apply Z.eqb_neq; destruct Entries; [congruence | simpl; lia]).
    replace (Z.of_nat (length (getLastNEntries Entries limit)) <? 2) with true
      by (symmetry; apply Z.ltb_lt; lia).
    reflexivity.
  - intros H2 Hl2.
    replace (Z.of_nat (length Entries) =? 0) with false
      by (symmetry; apply Z.eqb_neq; lia).
    replace (Z.of_nat (length (getLastNEntries Entries limit)) <? 2) with false
      by (symmetry; apply Z.ltb_ge; lia).
    destruct (getLastNEntries Entries limit) as [|e0 shown] eqn:Es;
      [simpl in Hshown; lia|].
    cbn [map].
    destruct (minmax_pair (metricValue metric e0 :: map (metricValue metric) shown)
                (metricValue metric e0) (metricValue metric e0)) as (lo & hi & ->).
    eexists. split; [reflexivity|]. split; [reflexivity|]. split; [|lia].
    repeat constructor; unfold chartRow; cbn [snd]; rewrite length_map;
      cbn [length]; rewrite length_map; reflexivity.
Qed.

(* --------------------------------------------------------------------- *)
(** *** Validation, and the run of validated options *)
(* --------------------------------------------------------------------- *)

(** X18. A URL accepted by [validateWebSocketURL] comes back with the
    scheme prefix [ws://] or [wss://]: unchanged when it had one, with
    [ws://] put in front otherwise.  Validating the result again accepts
    it and returns it unchanged. *)
Theorem validateWebSocketURL_idempotent (urlStr out : string) :
  validateWebSocketURL urlStr = inl out ->
  (HasPrefix out "ws://" = true \/ HasPrefix out "wss://" = true)
  /\ out = (if HasPrefix urlStr "ws://" || HasPrefix urlStr "wss://"
            then urlStr else ("ws://" ++ urlStr)%string)
  /\ validateWebSocketURL out = inl out.
Proof.
  unfold validateWebSocketURL.
  set (u := if negb (HasPrefix urlStr "ws://") && negb (HasPrefix urlStr "wss://")
            then ("ws://" ++ urlStr)%string else urlStr).
  assert (Hu : HasPrefix u "ws://" = true \/ HasPrefix u "wss://" = true).
  { unfold u. destruct (HasPrefix urlStr "ws://") eqn:E1; [left; exact E1|].
    destruct (HasPrefix urlStr "wss://") eqn:E2; [right; exact E2|].
    left. reflexivity. }
  assert (Hu' : u = (if HasPrefix urlStr "ws://" || HasPrefix urlStr "wss://"
                     then urlStr else ("ws://" ++ urlStr)%string)).
  { unfold u. destruct (HasPrefix urlStr "ws://"), (HasPrefix urlStr "wss://"); reflexivity. }
  destruct (urlParse u) as [parts|e] eqn:Ep; [|discriminate].
  destruct (negb (String.eqb (Scheme parts) "ws") && negb (String.eqb (Scheme parts) "wss"))
    eqn:Es; [discriminate|].
  destruct (String.eqb (Host parts) EmptyString) eqn:Eh; [discriminate|].
  intros H. injection H as <-.
  split; [exact Hu|]. split; [exact Hu'|].
  replace (if negb (HasPrefix u "ws://") && negb (HasPrefix u "wss://")
           then ("ws://" ++ u)%string else u) with u
    by (destruct Hu as [-> | ->]; [reflexivity | rewrite andb_false_r; reflexivity]).
  rewrite Ep, Es, Eh. reflexivity.
Qed.

Lemma Run_parseable (lt : LoadTest) (now0 now1 : Z) (sched : list Action) (d : Z) :
  ParseDuration (Duration (opts lt)) = inl d ->
  0 <= Connections (opts lt) ->
  (ret (Run lt now0 now1 sched) = ReturnNil \/ ret (Run lt now0 now1 sched) = RunWaits)
  /\ forall io,
       ret (Run lt now0 now1 (sched ++ drain (Z.to_nat (Connections (opts lt))) 5 io))
       = ReturnNil.
Proof.
  intros Hd Hc. unfold Run. rewrite Hd.
  replace (Connections (opts lt) <? 0) with false by (symmetry; apply Z.ltb_ge; exact Hc).
  set (s0 := mkSys (set_StartTime now0 (lt_results lt)) (lt_ctxDone lt) 0
               (repeat PCAcquire (Z.to_nat (Connections (opts lt)))) []).
  assert (Hinv0 : PoolInv (opts lt) s0) by (apply Run_start_PoolInv; exact Hc).
  destruct (exec_total (opts lt) sched s0) as [s1 Hs1].
  split.
  - rewrite Hs1. destruct (ctxDone s1 && forallb is_returned (workers s1)); auto.
  - intros io. rewrite exec_app, Hs1.
    pose proof (exec_PoolInv _ _ _ _ Hinv0 Hs1) as Hinv1.
    pose proof (exec_length _ _ _ _ Hs1) as Hlen. simpl in Hlen.
    rewrite repeat_length in Hlen. rewrite <- Hlen.
    destruct (drain_returns (opts lt) io s1 Hinv1) as (s' & -> & Hd' & Hall).
    rewrite Hd', Hall. reflexivity.
Qed.

(** X19. Options accepted by [validateTestOptions] have at least one
    connection, at least one repeat and a duration that parses; the run
    that [runTest] then starts never ends in "Test failed" and never
    panics on its pool: it is under way or has returned nil, and it
    returns nil once the context is cancelled and every goroutine has
    had its moves. *)
Theorem validated_options_run (o : TestOptions) (verboseFlag : bool) (now0 now1 : Z)
    (sched : list Action) :
  validateTestOptions o = None ->
  1 <= Connections o
  /\ 1 <= Loop o
  /\ (exists d, ParseDuration (Duration o) = inl d)
  /\ (exists res, runTest o verboseFlag now0 now1 sched = TestRan res
                  /\ (ret res = ReturnNil \/ ret res = RunWaits))
  /\ (forall io,
        exists res,
          runTest o verboseFlag now0 now1
            (sched ++ drain (Z.to_nat (Connections o)) 5 io) = TestRan res
          /\ ret res = ReturnNil).
Proof.
  intros Hv. unfold runTest. rewrite Hv. unfold validateTestOptions in Hv.
  destruct (validateWebSocketURL (URL o)); [|discriminate].
  destruct (ParseDuration (Duration o)) as [d|e] eqn:Ed; [|discriminate].
  destruct (Connections o <=? 0) eqn:Ec; [discriminate|].
  destruct (Loop o <=? 0) eqn:El; [discriminate|].
  apply Z.leb_gt in Ec, El.
  split; [lia|]. split; [lia|]. split; [eauto|].
  set (test := mkLoadTest (opts (NewLoadTest o)) (lt_results (NewLoadTest o))
                 (lt_ctxDone (NewLoadTest o)) verboseFlag).
  assert (Hc0 : 0 <= Connections (opts test)) by (simpl; lia).
  split.
  - destruct (Run_parseable test now0 now1 sched d Ed Hc0) as [[H|H] _];
      cbv zeta; fold test; rewrite H; eauto.
  - intros io.
    destruct (Run_parseable test now0 now1 sched d Ed Hc0) as [_ H].
    specialize (H io). simpl opts in H. cbv zeta. fold test. rewrite H. eauto.
Qed.

(* --------------------------------------------------------------------- *)
(** *** The classifier: patterns that never decide *)
(* --------------------------------------------------------------------- *)

Lemma string_app_assoc (a b c : string) : ((a ++ b) ++ c = a ++ (b ++ c))%string.
Proof.
  induction a as [|x a IH]; [reflexivity | exact (f_equal (String x) IH)].
Qed.

Lemma Contains_trans (s p q : string) :
  Contains s p = true -> Contains p q = true -> Contains s q = true.
Proof.
  rewrite !Contains_spec. intros (a & b & ->) (a' & b' & ->).
  exists (a ++ a')%string, (b' ++ b)%string.
  rewrite !string_app_assoc. reflexivity.
Qed.

Lemma orb_absorb (a b : bool) : (b = true -> a = true) -> a || b = a.
Proof. destruct a, b; intros H; try reflexivity. discriminate (H eq_refl). Qed.

(** X20. Four of the patterns of [categorizeError] never decide a
    classification, each containing another pattern of its own rule:
    "handshake timeout", "connect: connection refused", "bad handshake"
    and "handshake error".  The classifier is the first match over the
    table without them. *)
Theorem categorizeError_deciding_patterns (msg : string) :
  categorizeError (Some msg)
  = firstMatch (Contains (ToLower unicodeMap msg)) decidingRules.
Proof.
  rewrite categorizeError_firstMatch.
  unfold priorityRules, decidingRules, firstMatch, existsb.
  set (s := ToLower unicodeMap msg).
  rewrite ?orb_false_r.
  assert (H1 : Contains s "timeout" || (Contains s "deadline exceeded"
                 || Contains s "handshake timeout")
               = Contains s "timeout" || Contains s "deadline exceeded").
  { rewrite orb_assoc. apply orb_absorb. intros H. rewrite orb_true_iff. left.
    apply (Contains_trans _ _ _ H). reflexivity. }
  assert (H2 : Contains s "connection refused"
               || (Contains s "connect: connection refused" || (Contains s
                    "connectex: no connection could be made" || Contains s
                    "no connection could be made because the target machine actively refused"))
               = Contains s "connection refused"
               || (Contains s "connectex: no connection could be made" || Contains s
                    "no connection could be made because the target machine actively refused")).
  { rewrite !orb_assoc. f_equal. f_equal. apply orb_absorb. intros H.
    apply (Contains_trans _ _ _ H). reflexivity. }
  assert (H3 : Contains s "bad handshake" || (Contains s "handshake error"
                 || (Contains s "handshake" || (Contains s "websocket"
                 || (Contains s "upgrade" || Contains s "protocol"))))
               = Contains s "handshake" || (Contains s "websocket"
                 || (Contains s "upgrade" || Contains s "protocol"))).
  { assert (Ha : Contains s "bad handshake" = true -> Contains s "handshake" = true)
      by (intros H; apply (Contains_trans _ _ _ H); reflexivity).
    assert (Hb : Contains s "handshake error" = true -> Contains s "handshake" = true)
      by (intros H; apply (Contains_trans _ _ _ H); reflexivity).
    destruct (Contains s "bad handshake"), (Contains s "handshake error"),
      (Contains s "handshake"); try reflexivity;
      try discriminate (Ha eq_refl); try discriminate (Hb eq_refl). }
  rewrite H1, H2, H3. reflexivity.
Qed.

(* --------------------------------------------------------------------- *)
(** *** Percentiles: order, extremes, monotonicity *)
(* --------------------------------------------------------------------- *)

(** X21. The percentile does not depend on the order of the samples:
    two slices with the same samples give the same result at every
    percentile (a panic included). *)
Theorem calculatePercentile_order_independent (l1 l2 : list Z) (p : Z) :
  Permutation l1 l2 -> calculatePercentile l1 p = calculatePercentile l2 p.
Proof.
  intros Hp. unfold calculatePercentile.
  rewrite (Permutation_length Hp).
  assert (Hs : GoSort.Slice l1 = GoSort.Slice l2).
  { apply Slice_unique; [apply Slice_sorted|]. rewrite Slice_perm. symmetry. exact Hp. }
  rewrite Hs. reflexivity.
Qed.

Lemma sorted_nth_mono (s : list Z) (i j : nat) :
  StronglySorted Z.le s -> (i <= j < length s)%nat -> nth i s 0 <= nth j s 0.
Proof.
  intros Hs. revert i j. induction Hs as [|x s Hs IH Hx]; intros i j Hij; [simpl in Hij; lia|].
  destruct i as [|i], j as [|j]; simpl in *; try lia.
  - rewrite Forall_forall in Hx. apply Hx, list_elem_of_In, nth_In. lia.
  - apply IH. lia.
Qed.


Lemma percentileIndex_bounds (p q : Z) (n : nat) :
  (0 < n)%nat -> 0 <= p <= q ->
  (percentileIndex p n <= percentileIndex q n < n)%nat
  /\ (p = 0 -> percentileIndex p n = 0%nat)
  /\ (100 <= q -> percentileIndex q n = (n - 1)%nat).
Proof.
  intros Hn Hpq. unfold percentileIndex.
  assert (Hp : 0 <= p * Z.of_nat n / 100) by (apply Z.div_pos; nia).
  assert (Hq : p * Z.of_nat n / 100 <= q * Z.of_nat n / 100)
    by (apply Z.div_le_mono; nia).
  split; [|split].
  - split; [apply Z2Nat.inj_le; lia | lia].
  - intros ->. rewrite Z.mul_0_l. change (0 / 100) with 0. rewrite Z.min_l by lia.
    reflexivity.
  - intros H100.
    assert (Z.of_nat n <= q * Z.of_nat n / 100) by (apply Z.div_le_lower_bound; nia).
    rewrite Z.min_r by lia. lia.
Qed.

(** X22. On a non-empty slice and percentiles [0 <= p <= q] (with
    [q * n] within the range of an [int]) [calculatePercentile] returns
    samples of the slice, and the one for [p] is not above the one for
    [q]; at 0 it returns the smallest sample, and from 100 on the
    largest. *)
Theorem calculatePercentile_monotone (l : list Z) (p q : Z) :
  l <> [] ->
  0 <= p <= q ->
  q * Z.of_nat (length l) <= GoInt.maxInt64 ->
  exists vp vq,
    calculatePercentile l p = Some vp
    /\ calculatePercentile l q = Some vq
    /\ vp <= vq
    /\ In vp l /\ In vq l
    /\ (p = 0 -> forall x, In x l -> vp <= x)
    /\ (100 <= q -> forall x, In x l -> x <= vq).
Proof.
  intros Hne Hpq Hmax.
  assert (Hn : (0 < length l)%nat) by (destruct l; [congruence | simpl; lia]).
  pose proof (Slice_sorted l) as Hs. pose proof (Slice_perm l) as Hperm.
  pose proof (Slice_length l) as Hlen.
  destruct (percentileIndex_bounds p q (length l) Hn Hpq) as ((Hle & Hlt) & H0 & H100).
  rewrite (percentile_of_sorted l (GoSort.Slice l) p Hne) by (try assumption; nia).
  rewrite (percentile_of_sorted l (GoSort.Slice l) q Hne) by (try assumption; lia).
  eexists. eexists. split; [reflexivity|]. split; [reflexivity|].
  assert (Hall : forall x, In x l -> exists j, (j < length l)%nat /\ nth j (GoSort.Slice l) 0 = x).
  { intros x Hx. apply (Permutation_in _ (Permutation_sym Hperm)) in Hx.
    destruct (In_nth _ _ 0 Hx) as (j & Hj & Hnth). exists j. rewrite <- Hlen. auto. }
  split; [apply sorted_nth_mono; [exact Hs | rewrite Hlen; lia]|].
  split; [apply (Permutation_in _ Hperm), nth_In; rewrite Hlen; lia|].
  split; [apply (Permutation_in _ Hperm), nth_In; rewrite Hlen; lia|].
  split.
  - intros Hp0 x Hx. destruct (Hall x Hx) as (j & Hj & <-).
    rewrite (H0 Hp0). apply sorted_nth_mono; [exact Hs | rewrite Hlen; lia].
  - intros Hq x Hx. destruct (Hall x Hx) as (j & Hj & <-).
    rewrite (H100 Hq). apply sorted_nth_mono; [exact Hs | rewrite Hlen; lia].
Qed.

(* --------------------------------------------------------------------- *)
(** *** Runs: sends in flight, and the clock *)
(* --------------------------------------------------------------------- *)

Lemma runConnection_step_in_flight (o : TestOptions) (connID c : Z) (io : IOResult)
    (done : bool) (pc pc' : WorkerPC) (r r' : TestResults) (tokens tokens' : Z)
    (evs : list Event) :
  runConnection_step o connID io done pc r tokens = Some (pc', r', tokens', evs) ->
  (connID <> c ->
     count_events (is_send_of c) evs = 0 /\ count_events (is_return_of c) evs = 0)
  /\ count_events (is_send_of connID) evs + b2z (is_sending pc)
     = count_events (is_return_of connID) evs + b2z (is_sending pc').
Proof.
  assert (Hid : (connID =? connID) = true) by apply Z.eqb_refl.
  assert (Hne : connID <> c -> (connID =? c) = false) by (intros H; apply Z.eqb_neq, H).
  destruct pc; simpl.
  - destruct (tokens <? Connections o); intros H; injection H as <- <- <- <-;
      unfold count_events; simpl; auto.
  - destruct (io_err io); [destruct (recordError _ _ _)|]; intros H; try discriminate;
      injection H as <- <- <- <-; unfold count_events; simpl; auto.
  - destruct (i <? Loop o); [destruct done|]; intros H; injection H as <- <- <- <-;
      unfold count_events; simpl; rewrite ?Hid; simpl; split; try reflexivity;
      intros Hc; rewrite ?(Hne Hc); auto.
  - destruct (sendMessage _ _ _ _ _ _); intros H; try discriminate;
      injection H as <- <- <- <-. unfold count_events. simpl. rewrite Hid. simpl.
    split; [|reflexivity]. intros Hc. rewrite (Hne Hc). auto.
  - intros H; injection H as <- <- <- <-; unfold count_events; simpl; auto.
  - intros H; injection H as <- <- <- <-; unfold count_events; simpl; auto.
  - intros H; injection H as <- <- <- <-; unfold count_events; simpl; auto.
Qed.

Lemma step_InFlightInv (o : TestOptions) (a : Action) (s s' : Sys) :
  InFlightInv s -> step o a s = Some s' -> InFlightInv s'.
Proof.
  intros Hinv. destruct a as [|connID io|dataLen]; simpl.
  - intros H. injection H as <-. intros c pc Hc. simpl in *.
    rewrite !count_events_app.
    change (count_events (is_send_of (Z.of_nat c)) [EvCancel]) with 0.
    change (count_events (is_return_of (Z.of_nat c)) [EvCancel]) with 0.
    rewrite !Z.add_0_r. apply Hinv, Hc.
  - destruct (workers s !! connID) as [pc0|] eqn:E0;
      [|intros H; injection H as <-; exact Hinv].
    destruct (runConnection_step _ _ _ _ _ _ _) as [[[[pc' r'] t'] evs]|] eqn:E;
      [|discriminate].
    intros H. injection H as <-. intros c pc Hc. simpl in *.
    rewrite !count_events_app.
    destruct (runConnection_step_in_flight _ _ (Z.of_nat c) _ _ _ _ _ _ _ _ _ E)
      as [Hother Hown].
    apply list_lookup_insert_Some in Hc.
    destruct Hc as [(<- & <- & _) | (Hne & Hc)].
    + specialize (Hinv _ _ E0). lia.
    + destruct Hother as [-> ->]; [lia|]. rewrite !Z.add_0_r. apply Hinv, Hc.
  - intros H. injection H as <-. exact Hinv.
Qed.

(** X23. In every state of a run, under any schedule, the sends a
    connection has begun are the sends that have returned (each recorded
    as a success or a failure), plus the one in flight when the
    connection is inside a send; so for a connection that has returned,
    every send it began has returned. *)
Theorem begun_sends_return (o : TestOptions) (r0 : TestResults) (done : bool)
    (sched : list Action) (s : Sys) :
  exec o sched (startSys o r0 done) = Some s ->
  forall (c : nat) (pc : WorkerPC),
    workers s !! c = Some pc ->
    count_events (is_send_of (Z.of_nat c)) (trace s)
    = count_events (is_return_of (Z.of_nat c)) (trace s) + b2z (is_sending pc)
    /\ (pc = PCReturned ->
        count_events (is_send_of (Z.of_nat c)) (trace s)
        = count_events (is_return_of (Z.of_nat c)) (trace s)).
Proof.
  intros H.
  assert (Hinv : InFlightInv s).
  { assert (H0 : InFlightInv (startSys o r0 done)).
    { intros c pc Hc. simpl in Hc.
      apply list_elem_of_lookup_2, list_elem_of_In, repeat_spec in Hc. subst pc.
      reflexivity. }
    revert H H0. generalize (startSys o r0 done).
    induction sched as [|a sched IH]; simpl; intros s0 H H0.
    - injection H as <-. exact H0.
    - destruct (step o a s0) as [s1|] eqn:E; [|discriminate].
      apply (IH s1 H). eapply step_InFlightInv; eauto. }
  intros c pc Hc. specialize (Hinv c pc Hc). split; [exact Hinv|].
  intros ->. simpl in Hinv. lia.
Qed.

Lemma apply_op_clock (op : CriticalOp) (r r' : TestResults) :
  apply_op op r = Some r' -> StartTime r' = StartTime r /\ EndTime r' = EndTime r.
Proof.
  unfold apply_op. destruct op as [latency message | errorType err | dataLen]; simpl.
  - intros H. injection H as <-. destruct (latency >? PeakResponseTime r); simpl; auto.
  - destruct (_ !! categorizeError err) as [info|]; simpl.
    + destruct (length (Examples info) <? 3)%nat; [destruct err|];
        intros H; try discriminate; injection H as <-; simpl; auto.
    + intros H. injection H as <-. simpl. auto.
  - intros H. injection H as <-. simpl. auto.
Qed.

Lemma apply_ops_clock (ops : list CriticalOp) (r r' : TestResults) :
  apply_ops ops r = Some r' -> StartTime r' = StartTime r /\ EndTime r' = EndTime r.
Proof.
  revert r. induction ops as [|op ops IH]; simpl; intros r H.
  - injection H as <-. auto.
  - destruct (apply_op op r) as [r1|] eqn:E; [|discriminate].
    destruct (apply_op_clock op r r1 E) as [H1 H2].
    destruct (IH r1 H) as [H3 H4]. split; congruence.
Qed.

(** X24. No writer of the aggregate touches the two clock readings: in
    a run that returns, whatever the load test was and whatever the
    schedule, the start and end times are the readings [Run] took
    before and after the goroutines, and the duration of the report is
    their difference. *)
Theorem report_duration (lt : LoadTest) (now0 now1 : Z) (sched : list Action) :
  let res := Run lt now0 now1 sched in
  ret res = ReturnNil ->
  StartTime (lt_results (after res)) = now0
  /\ EndTime (lt_results (after res)) = now1
  /\ exists rep, report res = Some rep /\ rDuration rep = GoTime.Sub now1 now0.
Proof.
  cbv zeta. unfold Run.
  destruct (ParseDuration (Duration (opts lt))) as [d|e]; [|discriminate].
  destruct (Connections (opts lt) <? 0); [discriminate|].
  destruct (exec _ _ _) as [s|] eqn:E; [|discriminate].
  destruct (ctxDone s && forallb is_returned (workers s)); [|discriminate].
  intros _. simpl.
  destruct (exec_apply_ops _ _ _ _ E) as [ops Hops]. simpl in Hops.
  destruct (apply_ops_clock _ _ _ Hops) as [Hs _]. simpl in Hs.
  split; [exact Hs|]. split; [reflexivity|].
  eexists. split; [reflexivity|]. unfold printResults. simpl. rewrite Hs. reflexivity.
Qed.

(** X25. The entry [addEntry] has just appended is what
    [getLastNEntries] returns for [n = 1]. *)
Theorem addEntry_then_last (Entries : list TestHistoryEntry) (o : TestOptions)
    (r : TestResults) :
  Z.of_nat (length Entries) < GoInt.maxInt64 ->
  exists entry,
    last (addEntry Entries o r) = Some entry
    /\ getLastNEntries (addEntry Entries o r) 1 = [entry].
Proof.
  intros Hlen. unfold addEntry. eexists. split; [apply last_snoc|].
  rewrite getLastNEntries_drop
    by (rewrite ?length_app; simpl; unfold GoInt.maxInt64 in *; lia).
  rewrite length_app. cbn [length].
  rewrite Z.max_l by lia. rewrite Z.min_l by lia. change (Z.to_nat 1) with 1%nat.
  replace (length Entries + 1 - 1)%nat with (length Entries) by lia.
  rewrite drop_app_length. reflexivity.
Qed.

(* --------------------------------------------------------------------- *)
(** *** The history commands *)
(* --------------------------------------------------------------------- *)

(** X26. On a history that is not empty [printHistory] lists the newest
    entries, and prints its line "Showing last .. of .." exactly when
    some entry of the history is not listed (all of them when the limit
    is not positive); the first number of that line is then below the
    second. *)
Theorem printHistory_footer (Entries : list TestHistoryEntry) (limit : Z) :
  limit <= GoInt.maxInt64 ->
  Z.of_nat (length Entries) <= GoInt.maxInt64 ->
  Entries <> [] ->
  exists footer,
    printHistory Entries limit = HistoryListed (getLastNEntries Entries limit) footer
    /\ (footer = None <-> getLastNEntries Entries limit = Entries)
    /\ (forall shown total,
          footer = Some (shown, total) ->
          shown = Z.max 0 limit /\ total = Z.of_nat (length Entries) /\ shown < total).
Proof.
  intros Hn Hl Hne. unfold printHistory.
  assert (Hpos : 0 < Z.of_nat (length Entries)) by (destruct Entries; [congruence | simpl; lia]).
  replace (Z.of_nat (length Entries) =? 0) with false by (symmetry; apply Z.eqb_neq; lia).
  pose proof (getLastNEntries_length Entries limit Hn Hl) as Hlen.
  eexists. split; [reflexivity|].
  destruct (Z.of_nat (length Entries) >? limit) eqn:E.
  - apply Z.gtb_lt in E. split.
    + split; [discriminate|]. intros Heq. rewrite Heq in Hlen. lia.
    + intros shown total H. injection H as <- <-. rewrite Hlen. lia.
  - assert (E' : Z.of_nat (length Entries) <= limit)
      by (rewrite Z.gtb_ltb in E; apply Z.ltb_ge in E; exact E).
    split.
    + split; [|reflexivity]. intros _.
      rewrite (getLastNEntries_drop Entries limit Hn Hl).
      rewrite Z.min_r by lia. rewrite Nat2Z.id, Nat.sub_diag. reflexivity.
    + intros shown total H. discriminate.
Qed.

Lemma validMetrics_lookup (metric : string) :
  default false (validMetrics !! metric)
  = String.eqb metric "success-rate" || String.eqb metric "requests-per-sec"
    || String.eqb metric "avg-latency" || String.eqb metric "throughput".
Proof.
  unfold validMetrics.
  destruct (String.eqb metric "success-rate") eqn:E1;
    [apply String.eqb_eq in E1; subst; reflexivity|].
  destruct (String.eqb metric "requests-per-sec") eqn:E2;
    [apply String.eqb_eq in E2; subst; reflexivity|].
  destruct (String.eqb metric "avg-latency") eqn:E3;
    [apply String.eqb_eq in E3; subst; reflexivity|].
  destruct (String.eqb metric "throughput") eqn:E4;
    [apply String.eqb_eq in E4; subst; reflexivity|].
  apply String.eqb_neq in E1, E2, E3, E4.
  rewrite !lookup_insert_ne by congruence.
  rewrite lookup_singleton_ne by congruence. reflexivity.
Qed.

(** X27. [runVisualize] reaches the chart exactly for the four metric
    names of its table, and rejects every other name; on the way from
    [runVisualize] the [default] branch of the chart's [switch] is
    therefore never taken: the value charted is the field the name
    stands for. *)
Theorem runVisualize_metric (Entries : list TestHistoryEntry) (metric : string)
    (limit : Z) :
  (In metric ["success-rate"; "requests-per-sec"; "avg-latency"; "throughput"] ->
   runVisualize Entries metric limit
   = Visualized (generateComparisonChart Entries metric limit))
  /\ (~ In metric ["success-rate"; "requests-per-sec"; "avg-latency"; "throughput"] ->
      runVisualize Entries metric limit = InvalidMetric metric)
  /\ (forall chart,
        runVisualize Entries metric limit = Visualized chart ->
        (metric = "success-rate" /\ forall e, metricValue metric e = SuccessRate e)
        \/ (metric = "requests-per-sec" /\ forall e, metricValue metric e = RequestsPerSec e)
        \/ (metric = "avg-latency" /\ forall e, metricValue metric e = AvgLatency e)
        \/ (metric = "throughput" /\ forall e, metricValue metric e = Throughput e)).
Proof.
  unfold runVisualize. rewrite validMetrics_lookup.
  split; [|split].
  - intros Hin. simpl in Hin.
    destruct Hin as [<-|[<-|[<-|[<-|[]]]]]; reflexivity.
  - intros Hnot.
    destruct (String.eqb metric "success-rate") eqn:E1;
      [apply String.eqb_eq in E1; subst; exfalso; apply Hnot; simpl; tauto|].
    destruct (String.eqb metric "requests-per-sec") eqn:E2;
      [apply String.eqb_eq in E2; subst; exfalso; apply Hnot; simpl; tauto|].
    destruct (String.eqb metric "avg-latency") eqn:E3;
      [apply String.eqb_eq in E3; subst; exfalso; apply Hnot; simpl; tauto|].
    destruct (String.eqb metric "throughput") eqn:E4;
      [apply String.eqb_eq in E4; subst; exfalso; apply Hnot; simpl; tauto|].
    reflexivity.
  - intros chart.
    destruct (String.eqb metric "success-rate") eqn:E1.
    { intros _. left. apply String.eqb_eq in E1. subst. split; [reflexivity|].
      intros e. reflexivity. }
    destruct (String.eqb metric "requests-per-sec") eqn:E2.
    { intros _. right. left. apply String.eqb_eq in E2. subst. split; [reflexivity|].
      intros e. reflexivity. }
    destruct (String.eqb metric "avg-latency") eqn:E3.
    { intros _. right. right. left. apply String.eqb_eq in E3. subst.
      split; [reflexivity|]. intros e. reflexivity. }
    destruct (String.eqb metric "throughput") eqn:E4.
    { intros _. right. right. right. apply String.eqb_eq in E4. subst.
      split; [reflexivity|]. intros e. reflexivity. }
    simpl. discriminate.
Qed.

End Engine.

(* ===================================================================== *)
(** ** The model at work on concrete runs *)
(* ===================================================================== *)

(** C8. A connection that opened and then observed the cancellation at
    an iteration boundary returns without any [WriteClose]: the run ends
    and its trace holds no close event for the connection.  The same
    connection, when it exhausts its loop, does attempt
    [WriteClose(1000, "test completed")]. *)
Theorem runConnection_cancel_skips_close :
  let cancelled := Run keepRunes parseSeconds (NewLoadTest one_connection) 0 1 cancelled_schedule in
  let completed := Run keepRunes parseSeconds (NewLoadTest one_connection) 0 1 completed_schedule in
  ret cancelled = ReturnNil
  /\ events cancelled
     = [ EvAcquire 0; EvNewClient 0 None; EvWriteMessage 0 0; EvSendReturned 0 0 None;
         EvCancel; EvCtxDone 0 1; EvRelease 0 ]
  /\ (forall code reason, ~ In (EvWriteClose 0 code reason) (events cancelled))
  /\ ret completed = ReturnNil
  /\ In (EvWriteClose 0 1000 "test completed") (events completed).
Proof.
  cbv zeta.
  assert (E : events (Run keepRunes parseSeconds (NewLoadTest one_connection) 0 1 cancelled_schedule)
              = [ EvAcquire 0; EvNewClient 0 None; EvWriteMessage 0 0;
                  EvSendReturned 0 0 None; EvCancel; EvCtxDone 0 1; EvRelease 0 ])
    by (vm_compute; reflexivity).
  split; [vm_compute; reflexivity|]. split; [exact E|]. split; [|split].
  - intros code reason Hin. rewrite E in Hin. simpl in Hin.
    repeat (destruct Hin as [Hin|Hin]; [discriminate|]). exact Hin.
  - vm_compute. reflexivity.
  - vm_compute. tauto.
Qed.

(** C1. A run in which the timer fires before any connection reaches
    its loop ends with no attempt recorded.  The success rate computed
    by [printResults] for it, and the one [addEntry] stores, is NaN and
    not 0: the division by the total is not guarded, while the division
    for the average latency in the same functions is, and yields 0. *)
Theorem success_rate_unguarded :
  let res := Run keepRunes parseSeconds (NewLoadTest one_connection) 0 1 (drain 1 5 (io_ok 0)) in
  let r := lt_results (after res) in
  ret res = ReturnNil
  /\ TotalRequests r = 0
  /\ report res = Some (printResults r)
  /\ PrimFloat.is_nan (rSuccessRate (printResults r)) = true
  /\ PrimFloat.eqb (rSuccessRate (printResults r)) 0%float = false
  /\ rAvgLatency (printResults r) = 0
  /\ (forall (history : list TestHistoryEntry) (o : TestOptions),
        exists e, last (addEntry history o r) = Some e
                  /\ PrimFloat.is_nan (SuccessRate e) = true
                  /\ PrimFloat.eqb (AvgLatency e) 0%float = true).
Proof.
  cbv zeta.
  split; [vm_compute; reflexivity|]. split; [vm_compute; reflexivity|].
  split; [vm_compute; reflexivity|]. split; [vm_compute; reflexivity|].
  split; [vm_compute; reflexivity|]. split; [vm_compute; reflexivity|].
  intros history o. unfold addEntry. rewrite last_snoc. eexists.
  split; [reflexivity|]. split; vm_compute; reflexivity.
Qed.

(** An ASCII message in which "TIMEOUT" and "invalid" both occur. *)
Lemma categorizeError_priority_order_witness :
  categorizeError keepRunes (Some "Read TIMEOUT: invalid frame") = ErrorCategoryTimeout.
Proof.
  apply (proj2 (proj2 (proj2 (proj2 (proj2 (proj2 (proj2
           (categorizeError_priority_order keepRunes))))))));
    reflexivity.
Defined.

(** The samples 3, 1, 2 ms at the 50th percentile. *)
Lemma calculatePercentile_sorted_index_witness :
  calculatePercentile (Latencies unsorted_run) 50 = Some (2 * GoTime.Millisecond).
Proof.
  apply (proj1 calculatePercentile_sorted_index (Latencies unsorted_run)
           [1 * GoTime.Millisecond; 2 * GoTime.Millisecond; 3 * GoTime.Millisecond] 50).
  - discriminate.
  - lia.
  - vm_compute. discriminate.
  - repeat constructor; vm_compute; discriminate.
  - symmetry. apply (Permutation_cons_append
                       [1 * GoTime.Millisecond; 2 * GoTime.Millisecond]
                       (3 * GoTime.Millisecond)).
Defined.

Lemma recording_keeps_total_witness :
  exists s,
    mu_run keepRunes two_recordings (mkMuState NewLoadTest_results None []) = Some s
    /\ TotalRequests (shared s) = 2
    /\ TotalRequests (shared s) = SuccessfulReqs (shared s) + FailedReqs (shared s).
Proof.
  destruct (mu_run keepRunes two_recordings (mkMuState NewLoadTest_results None []))
    as [s|] eqn:E; [|vm_compute in E; discriminate].
  exists s. split; [reflexivity|].
  assert (Hobs : observable s) by (vm_compute in E; injection E as <-; reflexivity).
  assert (Hk : count_ops is_recording (completed s) = 2)
    by (vm_compute in E; injection E as <-; reflexivity).
  destruct (recording_keeps_total keepRunes NewLoadTest_results two_recordings s)
    as (_ & _ & _ & _ & _ & H); try assumption;
    try (vm_compute; split; discriminate); try reflexivity.
  assert (Hmax : count_ops is_recording (completed s) <= GoInt.maxInt64)
    by (rewrite Hk; vm_compute; discriminate).
  destruct (H eq_refl Hmax) as (Ht & _ & _ & Hsum).
  split; [rewrite Ht; exact Hk | exact Hsum].
Defined.

Lemma examples_first_three_witness :
  exists r info,
    recordErrors keepRunes five_failures NewLoadTest_results = Some r
    /\ ErrorCategories r !! ErrorCategoryTimeout = Some info
    /\ (length (Examples info) <= 3)%nat
    /\ Examples info
       = ["read tcp: i/o timeout"; "context deadline exceeded"; "handshake timeout"].
Proof.
  destruct (examples_first_three keepRunes five_failures) as (r & Hr & H).
  assert (Hl : exists info, ErrorCategories r !! ErrorCategoryTimeout = Some info).
  { vm_compute in Hr. injection Hr as <-. eexists. vm_compute. reflexivity. }
  destruct Hl as [info Hinfo]. exists r, info.
  destruct (H _ _ Hinfo) as [Hlen Hex].
  split; [exact Hr|]. split; [exact Hinfo|]. split; [exact Hlen|].
  rewrite Hex. vm_compute. reflexivity.
Defined.

(** A run whose duration does not parse, and one whose only connection
    is refused. *)
Lemma Run_error_iff_duration_witness :
  Run keepRunes parseSeconds
      (NewLoadTest (mkTestOptions "ws://echo.websocket.org" "invalid" 10 "Hello" 1)) 0 1 []
  = mkRunResult
      (ReturnError "invalid duration format: time: invalid duration invalid")
      (NewLoadTest (mkTestOptions "ws://echo.websocket.org" "invalid" 10 "Hello" 1)) [] [] None
  /\ ret (Run keepRunes parseSeconds (NewLoadTest one_connection) 0 1
            ([AStep 0 (io_ok 0); AStep 0 (io_fail "connect: connection refused")]
             ++ drain (Z.to_nat (Connections (opts (NewLoadTest one_connection)))) 5 (io_ok 0)))
     = ReturnNil.
Proof.
  split.
  - apply (proj1 (proj2 (Run_error_iff_duration keepRunes parseSeconds
             (NewLoadTest (mkTestOptions "ws://echo.websocket.org" "invalid" 10 "Hello" 1))
             0 1 []))).
    reflexivity.
  - apply (proj2 (proj2 (Run_error_iff_duration keepRunes parseSeconds
             (NewLoadTest one_connection) 0 1
             [AStep 0 (io_ok 0); AStep 0 (io_fail "connect: connection refused")]))
             10000000000).
    + reflexivity.
    + vm_compute. discriminate.
Defined.

Lemma cancellation_stops_new_sends_witness :
  exists s',
    exec keepRunes two_connections after_cancellation at_cancellation = Some s'
    /\ ctxDone s' = true
    /\ workers s' = [PCReturned; PCReturned]
    /\ exists new, trace s' = (trace at_cancellation ++ new)%list
                   /\ forall connID i, ~ In (EvWriteMessage connID i) new.
Proof.
  destruct (exec keepRunes two_connections after_cancellation at_cancellation)
    as [s'|] eqn:E; [|vm_compute in E; discriminate].
  exists s'. split; [reflexivity|].
  destruct (cancellation_stops_new_sends keepRunes two_connections after_cancellation
              at_cancellation s' eq_refl E) as (Hd & Hnew & _).
  split; [exact Hd|]. split; [|exact Hnew].
  vm_compute in E. injection E as <-. reflexivity.
Defined.


(* --------------------------------------------------------------------- *)
(** *** The further properties on concrete inputs *)
(* --------------------------------------------------------------------- *)

(** A success and a failure recorded one after the other under the lock. *)
Lemma mutex_linearizes_witness :
  exists s,
    mu_run keepRunes two_recordings (mkMuState NewLoadTest_results None []) = Some s
    /\ apply_ops keepRunes (completed s) NewLoadTest_results = Some (shared s).
Proof.
  destruct (mu_run keepRunes two_recordings (mkMuState NewLoadTest_results None []))
    as [s|] eqn:E; [|vm_compute in E; discriminate].
  exists s. split; [reflexivity|].
  apply (mutex_linearizes keepRunes NewLoadTest_results two_recordings s E).
  vm_compute in E. injection E as <-. reflexivity.
Defined.

Lemma samples_bookkeeping_witness :
  exists r,
    apply_ops keepRunes four_operations NewLoadTest_results = Some r
    /\ Latencies r = [5; 3]
    /\ BytesSent r = GoInt.wrap64 7
    /\ BytesReceived r = GoInt.wrap64 7.
Proof.
  destruct (apply_ops keepRunes four_operations NewLoadTest_results) as [r|] eqn:E;
    [|vm_compute in E; discriminate].
  exists r. split; [reflexivity|].
  destruct (samples_bookkeeping keepRunes NewLoadTest_results r four_operations)
    as (Hl & _ & _ & Hs & Hr).
  - repeat split; reflexivity.
  - exact E.
  - split; [exact Hl|]. split; [exact Hs | exact Hr].
Defined.

Lemma peak_is_maximum_witness :
  exists r,
    apply_ops keepRunes four_operations NewLoadTest_results = Some r
    /\ PeakResponseTime r = peak_of 0 (Latencies r)
    /\ forall x, In x (Latencies r) -> x <= PeakResponseTime r.
Proof.
  destruct (apply_ops keepRunes four_operations NewLoadTest_results) as [r|] eqn:E;
    [|vm_compute in E; discriminate].
  exists r. split; [reflexivity|].
  destruct (peak_is_maximum keepRunes NewLoadTest_results r four_operations)
    as (Hp & _ & Hle & _).
  - repeat split; reflexivity.
  - exact E.
  - split; [exact Hp | exact Hle].
Defined.

Lemma ErrorCounts_count_witness :
  exists r,
    apply_ops keepRunes four_operations NewLoadTest_results = Some r
    /\ ErrorCounts r !! "send_failed_1_0" = Some (GoInt.wrap64 1)
    /\ ErrorCounts r !! "send_failed_1_1" = None.
Proof.
  destruct (apply_ops keepRunes four_operations NewLoadTest_results) as [r|] eqn:E;
    [|vm_compute in E; discriminate].
  exists r. split; [reflexivity|]. split.
  - apply (ErrorCounts_count keepRunes NewLoadTest_results r four_operations
             "send_failed_1_0").
    + repeat split; reflexivity.
    + exact E.
  - apply (ErrorCounts_count keepRunes NewLoadTest_results r four_operations
             "send_failed_1_1").
    + repeat split; reflexivity.
    + exact E.
Defined.

Lemma category_counts_partition_witness :
  exists r,
    apply_ops keepRunes four_operations NewLoadTest_results = Some r
    /\ sum_Z (map (category_count r) nineCategories) = FailedReqs r.
Proof.
  destruct (apply_ops keepRunes four_operations NewLoadTest_results) as [r|] eqn:E;
    [|vm_compute in E; discriminate].
  exists r. split; [reflexivity|].
  destruct (category_counts_partition keepRunes NewLoadTest_results r four_operations)
    as (_ & _ & _ & H).
  - repeat split; reflexivity.
  - exact E.
  - apply H. vm_compute. discriminate.
Defined.

(** The run of one connection through its three repeats. *)
Lemma report_within_peak_witness :
  exists rep,
    report (Run keepRunes parseSeconds (NewLoadTest one_connection) 0 1 completed_schedule)
    = Some rep
    /\ rP50Latency rep <= rPeakResponseTime rep.
Proof.
  destruct (report_within_peak keepRunes parseSeconds one_connection 0 1
              completed_schedule) as (rep & Hrep & Hle & _).
  - vm_compute. reflexivity.
  - exists rep. split; [exact Hrep | exact Hle].
Defined.

Lemma counters_match_trace_witness :
  exists s,
    exec keepRunes one_connection completed_schedule
      (startSys one_connection NewLoadTest_results false) = Some s
    /\ SuccessfulReqs (results s) = GoInt.wrap64 (count_events is_send_ok (trace s))
    /\ FailedReqs (results s) = GoInt.wrap64 (count_events is_failed_attempt (trace s)).
Proof.
  destruct (exec keepRunes one_connection completed_schedule
              (startSys one_connection NewLoadTest_results false)) as [s|] eqn:E;
    [|vm_compute in E; discriminate].
  exists s. split; [reflexivity|].
  destruct (counters_match_trace keepRunes one_connection NewLoadTest_results false
              completed_schedule s) as (Hs & Hf & _).
  - repeat split; reflexivity.
  - exact E.
  - split; [exact Hs | exact Hf].
Defined.

Lemma sends_within_repeat_count_witness :
  exists s pc,
    exec keepRunes one_connection cancelled_schedule
      (startSys one_connection NewLoadTest_results false) = Some s
    /\ workers s !! 0%nat = Some pc
    /\ 0 <= count_events (is_send_of 0) (trace s) <= Z.max 0 (Loop one_connection).
Proof.
  destruct (exec keepRunes one_connection cancelled_schedule
              (startSys one_connection NewLoadTest_results false)) as [s|] eqn:E;
    [|vm_compute in E; discriminate].
  assert (Hpc : exists pc, workers s !! 0%nat = Some pc)
    by (vm_compute in E; injection E as <-; eexists; reflexivity).
  destruct Hpc as [pc Hpc]. exists s, pc. split; [reflexivity|]. split; [exact Hpc|].
  assert (Hmax : Loop one_connection <= GoInt.maxInt64) by (vm_compute; discriminate).
  destruct (sends_within_repeat_count keepRunes one_connection NewLoadTest_results false
              cancelled_schedule s Hmax E 0%nat pc Hpc) as (_ & H & _).
  exact H.
Defined.

(** Two connections, both refused. *)
Lemma all_opens_fail_witness :
  let res := Run keepRunes parseSeconds (NewLoadTest two_connections) 0 1
               (drain 2 5 (io_fail "dial tcp 127.0.0.1:8080: connect: connection refused")) in
  TotalRequests (lt_results (after res)) = 2
  /\ FailedReqs (lt_results (after res)) = 2
  /\ SuccessfulReqs (lt_results (after res)) = 0.
Proof.
  cbv zeta.
  destruct (all_opens_fail keepRunes parseSeconds two_connections 0 1
              (drain 2 5 (io_fail "dial tcp 127.0.0.1:8080: connect: connection refused")))
    as (Ht & Hf & Hs & _).
  - unfold all_fail, drain. simpl. repeat constructor; discriminate.
  - vm_compute. discriminate.
  - vm_compute. reflexivity.
  - split; [exact Ht|]. split; [exact Hf | exact Hs].
Defined.

Lemma pool_never_blocks_witness :
  exists s,
    exec keepRunes two_connections [AStep 0 (io_ok 0); AStep 1 (io_ok 0); AStep 0 (io_ok 0)]
      (startSys two_connections NewLoadTest_results false) = Some s
    /\ pool s = slots (workers s)
    /\ 0 <= pool s <= Connections two_connections.
Proof.
  destruct (exec keepRunes two_connections
              [AStep 0 (io_ok 0); AStep 1 (io_ok 0); AStep 0 (io_ok 0)]
              (startSys two_connections NewLoadTest_results false)) as [s|] eqn:E;
    [|vm_compute in E; discriminate].
  exists s. split; [reflexivity|].
  destruct (pool_never_blocks keepRunes two_connections NewLoadTest_results false
              [AStep 0 (io_ok 0); AStep 1 (io_ok 0); AStep 0 (io_ok 0)] s)
    as (Hp & Hb & _).
  - vm_compute. discriminate.
  - exact E.
  - split; [exact Hp | exact Hb].
Defined.

Lemma sanitizeMessage_shape_witness :
  exists out,
    sanitizeMessage "This is a very long message" 10 = Some out
    /\ Z.of_nat (String.length out) <= 10 + 3.
Proof.
  destruct (sanitizeMessage_shape "This is a very long message" 10) as (out & Ho & Hl & _).
  - lia.
  - exists out. split; [exact Ho | exact Hl].
Defined.

Lemma sanitizeMessage_negative_limit_witness :
  sanitizeMessage "Short" (-1) = None.
Proof.
  apply (sanitizeMessage_negative_limit "Short" (-1)). lia.
Defined.

Lemma formatBytes_unit_witness :
  exists out, formatBytes 1536 = Some out /\ (1536 < 1024 -> out = PlainBytes "1536 B").
Proof.
  destruct (formatBytes_unit 1536) as (out & Ho & Hs & _).
  - vm_compute. split; discriminate.
  - exists out. split; [exact Ho | exact Hs].
Defined.

Lemma getLastNEntries_suffix_witness :
  (exists older, two_entries = (older ++ getLastNEntries two_entries 1)%list)
  /\ Z.of_nat (length (getLastNEntries two_entries 1))
     = Z.min (Z.max 1 0) (Z.of_nat (length two_entries)).
Proof.
  destruct (getLastNEntries_suffix two_entries 1) as (Hs & Hl & _).
  - vm_compute. discriminate.
  - vm_compute. discriminate.
  - split; [exact Hs | exact Hl].
Defined.

Lemma addEntry_identifiers_witness :
  exists entry,
    addEntry two_entries one_connection unsorted_run = (two_entries ++ [entry])%list
    /\ ID entry = 3
    /\ NoDup (map ID (addEntry two_entries one_connection unsorted_run)).
Proof.
  destruct (addEntry_identifiers two_entries one_connection unsorted_run)
    as (entry & He & Hid & _ & _ & _ & _ & _ & Hnd).
  - unfold IDs_increasing. repeat constructor.
  - intros e He. vm_compute in He. injection He as <-. vm_compute.
    split; [discriminate | reflexivity].
  - exists entry. split; [exact He|]. split; [|exact Hnd].
    rewrite Hid. reflexivity.
Defined.

Lemma chart_needs_two_witness :
  generateComparisonChart two_entries "success-rate" 1 = Some ChartNeedTwo.
Proof.
  destruct (chart_needs_two two_entries "success-rate" 1) as (_ & H & _).
  - vm_compute. discriminate.
  - vm_compute. discriminate.
  - apply H.
    + discriminate.
    + left. lia.
Defined.

Lemma validateWebSocketURL_idempotent_witness :
  validateWebSocketURL parseSchemeHost "ws://localhost:8080/ws"
  = inl "ws://localhost:8080/ws".
Proof.
  apply (validateWebSocketURL_idempotent parseSchemeHost "localhost:8080/ws"
           "ws://localhost:8080/ws").
  reflexivity.
Defined.

Lemma validated_options_run_witness :
  1 <= Connections one_connection
  /\ 1 <= Loop one_connection
  /\ exists res,
       runTest keepRunes parseSeconds parseSchemeHost trimmed notJSON
         one_connection false 0 1 completed_schedule = TestRan res
       /\ (ret res = ReturnNil \/ ret res = RunWaits).
Proof.
  destruct (validated_options_run keepRunes parseSeconds parseSchemeHost trimmed notJSON
              one_connection false 0 1 completed_schedule) as (Hc & Hl & _ & Hr & _).
  - reflexivity.
  - split; [exact Hc|]. split; [exact Hl | exact Hr].
Defined.

(** The samples 3, 1, 2 and the same in ascending order. *)
Lemma calculatePercentile_order_independent_witness :
  calculatePercentile [3; 1; 2] 50 = calculatePercentile [1; 2; 3] 50.
Proof.
  apply (calculatePercentile_order_independent [3; 1; 2] [1; 2; 3] 50).
  apply (Permutation_cons_append [1; 2] 3).
Defined.

Lemma calculatePercentile_monotone_witness :
  exists vp vq,
    calculatePercentile [3; 1; 2] 50 = Some vp
    /\ calculatePercentile [3; 1; 2] 95 = Some vq
    /\ vp <= vq.
Proof.
  destruct (calculatePercentile_monotone [3; 1; 2] 50 95) as (vp & vq & Hp & Hq & Hle & _).
  - discriminate.
  - lia.
  - vm_compute. discriminate.
  - exists vp, vq. split; [exact Hp|]. split; [exact Hq | exact Hle].
Defined.

Lemma begun_sends_return_witness :
  exists s,
    exec keepRunes one_connection completed_schedule
      (startSys one_connection NewLoadTest_results false) = Some s
    /\ count_events (is_send_of 0) (trace s) = count_events (is_return_of 0) (trace s).
Proof.
  destruct (exec keepRunes one_connection completed_schedule
              (startSys one_connection NewLoadTest_results false)) as [s|] eqn:E;
    [|vm_compute in E; discriminate].
  exists s. split; [reflexivity|].
  assert (Hpc : workers s !! 0%nat = Some PCReturned)
    by (vm_compute in E; injection E as <-; reflexivity).
  destruct (begun_sends_return keepRunes one_connection NewLoadTest_results false
              completed_schedule s E 0%nat PCReturned Hpc) as (_ & H).
  apply H. reflexivity.
Defined.

Lemma report_duration_witness :
  exists rep,
    report (Run keepRunes parseSeconds (NewLoadTest one_connection) 0 (10 * GoTime.Second)
              completed_schedule) = Some rep
    /\ rDuration rep = GoTime.Sub (10 * GoTime.Second) 0.
Proof.
  destruct (report_duration keepRunes parseSeconds (NewLoadTest one_connection) 0
              (10 * GoTime.Second) completed_schedule) as (_ & _ & H).
  - vm_compute. reflexivity.
  - exact H.
Defined.

Lemma addEntry_then_last_witness :
  exists entry,
    last (addEntry two_entries one_connection unsorted_run) = Some entry
    /\ getLastNEntries (addEntry two_entries one_connection unsorted_run) 1 = [entry].
Proof.
  apply (addEntry_then_last two_entries one_connection unsorted_run).
  vm_compute. reflexivity.
Defined.

Lemma printHistory_footer_witness :
  exists footer,
    printHistory two_entries 1 = HistoryListed (getLastNEntries two_entries 1) footer
    /\ forall shown total, footer = Some (shown, total) -> shown < total.
Proof.
  destruct (printHistory_footer two_entries 1) as (footer & Hp & _ & Hf).
  - vm_compute. discriminate.
  - vm_compute. discriminate.
  - discriminate.
  - exists footer. split; [exact Hp|].
    intros shown total H. destruct (Hf shown total H) as (_ & _ & Hlt). exact Hlt.
Defined.

(** A refusal as the dialer reports it, longer than 80 bytes. *)
Lemma printed_example_fits_witness :
  exists out,
    printResults_example
      "dial tcp 127.0.0.1:8080: connectex: No connection could be made because the target machine actively refused it."
    = Some out
    /\ (String.length out <= 80)%nat.
Proof.
  destruct (printed_example_fits
              "dial tcp 127.0.0.1:8080: connectex: No connection could be made because the target machine actively refused it.")
    as (out & Ho & Hl & _).
  exists out. split; [exact Ho | exact Hl].
Defined.

Lemma runVisualize_metric_witness :
  runVisualize two_entries "throughput" 2
  = Visualized (generateComparisonChart two_entries "throughput" 2).
Proof.
  apply (proj1 (runVisualize_metric two_entries "throughput" 2)).
  simpl. tauto.
Defined.
